(** * Order reconciliation of the FWULL registration site

    A shallow embedding of the page code that reconciles a paid order with
    the registrations queued in the buyer's session:

    - [ThankYouRefactored.js]: [processDonations], [loadRegistrationQueue],
      [matchRegistrationsToLineItems], [cleanupSession] and the [$w.onReady]
      handler that drives them under a per-order processing lock;
    - [NewSeasonRegRefactored.js] and its safe-fallback variant: the session
      queue helpers and [handleRegisterClick], and the division table of
      [calculateDivision];
    - the registration checkout page: the Pay and Remove buttons,
      [addItemToCart] and the cart check of [validateCart];
    - the [get_product] HTTP function, in both of its versions, with the
      product map of the shared constants.

    JavaScript numbers are modelled as [Z] (prices and quantities are whole
    numbers), strings as [string], a property that may be [undefined] or
    [null] as an [option].  Asynchronous calls are sequential: every [await]
    is a plain call in a state-and-exception monad over the page's world. *)

From Stdlib Require Import ZArith String Ascii.
From Stdlib Require Import DecimalString DecimalNat DecimalFacts.
From stdpp Require Import base option list gmap strings sorting.

Open Scope string_scope.
Open Scope list_scope.

(** ** JavaScript values *)

Module Js.

(** [x || d] on a number-valued property: [undefined], [null] and [0] are
    falsy. *)
Definition or_num (x : option Z) (d : Z) : Z :=
  match x with
  | Some v => if (v =? 0)%Z then d else v
  | None => d
  end.

(** [x || d] on a string-valued property: [undefined], [null] and the empty
    string are falsy. *)
Definition or_str (x : option string) (d : string) : string :=
  match x with
  | Some "" => d
  | Some s => s
  | None => d
  end.

(** [a || b] where both sides are optional strings (the right side is
    returned as it is when the left one is falsy). *)
Definition or_opt (a b : option string) : option string :=
  match a with
  | Some "" => b
  | Some s => Some s
  | None => b
  end.

(** Truthiness of an optional string. *)
Definition truthy (a : option string) : bool :=
  match a with
  | Some "" => false
  | Some _ => true
  | None => false
  end.

(** [x ?? d]: only [undefined] and [null] fall through. *)
Definition nullish {A} (x : option A) (d : A) : A := default d x.

(** String concatenation [a + b] where an operand may be [undefined]. *)
Definition to_str (a : option string) : string := default "undefined" a.

(** [String.prototype.includes]: [sub] occurs somewhere in [s]. *)
Fixpoint includes (s sub : string) : bool :=
  String.prefix sub s ||
  match s with
  | EmptyString => false
  | String _ s' => includes s' sub
  end.

Definition is_space (c : ascii) : bool :=
  match nat_of_ascii c with
  | 9 | 10 | 11 | 12 | 13 | 32 => true
  | _ => false
  end.

Fixpoint drop_spaces (l : list ascii) : list ascii :=
  match l with
  | c :: l' => if is_space c then drop_spaces l' else l
  | [] => []
  end.

(** [String.prototype.trim] on ASCII white space. *)
Definition trim (s : string) : string :=
  string_of_list_ascii
    (rev (drop_spaces (rev (drop_spaces (list_ascii_of_string s))))).

End Js.

(** ** Data model *)

(** A queued registration (the spec's PendingIntent), with the properties the
    reconciliation code reads. *)
Record registration := Registration {
  playerId : string;
  playerName : string;
  seasonName : string;
  sport : string;
  division : string;
  fee : Z
}.

(** A line item of the order, as the commerce platform supplies it. *)
Record lineItem := LineItem {
  productId : option string;
  name : option string;
  quantity : option Z;
  price : option Z;
  totalPrice : option Z
}.

Record billing := Billing {
  firstName : option string;
  lastName : option string;
  email : option string
}.

Record order := Order {
  _id : option string;
  number : option string;
  lineItems : option (list lineItem);
  billingInfo : option billing;
  buyerInfo_id : option string;
  enteredBy_id : option string
}.

#[global] Instance registration_eq_dec : EqDecision registration.
Proof. solve_decision. Defined.
#[global] Instance lineItem_eq_dec : EqDecision lineItem.
Proof. solve_decision. Defined.

(** ** The matching engine ([matchRegistrationsToLineItems]) *)

Module Matching.

(** One entry of the local [slots] array: [{ li, used }]. *)
Record slot := Slot { li : lineItem; used : bool }.

(** The [lineItems] loop: [qty = li.quantity || 1] pushes of a fresh slot
    per line item. *)
Definition buildSlots (lineItems : list lineItem) : list slot :=
  fold_left
    (fun slots l =>
       let qty := Js.or_num (quantity l) 1 in
       slots ++ replicate (Z.to_nat qty) (Slot l false))
    lineItems [].

(** The predicate handed to [slots.findIndex]. *)
Definition accepts (reg : registration) (s : slot) : bool :=
  negb (used s) &&
  match name (li s) with
  | Some n => Js.includes n (division reg)
  | None => false
  end.

(** [slots.findIndex(p)] together with the read of [slots[idx]] that
    follows it; [None] is the source's [-1]. *)
Definition findIndex (reg : registration) (slots : list slot)
  : option (nat * slot) :=
  list_find (fun s => accepts reg s = true) slots.

Record matchState := MatchState {
  slots_of : list slot;
  matched_of : list (registration * lineItem);
  unmatched_of : list registration
}.

(** Body of the [for (const reg of regQueue)] loop. *)
Definition matchOne (st : matchState) (reg : registration) : matchState :=
  match findIndex reg (slots_of st) with
  | Some (idx, s) =>
      MatchState (<[idx := Slot (li s) true]> (slots_of st))
                 (matched_of st ++ [(reg, li s)])
                 (unmatched_of st)
  | None =>
      MatchState (slots_of st) (matched_of st) (unmatched_of st ++ [reg])
  end.

Definition matchLoop (regQueue : list registration) (slots : list slot)
  : matchState :=
  fold_left matchOne regQueue (MatchState slots [] []).

(** [matchRegistrationsToLineItems(regQueue, lineItems)], returning
    [{ matched, unmatched }]. *)
Definition matchRegistrationsToLineItems
    (regQueue : list registration) (lineItems : list lineItem)
  : list (registration * lineItem) * list registration :=
  let st := matchLoop regQueue (buildSlots lineItems) in
  (matched_of st, unmatched_of st).

End Matching.

(** ** A state-and-exception monad for the page code

    A computation runs on a state [S] and either returns a value or throws;
    the state reached when the exception is thrown is kept, as the effects of
    a JavaScript function persist when it throws. *)

Inductive result (A : Type) : Type :=
| Ok (a : A)
| Throw (e : string).
Arguments Ok {A} a.
Arguments Throw {A} e.

Definition M (S A : Type) : Type := S -> result A * S.

#[global] Instance M_ret {S} : MRet (M S) := fun A a s => (Ok a, s).

#[global] Instance M_bind {S} : MBind (M S) := fun A B k c s =>
  match c s with
  | (Ok a, s') => k a s'
  | (Throw e, s') => (Throw e, s')
  end.

Definition throw {S A} (e : string) : M S A := fun s => (Throw e, s).

(** [try { body } catch (error) { handler }] *)
Definition tryCatch {S A} (body : M S A) (handler : string -> M S A) : M S A :=
  fun s =>
    match body s with
    | (Ok a, s') => (Ok a, s')
    | (Throw e, s') => handler e s'
    end.

Definition gets {S A} (f : S -> A) : M S A := fun s => (Ok (f s), s).
Definition modify {S} (f : S -> S) : M S unit := fun s => (Ok tt, f s).

(** [for (const x of l) { body }] *)
Fixpoint forEach {S A} (l : list A) (body : A -> M S unit) : M S unit :=
  match l with
  | [] => mret tt
  | x :: l' => body x ≫= fun _ => forEach l' body
  end.

(** ** The world of the Thank You page *)

(** A session or collection property holding a JSON-serialised registration
    array: missing (or empty), not parseable, or the array it encodes. *)
Inductive stored :=
| Absent
| Corrupt
| Json (regs : list registration).

(** An item of the [PendingRegistrations] collection (the spec's
    BackupRecord). *)
Record pendingRegistration := PendingRegistration {
  pending_id : string;
  userId : string;
  status : string;
  createdAt : Z;
  registrations : stored
}.

(** An element of [registrationsToSave]:
    [{ ...reg, fee: paidAmount, paid: true, orderId, datePaid }]. *)
Record paidRegistration := PaidRegistration {
  paid_reg : registration;
  paid : bool;
  paid_orderId : string;
  datePaid : Z
}.

(** An item of the [AirtableSyncErrors] collection (the audit sink); the
    [errorDetails] rendering of the same data is left out. *)
Record syncError := SyncError {
  err_orderId : option string;
  err_playerName : string;
  err_parentId : option string;
  err_sport : string;
  err_division : string;
  err_seasonName : string;
  errorType : string;
  errorMessage : string;
  errorTimestamp : Z
}.

Record donationRecord := DonationRecord {
  donor_name : string;
  donation_amount : Z;
  donor_email : string;
  donation_source : string
}.

(** What an external call answers next: it succeeds, it returns an error
    result (for calls that have one), or it throws. *)
Inductive reply :=
| Done
| Soft (error : option string)
| Raise (error : string).

Record world := World {
  (* session storage, reached through sessionManager.jsw *)
  regQueueItem : stored;
  locks : gset string;
  processedOrders : gset string;
  donationSynced : bool;
  (* wix-data collections *)
  PendingRegistrations : list pendingRegistration;
  SeasonRegistration : list paidRegistration;
  AirtableSyncErrors : list syncError;
  (* backend collaborators *)
  syncedDonations : list donationRecord;
  syncedRegistrations : list paidRegistration;
  dataLossReports : list order;
  (* environment *)
  now : Z;
  replies : list reply
}.

Definition with_regQueueItem (x : stored) (w : world) : world :=
  World x (locks w) (processedOrders w) (donationSynced w)
        (PendingRegistrations w) (SeasonRegistration w) (AirtableSyncErrors w)
        (syncedDonations w) (syncedRegistrations w) (dataLossReports w)
        (now w) (replies w).
Definition with_locks (x : gset string) (w : world) : world :=
  World (regQueueItem w) x (processedOrders w) (donationSynced w)
        (PendingRegistrations w) (SeasonRegistration w) (AirtableSyncErrors w)
        (syncedDonations w) (syncedRegistrations w) (dataLossReports w)
        (now w) (replies w).
Definition with_processedOrders (x : gset string) (w : world) : world :=
  World (regQueueItem w) (locks w) x (donationSynced w)
        (PendingRegistrations w) (SeasonRegistration w) (AirtableSyncErrors w)
        (syncedDonations w) (syncedRegistrations w) (dataLossReports w)
        (now w) (replies w).
Definition with_donationSynced (x : bool) (w : world) : world :=
  World (regQueueItem w) (locks w) (processedOrders w) x
        (PendingRegistrations w) (SeasonRegistration w) (AirtableSyncErrors w)
        (syncedDonations w) (syncedRegistrations w) (dataLossReports w)
        (now w) (replies w).
Definition with_PendingRegistrations (x : list pendingRegistration) (w : world)
  : world :=
  World (regQueueItem w) (locks w) (processedOrders w) (donationSynced w)
        x (SeasonRegistration w) (AirtableSyncErrors w)
        (syncedDonations w) (syncedRegistrations w) (dataLossReports w)
        (now w) (replies w).
Definition with_SeasonRegistration (x : list paidRegistration) (w : world)
  : world :=
  World (regQueueItem w) (locks w) (processedOrders w) (donationSynced w)
        (PendingRegistrations w) x (AirtableSyncErrors w)
        (syncedDonations w) (syncedRegistrations w) (dataLossReports w)
        (now w) (replies w).
Definition with_AirtableSyncErrors (x : list syncError) (w : world) : world :=
  World (regQueueItem w) (locks w) (processedOrders w) (donationSynced w)
        (PendingRegistrations w) (SeasonRegistration w) x
        (syncedDonations w) (syncedRegistrations w) (dataLossReports w)
        (now w) (replies w).
Definition with_syncedDonations (x : list donationRecord) (w : world) : world :=
  World (regQueueItem w) (locks w) (processedOrders w) (donationSynced w)
        (PendingRegistrations w) (SeasonRegistration w) (AirtableSyncErrors w)
        x (syncedRegistrations w) (dataLossReports w)
        (now w) (replies w).
Definition with_syncedRegistrations (x : list paidRegistration) (w : world)
  : world :=
  World (regQueueItem w) (locks w) (processedOrders w) (donationSynced w)
        (PendingRegistrations w) (SeasonRegistration w) (AirtableSyncErrors w)
        (syncedDonations w) x (dataLossReports w)
        (now w) (replies w).
Definition with_dataLossReports (x : list order) (w : world) : world :=
  World (regQueueItem w) (locks w) (processedOrders w) (donationSynced w)
        (PendingRegistrations w) (SeasonRegistration w) (AirtableSyncErrors w)
        (syncedDonations w) (syncedRegistrations w) x
        (now w) (replies w).
Definition with_replies (x : list reply) (w : world) : world :=
  World (regQueueItem w) (locks w) (processedOrders w) (donationSynced w)
        (PendingRegistrations w) (SeasonRegistration w) (AirtableSyncErrors w)
        (syncedDonations w) (syncedRegistrations w) (dataLossReports w)
        (now w) x.

(** The next external call takes its answer from the head of [replies]; a
    call made when the script is used up succeeds. *)
Definition nextReply : M world reply := fun w =>
  match replies w with
  | r :: rs => (Ok r, with_replies rs w)
  | [] => (Ok Done, w)
  end.

(** [Date.now()] and [new Date()]: the clock reading, in milliseconds. *)
Definition dateNow : M world Z := gets now.

(** ** sessionManager.jsw

    The queue helpers are the ones the safe-fallback registration page
    defines for itself; the lock, order and donation helpers follow the
    specification of the order reconciler. *)

Module SessionManager.

(** [JSON.parse(session.getItem('regQueue') || '[]')] inside [try], with
    [[]] on a parse error. *)
Definition parseQueue (item : stored) : list registration :=
  match item with
  | Json q => q
  | Absent | Corrupt => []
  end.

Definition getRegQueue : M world (list registration) :=
  gets (fun w => parseQueue (regQueueItem w)).

Definition setRegQueue (queue : list registration) : M world unit :=
  modify (with_regQueueItem (Json queue)).

Definition addToRegQueue (item : registration) : M world unit :=
  queue ← getRegQueue;
  setRegQueue (queue ++ [item]).

(** [r.playerId === reg.playerId && r.seasonName === reg.seasonName &&
    r.sport === reg.sport] *)
Definition sameIdentity (reg r : registration) : bool :=
  String.eqb (playerId r) (playerId reg) &&
  String.eqb (seasonName r) (seasonName reg) &&
  String.eqb (sport r) (sport reg).

Definition isDuplicateInQueue (reg : registration) : M world bool :=
  queue ← getRegQueue;
  mret (existsb (sameIdentity reg) queue).

(** Modelled from the spec: [isOrderProcessed] of sessionManager.jsw, the
    order-processed marker of the state machine's START step. *)
Definition isOrderProcessed (orderId : string) : M world bool :=
  gets (fun w => bool_decide (orderId ∈ processedOrders w)).

(** Modelled from the spec: [acquireProcessingLock] of sessionManager.jsw.
    The lock is keyed by the order id and exclusive; acquiring fails when
    the lock is already held or the order is already processed. *)
Definition acquireProcessingLock (orderId : string) : M world bool :=
  fun w =>
    if bool_decide (orderId ∈ locks w) ||
       bool_decide (orderId ∈ processedOrders w)
    then (Ok false, w)
    else (Ok true, with_locks ({[orderId]} ∪ locks w) w).

(** Modelled from the spec: [releaseProcessingLock] of sessionManager.jsw. *)
Definition releaseProcessingLock (orderId : string) : M world unit :=
  modify (fun w => with_locks (locks w ∖ {[orderId]}) w).

(** Modelled from the spec: [markOrderProcessed] of sessionManager.jsw,
    step 8 of the state machine (mark order processed, release lock); the
    page calls it under the comment "Mark order as processed and release
    lock". *)
Definition markOrderProcessed (orderId : string) : M world unit :=
  modify (fun w =>
    with_locks (locks w ∖ {[orderId]})
      (with_processedOrders ({[orderId]} ∪ processedOrders w) w)).

(** Modelled from the spec: [isDonationSynced] and [setDonationSynced] of
    sessionManager.jsw, the idempotency flag of donation processing. *)
Definition isDonationSynced : M world bool := gets donationSynced.

Definition setDonationSynced : M world unit :=
  modify (with_donationSynced true).

End SessionManager.

(** ** wix-data

    The platform's data API, as the spec's interface section gives it:
    filtered queries ordered by recency, insert, and update of an item by id.
    Every call is an external call and may throw. *)

Module WixData.

Definition external {A} (k : M world A) : M world A :=
  r ← nextReply;
  match r with
  | Raise e => throw e
  | Done | Soft _ => k
  end.

Definition newerFirst (a b : pendingRegistration) : Prop :=
  (createdAt b <= createdAt a)%Z.

#[global] Instance newerFirst_dec a b : Decision (newerFirst a b).
Proof. unfold newerFirst. apply _. Defined.

(** [.limit(n)], when the query has one. *)
Definition limited {A} (limit : option nat) (l : list A) : list A :=
  match limit with
  | Some n => take n l
  | None => l
  end.

(** [wixData.query("PendingRegistrations").eq("userId", u)
    .eq("status", st).ge("createdAt", since).descending("createdAt")
    [.limit(n)].find()] *)
Definition selectPending (u : option string) (st : string) (since : Z)
    (limit : option nat) (items : list pendingRegistration)
  : list pendingRegistration :=
  limited limit
    (merge_sort newerFirst
       (filter (fun p => Some (userId p) = u ∧ status p = st ∧
                         (since <= createdAt p)%Z) items)).

Definition queryPending (u : option string) (st : string) (since : Z)
    (limit : option nat) : M world (list pendingRegistration) :=
  external (gets (fun w => selectPending u st since limit
                             (PendingRegistrations w))).

(** [wixData.query("SeasonRegistration").eq("orderId", orderId).limit(1)
    .find()] *)
Definition selectSeason (orderId : option string)
    (items : list paidRegistration) : list paidRegistration :=
  take 1 (filter (fun r => Some (paid_orderId r) = orderId) items).

Definition querySeasonByOrder (orderId : option string)
  : M world (list paidRegistration) :=
  external (gets (fun w => selectSeason orderId (SeasonRegistration w))).

Definition setStatus (id st : string) (p : pendingRegistration)
  : pendingRegistration :=
  if decide (pending_id p = id)
  then PendingRegistration (pending_id p) (userId p) st (createdAt p)
                           (registrations p)
  else p.

(** [wixData.update("PendingRegistrations", { _id, status })]: the status
    of the item with that id is replaced. *)
Definition updatePendingStatus (id st : string) : M world unit :=
  external (modify (fun w =>
    with_PendingRegistrations (setStatus id st <$> PendingRegistrations w) w)).

(** [wixData.insert("AirtableSyncErrors", record)] *)
Definition insertSyncError (record : syncError) : M world unit :=
  external (modify (fun w =>
    with_AirtableSyncErrors (AirtableSyncErrors w ++ [record]) w)).

End WixData.

(** ** Backend collaborators of the Thank You page *)

Module Backend.

(** Modelled from the spec: [saveDonation] of transactionManager.jsw, a
    single upsert to the external synchronisation target answering
    [{ success, error? }]; the call itself may throw. *)
Definition saveDonation (record : donationRecord)
  : M world (bool * option string) :=
  r ← nextReply;
  match r with
  | Done =>
      _ ← modify (fun w =>
             with_syncedDonations (syncedDonations w ++ [record]) w);
      mret (true, None)
  | Soft e => mret (false, e)
  | Raise e => throw e
  end.

(** Modelled from the spec: [handleNoRegistrationData] of errorHandler.jsw,
    the notification collaborator, invoked with the full order; the report
    is counted when the call is made, whether or not delivery then
    throws. *)
Definition handleNoRegistrationData (o : order) : M world unit :=
  _ ← modify (fun w => with_dataLossReports (dataLossReports w ++ [o]) w);
  r ← nextReply;
  match r with
  | Raise e => throw e
  | Done | Soft _ => mret tt
  end.

Record batchResult := BatchResult {
  total : nat;
  successful : nat;
  partial : nat;
  failed : nat
}.

Inductive saveOutcome := FullSuccess | PartialSuccess | Failure.

Definition sameSaved (orderId : string) (r s : paidRegistration) : bool :=
  String.eqb (paid_orderId s) orderId &&
  SessionManager.sameIdentity (paid_reg r) (paid_reg s).

(** Modelled from the spec: [saveRegistration] of transactionManager.jsw
    (the spec's saveMatched).  A record already in the authoritative store
    for this order and identity short-circuits to success; otherwise the
    record is written to the authoritative store, and only then
    synchronised to the external target.  A failed write is logged as
    [CMS_INSERT_FAILED] and no synchronisation follows; a failed
    synchronisation leaves the authoritative record in place and appends a
    sync error. *)
Definition saveRegistration (r : paidRegistration) (orderId : string)
  : M world saveOutcome :=
  existing ← gets (fun w => existsb (sameSaved orderId r)
                                    (SeasonRegistration w));
  if (existing : bool) then mret FullSuccess else
  w1 ← nextReply;
  t ← dateNow;
  match w1 with
  | Raise e =>
      _ ← modify (fun w => with_AirtableSyncErrors
             (AirtableSyncErrors w ++
              [SyncError (Some orderId) (playerName (paid_reg r)) None
                 (sport (paid_reg r)) (division (paid_reg r))
                 (seasonName (paid_reg r)) "CMS_INSERT_FAILED" e t]) w);
      mret Failure
  | Done | Soft _ =>
      _ ← modify (fun w =>
             with_SeasonRegistration (SeasonRegistration w ++ [r]) w);
      w2 ← nextReply;
      match w2 with
      | Done =>
          _ ← modify (fun w =>
                 with_syncedRegistrations (syncedRegistrations w ++ [r]) w);
          mret FullSuccess
      | Soft e =>
          _ ← modify (fun w => with_AirtableSyncErrors
                 (AirtableSyncErrors w ++
                  [SyncError (Some orderId) (playerName (paid_reg r)) None
                     (sport (paid_reg r)) (division (paid_reg r))
                     (seasonName (paid_reg r)) "AIRTABLE_SYNC_FAILED"
                     (default "Airtable sync failed" e) t]) w);
          mret PartialSuccess
      | Raise e =>
          _ ← modify (fun w => with_AirtableSyncErrors
                 (AirtableSyncErrors w ++
                  [SyncError (Some orderId) (playerName (paid_reg r)) None
                     (sport (paid_reg r)) (division (paid_reg r))
                     (seasonName (paid_reg r)) "AIRTABLE_SYNC_FAILED" e t]) w);
          mret PartialSuccess
      end
  end.

Definition count (o : saveOutcome) (b : batchResult) : batchResult :=
  match o with
  | FullSuccess => BatchResult (total b) (S (successful b)) (partial b) (failed b)
  | PartialSuccess => BatchResult (total b) (successful b) (S (partial b)) (failed b)
  | Failure => BatchResult (total b) (successful b) (partial b) (S (failed b))
  end.

Fixpoint saveAll (rs : list paidRegistration) (orderId : string)
    (acc : batchResult) : M world batchResult :=
  match rs with
  | [] => mret acc
  | r :: rs' =>
      o ← saveRegistration r orderId;
      saveAll rs' orderId (count o acc)
  end.

(** Modelled from the spec: [batchSaveRegistrations] of
    transactionManager.jsw (the spec's batchSaveMatched): one
    [saveRegistration] per element, independently, with the tallies
    [{ total, successful, partial, failed }].  Being a call to a backend
    module, the call as a whole may throw before any element is saved. *)
Definition batchSaveRegistrations (rs : list paidRegistration)
    (orderId : string) : M world batchResult :=
  r ← nextReply;
  match r with
  | Raise e => throw e
  | Done | Soft _ => saveAll rs orderId (BatchResult (length rs) 0 0 0)
  end.

End Backend.

(** ** ThankYouRefactored.js *)

Module ThankYou.
Import SessionManager WixData Backend.

(** Donation product ids and amounts. *)
Definition DONATION_PRODUCTS : gmap string Z :=
  list_to_map
    [("c8faba52-947c-4c0e-ae02-58406cfe5202", 10%Z);
     ("80e47dc3-91ee-4b47-ad73-8c17dff81989", 20%Z);
     ("ff86a5c7-c653-4f0e-b8b0-3b0fa3b80143", 50%Z);
     ("9e1f3628-67c3-467e-bb99-91611426f0dc", 100%Z)].

(** [DONATION_PRODUCTS[productId]]; an [undefined] product id finds
    nothing.  (A product id that names a property every object inherits,
    such as ["constructor"], finds an inherited value in the code; product
    ids are taken not to be such names.) *)
Definition donationAmount (l : lineItem) : option Z :=
  productId l ≫= fun p => DONATION_PRODUCTS !! p.

Definition donorNameOf (o : order) : string :=
  Js.trim (Js.or_str (billingInfo o ≫= firstName) "" +:+ " " +:+
           Js.or_str (billingInfo o ≫= lastName) "").

Definition donorEmailOf (o : order) : string :=
  Js.or_str (billingInfo o ≫= email) "".

(** The body of the [for (const li of lineItems)] loop of
    [processDonations], for a line item that is a donation. *)
Definition syncDonation (o : order) (amount : Z) : M world unit :=
  let donorName := donorNameOf o in
  let donationRecord :=
    DonationRecord donorName amount (donorEmailOf o)
                   "Donation at Registration" in
  tryCatch
    (res ← saveDonation donationRecord;
     _ ← (if (res.1 : bool) then mret tt
          else
            t ← dateNow;
            insertSyncError
              (SyncError (_id o) donorName None "N/A" "DONATION" "N/A"
                 "DONATION_SYNC_FAILED"
                 (Js.or_str res.2 "Donation sync failed") t));
     (* Mark as processed (even if failed, to avoid retries) *)
     setDonationSynced)
    (fun error =>
       t ← dateNow;
       insertSyncError
         (SyncError (_id o) donorName None "N/A" "DONATION" "N/A"
            "DONATION_SYNC_EXCEPTION" error t)).

(** [processDonations(order)] *)
Definition processDonations (o : order) : M world unit :=
  synced ← isDonationSynced;
  if (synced : bool) then mret tt
  else
    forEach (Js.nullish (lineItems o) [])
      (fun l =>
         match donationAmount l with
         | Some amount => syncDonation o amount
         | None => mret tt
         end).

Inductive dataSource := FromSession | FromCms | FromNone.

(** [JSON.parse(pending.registrations || '[]')] *)
Definition jsonParse (item : stored) : M world (list registration) :=
  match item with
  | Absent => mret []
  | Json q => mret q
  | Corrupt => throw "SyntaxError: Unexpected token in JSON"
  end.

Definition twoHours : Z := 2 * 60 * 60 * 1000.

(** The [for (const pending of pendingRegsResult.items)] loop of
    [loadRegistrationQueue]; [Some] is the [return] inside the loop. *)
Fixpoint firstUnused (orderId : option string)
    (items : list pendingRegistration)
  : M world (option (list registration * dataSource)) :=
  match items with
  | [] => mret None
  | pending :: rest =>
      (* Check if this order already processed *)
      alreadyProcessed ← querySeasonByOrder orderId;
      if (length alreadyProcessed =? 0)%nat then
        regQueue ← jsonParse (registrations pending);
        (* Mark as processing *)
        _ ← updatePendingStatus (pending_id pending) "processing";
        mret (Some (regQueue, FromCms))
      else firstUnused orderId rest
  end.

(** The [try] block of [loadRegistrationQueue]; [Some] is a [return] taken
    inside the block, [None] falls through to the final [return]. *)
Definition cmsFallback (o : order)
  : M world (option (list registration * dataSource)) :=
  let buyerId := Js.or_opt (buyerInfo_id o) (enteredBy_id o) in
  if negb (Js.truthy buyerId) then mret (Some ([], FromNone))
  else
    (* Look for pending registrations created in last 2 hours *)
    t ← dateNow;
    let twoHoursAgo := (t - twoHours)%Z in
    items ← queryPending buyerId "pending" twoHoursAgo None;
    if (0 <? length items)%nat then firstUnused (_id o) items
    else mret None.

Definition retrievalFailed (o : order) (t : Z) : syncError :=
  SyncError (_id o)
    (Js.to_str (billingInfo o ≫= firstName) +:+ " " +:+
     Js.to_str (billingInfo o ≫= lastName))
    (buyerInfo_id o) "N/A" "UNKNOWN" "N/A" "CMS_RETRIEVAL_FAILED"
    "Failed to retrieve pending registrations from CMS" t.

(** [loadRegistrationQueue(order)] *)
Definition loadRegistrationQueue (o : order)
  : M world (list registration * dataSource) :=
  (* STEP 1: Try session storage first *)
  regQueue ← getRegQueue;
  if (0 <? length regQueue)%nat then mret (regQueue, FromSession)
  else
    (* STEP 2: Try CMS fallback *)
    found ← tryCatch (cmsFallback o)
              (fun error =>
                 t ← dateNow;
                 _ ← insertSyncError (retrievalFailed o t);
                 mret None);
    match found with
    | Some r => mret r
    | None => mret ([], FromNone)
    end.

(** The [filter] predicate of [cleanupSession]: [r] is not among the
    matched registrations. *)
Definition stillPending (matched : list (registration * lineItem))
    (r : registration) : bool :=
  negb (existsb (fun m => sameIdentity r m.1) matched).

(** [cleanupSession(regQueue, matched, dataSource, order)] *)
Definition cleanupSession (regQueue : list registration)
    (matched : list (registration * lineItem)) (source : dataSource)
    (o : order) : M world unit :=
  let remaining := List.filter (stillPending matched) regQueue in
  _ ← setRegQueue remaining;
  match source with
  | FromCms =>
      tryCatch
        (let buyerId := Js.or_opt (buyerInfo_id o) (enteredBy_id o) in
         if Js.truthy buyerId then
           t ← dateNow;
           let twoHoursAgo := (t - twoHours)%Z in
           items ← queryPending buyerId "processing" twoHoursAgo (Some 1%nat);
           match items with
           | pendingReg :: _ =>
               updatePendingStatus (pending_id pendingReg) "completed"
           | [] => mret tt
           end
         else mret tt)
        (fun _ => (* Non-critical - continue *) mret tt)
  | FromSession | FromNone => mret tt
  end.

(** [lineItem.totalPrice ?? ((lineItem.price || 0) * (lineItem.quantity || 1))] *)
Definition paidAmount (l : lineItem) : Z :=
  Js.nullish (totalPrice l)
    (Js.or_num (price l) 0 * Js.or_num (quantity l) 1)%Z.

Definition withFee (reg : registration) (amount : Z) : registration :=
  Registration (playerId reg) (playerName reg) (seasonName reg) (sport reg)
               (division reg) amount.

(** [matched.map(({ reg, lineItem }) => ({ ...reg, fee: paidAmount,
    paid: true, orderId, datePaid: new Date() }))] *)
Definition registrationsToSave (matched : list (registration * lineItem))
    (orderId : string) (t : Z) : list paidRegistration :=
  (fun m => PaidRegistration (withFee m.1 (paidAmount m.2)) true orderId t)
    <$> matched.

(** What [$w('#thankYouPage1')] and its [getOrder()] give the handler. *)
Inductive thankYouPage :=
| NoElement
| GetOrderFails (error : string)
| GetOrder (o : option order).

(** Which way the handler left: the handler itself returns nothing, the
    tag records the [return] or [catch] it ended in. *)
Inductive exit :=
| ExitNoElement
| ExitNoOrder
| ExitAlreadyProcessed
| ExitLockBusy
| ExitNoData
| ExitNoMatch
| ExitDone
| ExitError (error : string).

(** The inner [try] block of the handler, entered with the lock held. *)
Definition processOrder (o : order) (orderId : string) : M world exit :=
  (* Process donations first *)
  _ ← processDonations o;
  (* Load registration queue *)
  loaded ← loadRegistrationQueue o;
  let '(regQueue, source) := loaded in
  (* Check for missing registration data (CRITICAL) *)
  if (length regQueue =? 0)%nat then
    _ ← handleNoRegistrationData o;
    mret ExitNoData
  else
    (* Match registrations to line items *)
    let '(matched, unmatched) :=
      Matching.matchRegistrationsToLineItems regQueue
        (Js.nullish (lineItems o) []) in
    if (length matched =? 0)%nat then mret ExitNoMatch
    else
      t ← dateNow;
      batchResult ← batchSaveRegistrations
                      (registrationsToSave matched orderId t) orderId;
      (* Clean up session *)
      _ ← cleanupSession regQueue matched source o;
      (* Mark order as processed and release lock *)
      _ ← markOrderProcessed orderId;
      mret ExitDone.

(** The body of the outer [try] of the handler. *)
Definition reconcile (page : thankYouPage) : M world exit :=
  match page with
  | NoElement => mret ExitNoElement
  | GetOrderFails e => throw e
  | GetOrder None => mret ExitNoOrder
  | GetOrder (Some o) =>
      match _id o with
      | None | Some "" => mret ExitNoOrder
      | Some orderId =>
          (* Check if already processed *)
          done ← isOrderProcessed orderId;
          if (done : bool) then mret ExitAlreadyProcessed
          else
            (* Acquire processing lock *)
            locked ← acquireProcessingLock orderId;
            if negb locked then mret ExitLockBusy
            else
              tryCatch (processOrder o orderId)
                (fun error =>
                   (* Release lock on error *)
                   _ ← releaseProcessingLock orderId;
                   throw error)
      end
  end.

(** [$w.onReady(async () => { ... })]: the outer [catch] only logs, so the
    handler never throws. *)
Definition onReady (page : thankYouPage) (w : world) : exit * world :=
  match reconcile page w with
  | (Ok x, w') => (x, w')
  | (Throw e, w') => (ExitError e, w')
  end.

End ThankYou.

(** ** NewSeasonRegRefactored.js: submitting a registration *)

Module NewSeasonReg.
Import SessionManager.

(** What the form and the backend modules give one click of the Register
    button. *)
Record form := Form {
  isFormValid : bool;
  divisionClosed : bool;
  collectFormData : result registration;
  sanitizeRegistration : registration -> registration;
  validateRegistration : registration -> option string;
  noteFee : option Z
}.

(** The page: the site behind it and what it shows. *)
Record page := Page {
  site : world;
  newSeasonRegistrationPage : list registration;
  textError : option string;
  textSuccess : option string;
  registerEnabled : bool;
  navigatedTo : option string
}.

Definition with_site (x : world) (p : page) : page :=
  Page x (newSeasonRegistrationPage p) (textError p) (textSuccess p)
       (registerEnabled p) (navigatedTo p).
Definition with_backups (x : list registration) (p : page) : page :=
  Page (site p) x (textError p) (textSuccess p) (registerEnabled p)
       (navigatedTo p).
Definition with_textError (x : option string) (p : page) : page :=
  Page (site p) (newSeasonRegistrationPage p) x (textSuccess p)
       (registerEnabled p) (navigatedTo p).
Definition with_textSuccess (x : option string) (p : page) : page :=
  Page (site p) (newSeasonRegistrationPage p) (textError p) x
       (registerEnabled p) (navigatedTo p).
Definition with_registerEnabled (x : bool) (p : page) : page :=
  Page (site p) (newSeasonRegistrationPage p) (textError p) (textSuccess p)
       x (navigatedTo p).
Definition with_navigatedTo (x : option string) (p : page) : page :=
  Page (site p) (newSeasonRegistrationPage p) (textError p) (textSuccess p)
       (registerEnabled p) x.

(** A computation on the site, run from the page. *)
Definition onSite {A} (c : M world A) : M page A := fun p =>
  match c (site p) with
  | (r, w) => (r, with_site w p)
  end.

Definition safeShowError (text : string) : M page unit :=
  modify (with_textError (Some text)).
Definition safeHideError : M page unit := modify (with_textError None).
Definition enableRegister : M page unit := modify (with_registerEnabled true).
Definition disableRegister : M page unit :=
  modify (with_registerEnabled false).

(** [retry(fn, options)]: the single attempt of the fallback,
    [retry = async (fn) => await fn()]. *)
Definition retry {S A} (fn : M S A) : M S A := fn.

(** [saveRegistrationBackup(registration)]: the insert into the backup
    collection; noting the new item's id in the session
    ([setLastRegBackupId]) is left out. *)
Definition saveRegistrationBackup (registration : registration)
  : M page unit :=
  retry
    (r ← onSite nextReply;
     match r with
     | Raise e => throw e
     | Done | Soft _ =>
         modify (fun p =>
           with_backups (newSeasonRegistrationPage p ++ [registration]) p)
     end).

Record duplicateCheck := DuplicateCheck {
  isDuplicate : bool;
  message : string
}.

(** [wixData.query(COLLECTIONS.REGISTRATION).eq('player', playerId)
    .eq('seasonName', seasonName).eq('sport', sport).find()] *)
Definition queryRegistered (reg : registration)
  : M world (list paidRegistration) :=
  WixData.external
    (gets (fun w => List.filter (fun s => sameIdentity reg (paid_reg s))
                                (SeasonRegistration w))).

(** [checkForDuplicates(playerId, seasonName, sport)] *)
Definition checkForDuplicates (reg : registration) : M world duplicateCheck :=
  inCms ← tryCatch
            (existing ← queryRegistered reg;
             mret (0 <? length existing)%nat)
            (fun _ => mret false);
  if (inCms : bool) then
    mret (DuplicateCheck true
            "Player already registered for this season and sport in our records.")
  else
    (* Check session queue *)
    inQueue ← isDuplicateInQueue reg;
    if (inQueue : bool) then
      mret (DuplicateCheck true
              "Player already has a pending registration for this season and sport.")
    else mret (DuplicateCheck false "").

(** [fetchFee(division)]: the fee of the division note, [0] when the note
    cannot be had. *)
Definition fetchFee (f : form) : M world Z :=
  tryCatch
    (r ← retry nextReply;
     match r with
     | Raise e => throw e
     | Soft _ => mret 0%Z
     | Done => mret (Js.or_num (noteFee f) 0)
     end)
    (fun _ => mret 0%Z).

Definition CHECKOUT : string := "/registration-checkout".

(** The [try] block of [handleRegisterClick]. *)
Definition submit (f : form) : M page unit :=
  if negb (isFormValid f) then
    _ ← safeShowError "Please complete all required fields.";
    enableRegister
  else if divisionClosed f then
    _ ← safeShowError "Registration for this division is currently closed.";
    enableRegister
  else
    registration ← (fun p => (collectFormData f, p));
    (* Sanitize and validate *)
    let sanitized := sanitizeRegistration f registration in
    _ ← match validateRegistration f sanitized with
        | Some e => throw e
        | None => mret tt
        end;
    (* Save backup to CMS (with retry) *)
    _ ← tryCatch (saveRegistrationBackup sanitized)
          (fun _ =>
             _ ← safeShowError
                   "Warning: Backup save failed. Please contact support if issues occur. Continuing...";
             safeHideError);
    (* Re-check for duplicates *)
    duplicateCheck ← onSite (checkForDuplicates sanitized);
    if isDuplicate duplicateCheck then
      _ ← safeShowError (message duplicateCheck);
      enableRegister
    else
      (* Fetch fee *)
      fee ← onSite (fetchFee f);
      (* Add to queue *)
      let itemToQueue := ThankYou.withFee sanitized fee in
      _ ← onSite (addToRegQueue itemToQueue);
      _ ← modify (with_textSuccess
                    (Some "Success! Taking you to registration summary..."));
      (* Navigate to checkout: the route is recorded, the query string of
         the URL (player, sport, division, amount) is not *)
      modify (with_navigatedTo (Some CHECKOUT)).

(** [handleRegisterClick()]; the handler catches everything. *)
Definition handleRegisterClick (f : form) : M page unit :=
  _ ← disableRegister;
  tryCatch (submit f)
    (fun error =>
       _ ← safeShowError (if String.eqb error "" then
                            "An error occurred. Please try again."
                          else error);
       enableRegister).

End NewSeasonReg.

(** ** retryUtils.jsw: the circuit breaker *)

Module CircuitBreaker.

(** Modelled from the spec: the breaker of retryUtils.jsw, one per named
    dependency, with its state, its two counters and [nextAttemptTime]. *)
Inductive state := CLOSED | OPEN | HALF_OPEN.

Record breaker := Breaker {
  state_of : state;
  failureCount : nat;
  successCount : nat;
  nextAttemptTime : option Z
}.

(** Modelled from the spec: the fixed failure threshold (5) and the fixed
    cooldown (60 s, in milliseconds) of retryUtils.jsw. *)
Definition failureThreshold : nat := 5.
Definition cooldown : Z := 60000.

(** Modelled from the spec: [getCircuitBreaker(name)] of retryUtils.jsw
    creates a breaker lazily, CLOSED with zeroed counters. *)
Definition fresh : breaker := Breaker CLOSED 0 0 None.

Definition elapsed (t : Z) (b : breaker) : bool :=
  match nextAttemptTime b with
  | Some u => (u <=? t)%Z
  | None => true
  end.

(** Modelled from the spec: the entry of [CircuitBreaker.execute] of
    retryUtils.jsw.  In CLOSED the operation passes through; in OPEN the
    call fails fast until [nextAttemptTime] has elapsed, and then moves the
    breaker to HALF_OPEN for one trial call; while that trial is under way
    no other call passes. *)
Definition enter (t : Z) (b : breaker) : option breaker :=
  match state_of b with
  | CLOSED => Some b
  | OPEN =>
      if elapsed t b
      then Some (Breaker HALF_OPEN (failureCount b) (successCount b)
                         (nextAttemptTime b))
      else None
  | HALF_OPEN => None
  end.

(** Modelled from the spec: a success of the trial call closes the breaker
    and resets the counters; a success in CLOSED leaves it as it is. *)
Definition onSuccess (b : breaker) : breaker :=
  match state_of b with
  | HALF_OPEN => Breaker CLOSED 0 0 None
  | CLOSED | OPEN => b
  end.

(** Modelled from the spec: each failure in CLOSED increments
    [failureCount], and reaching the threshold opens the breaker with
    [nextAttemptTime = now + cooldown]; a failure of the trial call returns
    the breaker to OPEN with the cooldown reset. *)
Definition onFailure (t : Z) (b : breaker) : breaker :=
  match state_of b with
  | HALF_OPEN =>
      Breaker OPEN (failureCount b) 0 (Some (t + cooldown)%Z)
  | CLOSED | OPEN =>
      let n := S (failureCount b) in
      if (failureThreshold <=? n)%nat
      then Breaker OPEN n (successCount b) (Some (t + cooldown)%Z)
      else Breaker CLOSED n (successCount b) (nextAttemptTime b)
  end.

Definition CircuitOpen : string := "CircuitOpen".

(** Modelled from the spec: [CircuitBreaker.execute(operation)] of
    retryUtils.jsw, called at time [t] on the state [s] the operation works
    on. *)
Definition execute {S A} (t : Z) (operation : M S A) (b : breaker) (s : S)
  : result A * S * breaker :=
  match enter t b with
  | None => (Throw CircuitOpen, s, b)
  | Some trial =>
      match operation s with
      | (Ok a, s') => (Ok a, s', onSuccess trial)
      | (Throw e, s') => (Throw e, s', onFailure t trial)
      end
  end.

(** A run of calls on one breaker: each call comes with its time and its
    operation; the replies are collected in call order. *)
Fixpoint executeAll {S A} (calls : list (Z * M S A)) (b : breaker) (s : S)
  : list (result A) * S * breaker :=
  match calls with
  | [] => ([], s, b)
  | (t, operation) :: rest =>
      match execute t operation b s with
      | (r, s', b') =>
          match executeAll rest b' s' with
          | (rs, s'', b'') => (r :: rs, s'', b'')
          end
      end
  end.

End CircuitBreaker.

(** ** The matching algorithm in the words of the specification

    Line items are expanded into slots in source order; each intent, in
    intent-list order, is bound to the first unused slot whose descriptor
    contains its division label; an intent with no such slot is unmatched.
    [units] says how many slots a line item expands to. *)

Module MatchingSpec.

Definition expand (units : lineItem -> nat) (lineItems : list lineItem)
  : list lineItem :=
  lineItems ≫= fun l => replicate (units l) l.

(** One slot per unit of quantity, as stated. *)
Definition unitsStated (l : lineItem) : nat :=
  Z.to_nat (default 0%Z (quantity l)).

(** One slot per unit of quantity, a missing or zero quantity counting
    as one. *)
Definition unitsOrOne (l : lineItem) : nat :=
  Z.to_nat (Js.or_num (quantity l) 1).

Definition contains (s sub : string) : Prop :=
  exists pre post, s = pre +:+ sub +:+ post.

Definition qualifies (slots : list lineItem) (used : gset nat)
    (r : registration) (i : nat) : Prop :=
  (i ∉ used) /\
  exists l d, slots !! i = Some l /\ name l = Some d /\
              contains d (division r).

Definition firstQualifying (slots : list lineItem) (used : gset nat)
    (r : registration) (i : nat) : Prop :=
  qualifies slots used r i /\
  forall j, j < i -> ~ qualifies slots used r j.

(** [greedy slots used intents bound unmatched]: starting with the slots of
    [used] taken, the intents are bound as [bound] lists them (intent and
    slot position), and [unmatched] are the intents left over. *)
Inductive greedy (slots : list lineItem)
  : gset nat -> list registration -> list (registration * nat) ->
    list registration -> Prop :=
| greedy_done used :
    greedy slots used [] [] []
| greedy_bind used r rs i bound unmatched :
    firstQualifying slots used r i ->
    greedy slots ({[i]} ∪ used) rs bound unmatched ->
    greedy slots used (r :: rs) ((r, i) :: bound) unmatched
| greedy_skip used r rs bound unmatched :
    (forall i, ~ qualifies slots used r i) ->
    greedy slots used rs bound unmatched ->
    greedy slots used (r :: rs) bound (r :: unmatched).

(** The matched list names, for each bound pair, the intent and the line
    item of the slot it is bound to. *)
Definition names (slots : list lineItem)
    (bound : list (registration * nat))
    (matched : list (registration * lineItem)) : Prop :=
  Forall2 (fun b m => m.1 = b.1 /\ slots !! b.2 = Some m.2) bound matched.

(** How the slot array of the code stands for the slots and the used set
    of the specification. *)
Definition represents (cs : list Matching.slot) (slots : list lineItem)
    (taken : gset nat) : Prop :=
  Matching.li <$> cs = slots /\
  forall i s, cs !! i = Some s -> (Matching.used s = true <-> i ∈ taken).



End MatchingSpec.

(** ** What a computation leaves alone *)

Module Frame.

(** [stable f c]: running [c] does not change the reading [f] of the
    world, whether [c] returns or throws. *)
Definition stable {X A} (f : world -> X) (c : M world A) : Prop :=
  forall w, f (c w).2 = f w.

(** The lock table, the processed-order markers, the authoritative store
    and the data-loss reports. *)
Definition ledger (w : world)
  : gset string * gset string * list paidRegistration * list order :=
  (locks w, processedOrders w, SeasonRegistration w, dataLossReports w).

End Frame.

(** ** Backup recovery, in the words of the specification *)

Module Recovery.

(** The order's buyer: [order.buyerInfo?.id || order.enteredBy?.id]. *)
Definition buyerOf (o : order) : option string :=
  Js.or_opt (buyerInfo_id o) (enteredBy_id o).

Definition threeHours : Z := 3 * 60 * 60 * 1000.

(** A backup record of the order's buyer, pending, created within the
    last two hours. *)
Definition eligible (o : order) (w : world) (p : pendingRegistration)
  : Prop :=
  p ∈ PendingRegistrations w /\ Some (userId p) = buyerOf o /\
  status p = "pending" /\ (now w - ThankYou.twoHours <= createdAt p)%Z.

(** The records recovery considers, most recent first. *)
Definition candidates (o : order) (w : world) : list pendingRegistration :=
  WixData.selectPending (buyerOf o) "pending" (now w - ThankYou.twoHours)
    None (PendingRegistrations w).

(** The order has produced no record in the authoritative store. *)
Definition unrecorded (o : order) (w : world) : Prop :=
  Forall (fun r => Some (paid_orderId r) <> _id o) (SeasonRegistration w).

(** No external call of the script throws. *)
Definition calm (rs : list reply) : Prop :=
  Forall (fun r => forall e, r <> Raise e) rs.

(** The collections and the clock. *)
Definition stores (w : world)
  : list pendingRegistration * list paidRegistration * Z :=
  (PendingRegistrations w, SeasonRegistration w, now w).

End Recovery.

(** ** The intent queue, in the words of the specification *)

Module QueueSpec.

(** The identity of an intent: player, season and sport. *)
Definition identity (r : registration) : string * string * string :=
  (playerId r, seasonName r, sport r).

(** No two intents of the queue have the same identity. *)
Definition duplicateFree (queue : list registration) : Prop :=
  NoDup (identity <$> queue).

(** The session queue behind a page. *)
Definition queueOf (p : NewSeasonReg.page) : list registration :=
  SessionManager.parseQueue (regQueueItem (NewSeasonReg.site p)).

Definition inRecords : string :=
  "Player already registered for this season and sport in our records.".

Definition inQueue : string :=
  "Player already has a pending registration for this season and sport.".

(** The click gets as far as the duplicate check with [reg], the sanitised
    registration. *)
Definition submits (f : NewSeasonReg.form) (reg : registration) : Prop :=
  NewSeasonReg.isFormValid f = true /\
  NewSeasonReg.divisionClosed f = false /\
  (exists raw, NewSeasonReg.collectFormData f = Ok raw /\
               reg = NewSeasonReg.sanitizeRegistration f raw) /\
  NewSeasonReg.validateRegistration f reg = None.

End QueueSpec.

(** ** The circuit breaker, in the words of the specification *)

Module BreakerSpec.

(** The operation fails whenever it is invoked. *)
Definition fails {S A} (operation : M S A) : Prop :=
  forall s, exists e s', operation s = (Throw e, s').

(** An operation that counts its invocations and fails. *)
Definition down : M nat unit := fun n => (Throw "Airtable down", S n).

End BreakerSpec.

(** ** Sample data *)

Module Examples.

Definition majors : registration :=
  Registration "player-1" "Ann Lee" "2026.1" "Baseball" "Majors" 0.

Definition majors2 : registration :=
  Registration "player-2" "Ben Lee" "2026.1" "Baseball" "Majors" 0.

(** [{ name: "Baseball Majors - 2026.1", quantity: 1, price: 150 }] *)
Definition oneMajors : lineItem :=
  LineItem (Some "5d799042-713c-408f-b744-2be1effcc8d5")
           (Some "Baseball Majors - 2026.1") (Some 1%Z) (Some 150%Z) None.


Definition zeroQuantity : lineItem :=
  LineItem (Some "5d799042-713c-408f-b744-2be1effcc8d5")
           (Some "Baseball Majors - 2026.1") (Some 0%Z) (Some 150%Z) None.

Definition minors : registration :=
  Registration "player-3" "Cal Roe" "2026.1" "Softball" "Minors" 0.

(** The $10 donation product. *)
Definition donation : lineItem :=
  LineItem (Some "c8faba52-947c-4c0e-ae02-58406cfe5202")
           (Some "Donation $10") (Some 1%Z) (Some 10%Z) None.

Definition annLee : billing :=
  Billing (Some "Ann") (Some "Lee") (Some "ann@example.org").

(** A paid order for one Majors registration. *)
Definition paidOrder : order :=
  Order (Some "order-1") (Some "10001") (Some [oneMajors]) (Some annLee)
        (Some "buyer-1") None.

(** The same order with a donation added. *)
Definition donationOrder : order :=
  Order (Some "order-1") (Some "10001") (Some [oneMajors; donation])
        (Some annLee) (Some "buyer-1") None.

Definition noon : Z := 1767268800000.
Definition hour : Z := 3600000.
Definition threeHoursAgo : Z := 3 * hour.

(** A site with nothing stored, at noon, where every external call
    answers as [replies] says. *)
Definition site (queue : stored) (pending : list pendingRegistration)
    (replies : list reply) : world :=
  World queue ∅ ∅ false pending [] [] [] [] [] noon replies.

(** The buyer's backup record, created [age] before noon. *)
Definition backup (id : string) (age : Z) (st : string)
    (regs : stored) : pendingRegistration :=
  PendingRegistration id "buyer-1" st (noon - age) regs.

(** The registration page in front of a session holding [queue]. *)
Definition registrationPage (queue : list registration) : NewSeasonReg.page :=
  NewSeasonReg.Page (site (Json queue) [] []) [] None None true None.

(** A click that submits [reg] from a complete form, with the fallback
    sanitiser and validator. *)
Definition click (reg : registration) : NewSeasonReg.form :=
  NewSeasonReg.Form true false (Ok reg) (fun r => r) (fun _ => None)
                    (Some 150%Z).

End Examples.

(** ** Recovery as the specification words it *)

Module RecoverySpec.

(** The selection of the specification's [claimForRecovery], as worded:
    every backup record is associated with an order ([orderOf]), and the
    first candidate whose own order has produced no record in the
    authoritative store is selected. *)
Definition selected (orderOf : pendingRegistration -> option string)
    (o : order) (w : world) : option pendingRegistration :=
  head (filter
          (fun p => length (WixData.selectSeason (orderOf p)
                              (SeasonRegistration w)) = 0)
          (Recovery.candidates o w)).

End RecoverySpec.

(** ** Fault scripts *)

Module Faults.

Definition throws (r : reply) : bool :=
  match r with
  | Raise _ => true
  | Done | Soft _ => false
  end.

(** No two external calls in a row throw. *)
Fixpoint noDoubleFault (rs : list reply) : bool :=
  match rs with
  | r1 :: tl =>
      match tl with
      | r2 :: _ => negb (throws r1 && throws r2) && noDoubleFault tl
      | [] => true
      end
  | [] => true
  end.

End Faults.

(** ** public/constants.js *)

Module Constants.

(** [DIVISIONS] *)
Definition BASEBALL_PEEWEE_4_5 : string := "Baseball PeeWee 4/5".
Definition BASEBALL_PEEWEE_6 : string := "Baseball PeeWee 6".
Definition BASEBALL_COACH_PITCH : string := "Baseball Coach Pitch".
Definition BASEBALL_LOWER_MINORS : string := "Baseball Lower Minors".
Definition BASEBALL_UPPER_MINORS : string := "Baseball Upper Minors".
Definition BASEBALL_MAJORS : string := "Baseball Majors".
Definition BASEBALL_13U : string := "Baseball 13U Intermediate".
Definition BASEBALL_14U : string := "Baseball 14U Junior".
Definition BASEBALL_15U : string := "Baseball 15U Senior".
Definition SOFTBALL_DAISY : string := "Softball Daisy League".
Definition SOFTBALL_COACH_PITCH : string := "Softball Coach Pitch".
Definition SOFTBALL_MINORS : string := "Softball Minors".
Definition SOFTBALL_MAJORS : string := "Softball Majors".

(** [SPORTS] *)
Definition BASEBALL : string := "Baseball".
Definition SOFTBALL : string := "Softball".

(** [SEASON.SUFFIX_SPRING] and [SEASON.SUFFIX_FALL] *)
Definition SUFFIX_SPRING : string := ".1".
Definition SUFFIX_FALL : string := ".2".

(** [ROUTES] *)
Definition REGISTRATION : string := "/registrationplayer".
Definition CART : string := "/cart-page".

(** [PRODUCT_MAP]: division strings to product ids. *)
Definition PRODUCT_LIST : list (string * string) :=
  [("Baseball PeeWee 4/5 - 2026.1", "cb99e32f-dfe8-4ac6-bc91-e284cd28052b");
   ("Baseball PeeWee 6 - 2026.1", "3dbd979b-3e1c-4484-bfa6-5a28edad1119");
   ("Baseball Coach Pitch - 2026.1", "b04c9c65-b8bb-4fcb-bac6-452042405041");
   ("Baseball Lower Minors - 2026.1", "118a78b8-6993-4807-8df3-8032b757fce0");
   ("Baseball Upper Minors - 2026.1", "b2ab369d-9c79-4d32-b01e-58af694a5b18");
   ("Baseball Majors - 2026.1", "5d799042-713c-408f-b744-2be1effcc8d5");
   ("Baseball 13U Intermediate - 2026.1", "b0321246-32d6-4619-a472-92030ef5d063");
   ("Baseball 14U Junior - 2026.1", "a520c83e-cb40-4987-b448-09563f963010");
   ("Baseball 15U Senior - 2026.1", "992595c0-269c-4ea1-9eb2-80c61308447b");
   ("Softball Majors - 2026.1", "ac9051d6-5da6-4887-a650-0f5f196a92b9");
   ("Softball Minors - 2026.1", "9275d7d7-2810-4ef5-ba64-35a0cd109797");
   ("Softball Coach Pitch - 2026.1", "d14e677f-78d8-4cd3-9d3f-13a880a6bdac");
   ("Softball Daisy League - 2026.1", "5abbb0c6-dc69-4ada-9600-5c47d063c33e");
   ("Majors", "5abbb0c6-dc69-4ada-9600-5c47d063c33e")].

Definition PRODUCT_MAP : gmap string string := list_to_map PRODUCT_LIST.

End Constants.

(** ** NewSeasonRegRefactored.js: the division of a player *)

Module Division.
Import Constants.

(** [` - ${year}${suffix}`] with [suffix] the fall or the spring suffix. *)
Definition seasonTag (year : string) (isFall : bool) : string :=
  " - " +:+ (year +:+ (if isFall then SUFFIX_FALL else SUFFIX_SPRING)).

(** The divisions of [DIVISIONS], by sport. *)
Definition baseball : list string :=
  [BASEBALL_PEEWEE_4_5; BASEBALL_PEEWEE_6; BASEBALL_COACH_PITCH;
   BASEBALL_LOWER_MINORS; BASEBALL_UPPER_MINORS; BASEBALL_MAJORS;
   BASEBALL_13U; BASEBALL_14U; BASEBALL_15U].

Definition softball : list string :=
  [SOFTBALL_DAISY; SOFTBALL_COACH_PITCH; SOFTBALL_MINORS; SOFTBALL_MAJORS].

(** The "Determine division" table of [calculateDivision]: the division of
    a player of the given (whole-number) age in the given sport. *)
Definition divisionOf (sportOk : string) (age : Z) (seasonTag : string)
  : string :=
  if String.eqb sportOk BASEBALL then
    if (15 <=? age)%Z then BASEBALL_15U +:+ seasonTag
    else if (age =? 14)%Z then BASEBALL_14U +:+ seasonTag
    else if (age =? 13)%Z then BASEBALL_13U +:+ seasonTag
    else if (11 <=? age)%Z && (age <=? 12)%Z then BASEBALL_MAJORS +:+ seasonTag
    else if (age =? 10)%Z then BASEBALL_UPPER_MINORS +:+ seasonTag
    else if (age =? 9)%Z then BASEBALL_LOWER_MINORS +:+ seasonTag
    else if (7 <=? age)%Z && (age <=? 8)%Z
         then BASEBALL_COACH_PITCH +:+ seasonTag
    else if (age =? 6)%Z then BASEBALL_PEEWEE_6 +:+ seasonTag
    else if (4 <=? age)%Z && (age <=? 5)%Z
         then BASEBALL_PEEWEE_4_5 +:+ seasonTag
    else "Unknown"
  else if String.eqb sportOk SOFTBALL then
    if (11 <=? age)%Z && (age <=? 12)%Z then SOFTBALL_MAJORS +:+ seasonTag
    else if (9 <=? age)%Z && (age <=? 10)%Z then SOFTBALL_MINORS +:+ seasonTag
    else if (7 <=? age)%Z && (age <=? 8)%Z
         then SOFTBALL_COACH_PITCH +:+ seasonTag
    else if (6 <=? age)%Z && (age <=? 7)%Z then SOFTBALL_DAISY +:+ seasonTag
    else "No division available"
  else "Unknown".

(** [stripped d k]: what is left of [k] after its prefix [d], if [d] is a
    prefix of [k]. *)
Fixpoint stripped (d k : string) : option string :=
  match d with
  | EmptyString => Some k
  | String c d' =>
      match k with
      | String c' k' => if Ascii.eqb c c' then stripped d' k' else None
      | EmptyString => None
      end
  end.

End Division.

(** ** The get_product HTTP function (backend/http-functions.js) *)

Module GetProduct.

Record variant := Variant {
  variant__id : option string;
  variant_id : option string
}.

Record product := Product {
  product__id : option string;
  product_id : option string;
  product_name : option string;
  manageVariants : bool;
  variants : option (list variant)
}.

(** [products.getProduct(x)] of the store: it rejects, or resolves to
    [{ product }] where [product] may be missing.  The argument is a product
    id, or ([None]) a value that is not a string. *)
Definition store : Type := option string -> result (option product).

(** The JSON body of an [ok] response. *)
Record found := Found {
  found_productId : option string;
  found_variantId : option string;
  found_productName : option string
}.

Inductive response :=
| ok (body : found)
| badRequest (body : string)
| badRequestJson (error : string) (details : option string).

(** The names every JavaScript object inherits from [Object.prototype]; a
    lookup [map[name]] of one of them finds the inherited value, which is
    truthy and not a string. *)
Definition inheritedNames : list string :=
  ["constructor"; "__defineGetter__"; "__defineSetter__"; "hasOwnProperty";
   "__lookupGetter__"; "__lookupSetter__"; "isPrototypeOf";
   "propertyIsEnumerable"; "toString"; "valueOf"; "__proto__";
   "toLocaleString"].

Inductive looked :=
| Own (value : string)
| Inherited
| Undefined.

(** [map[key]] on an object literal with string values. *)
Definition lookup (map : gmap string string) (key : string) : looked :=
  match map !! key with
  | Some v => Own v
  | None => if bool_decide (key ∈ inheritedNames) then Inherited else Undefined
  end.

(** [product.manageVariants && product.variants?.length > 0] selects
    [product.variants[0]._id || product.variants[0].id]. *)
Definition variantIdOf (p : product) : option string :=
  if manageVariants p then
    match variants p with
    | Some (v :: _) => Js.or_opt (variant__id v) (variant_id v)
    | Some [] | None => None
    end
  else None.

Definition bodyOf (p : product) : found :=
  Found (Js.or_opt (product__id p) (product_id p)) (variantIdOf p)
        (product_name p).

(** The part of the function after the division is looked up: fetch the
    product and answer. *)
Definition answer (getProduct : store) (productId : option string)
  : response :=
  match getProduct productId with
  | Throw e =>
      badRequestJson "Failed to retrieve product" (Some e)
  | Ok None => badRequest "Product not found in store"
  | Ok (Some p) => ok (bodyOf p)
  end.

(** [get_get_product(request)], with [division] what
    [url.searchParams.get('division')] gives ([None] for [null]). *)
Definition get_get_product (getProduct : store) (division : option string)
  : response :=
  match division with
  | None | Some "" => badRequest "Missing division parameter"
  | Some d =>
      if (100 <? String.length d)%nat then badRequest "Invalid division format"
      else
        match lookup Constants.PRODUCT_MAP d with
        | Undefined | Own "" =>
            badRequest ("No product found for division: " +:+ d)
        | Own productId => answer getProduct (Some productId)
        | Inherited => answer getProduct None
        end
  end.

End GetProduct.

(** ** The get_product HTTP function with its own division table *)

Module GetProductInline.
Import GetProduct.

(** [DIVISION_TO_PRODUCT], written out in the function's file. *)
Definition DIVISION_LIST : list (string * string) :=
  [("Baseball PeeWee 4/5 - 2026.1", "cb99e32f-dfe8-4ac6-bc91-e284cd28052b");
   ("Baseball PeeWee 6 - 2026.1", "3dbd979b-3e1c-4484-bfa6-5a28edad1119");
   ("Baseball Coach Pitch - 2026.1", "b04c9c65-b8bb-4fcb-bac6-452042405041");
   ("Baseball Lower Minors - 2026.1", "118a78b8-6993-4807-8df3-8032b757fce0");
   ("Baseball Upper Minors - 2026.1", "b2ab369d-9c79-4d32-b01e-58af694a5b18");
   ("Baseball Majors - 2026.1", "5d799042-713c-408f-b744-2be1effcc8d5");
   ("Baseball 13U Intermediate - 2026.1", "b0321246-32d6-4619-a472-92030ef5d063");
   ("Baseball 14U Junior - 2026.1", "a520c83e-cb40-4987-b448-09563f963010");
   ("Softball Majors - 2026.1", "ac9051d6-5da6-4887-a650-0f5f196a92b9");
   ("Softball Minors - 2026.1", "9275d7d7-2810-4ef5-ba64-35a0cd109797");
   ("Softball Coach Pitch - 2026.1", "d14e677f-78d8-4cd3-9d3f-13a880a6bdac");
   ("Softball Daisy League - 2026.1", "5abbb0c6-dc69-4ada-9600-5c47d063c33e");
   ("Majors", "5abbb0c6-dc69-4ada-9600-5c47d063c33e")].

Definition DIVISION_TO_PRODUCT : gmap string string :=
  list_to_map DIVISION_LIST.

(** The message of the [TypeError] that reading [product._id] raises when
    [product] is [undefined]. *)
Definition readOfUndefined : string :=
  "Cannot read properties of undefined (reading '_id')".

(** This version reads [product._id] without testing [product], and its
    [catch] answers [{ error: error.message }]. *)
Definition answer (getProduct : store) (productId : option string)
  : response :=
  match getProduct productId with
  | Throw e => badRequestJson e None
  | Ok None => badRequestJson readOfUndefined None
  | Ok (Some p) => ok (bodyOf p)
  end.

Definition get_get_product (getProduct : store) (division : option string)
  : response :=
  match division with
  | None | Some "" => badRequest "Missing division parameter"
  | Some d =>
      match lookup DIVISION_TO_PRODUCT d with
      | Undefined | Own "" =>
          badRequest ("No product found for division: " +:+ d)
      | Own productId => answer getProduct (Some productId)
      | Inherited => answer getProduct None
      end
  end.

End GetProductInline.

(** ** Registration checkout page *)

Module Checkout.
Import SessionManager.

(** [wixLocation.query] *)
Record query := Query {
  query_division : option string;
  query_player : option string
}.

(** An element of the argument of [cart.addProducts]:
    [{ productId, quantity, options: { variantId } }]. *)
Record cartItem := CartItem {
  cart_productId : string;
  cart_quantity : Z;
  cart_variantId : option string
}.

(** The page: the site behind it, the URL query, the current user, the
    store behind the product endpoint, the [_id] the data API gives the next
    inserted item, the cart, and what the page shows (a text element is
    [Some] of its text while shown, the repeater [Some] of its data while
    shown; of the subtotal the amount is kept, not its rendering). *)
Record page := Page {
  site : world;
  location : query;
  loggedIn : bool;
  currentUserId : string;
  getProduct : GetProduct.store;
  newItemId : string;
  cart : list cartItem;
  textPendingCount : string;
  cartSubtotal : option Z;
  repeaterCartPlayers : option (list (string * registration));
  textError : option string;
  textStatus : option string;
  textDuplicateWarning : option string;
  lightboxOpened : bool;
  navigatedTo : option string
}.

Definition with_site (x : world) (p : page) : page :=
  Page x (location p) (loggedIn p) (currentUserId p) (getProduct p)
    (newItemId p) (cart p) (textPendingCount p) (cartSubtotal p)
    (repeaterCartPlayers p) (textError p) (textStatus p)
    (textDuplicateWarning p) (lightboxOpened p) (navigatedTo p).
Definition with_cart (x : list cartItem) (p : page) : page :=
  Page (site p) (location p) (loggedIn p) (currentUserId p) (getProduct p)
    (newItemId p) x (textPendingCount p) (cartSubtotal p)
    (repeaterCartPlayers p) (textError p) (textStatus p)
    (textDuplicateWarning p) (lightboxOpened p) (navigatedTo p).
Definition with_textPendingCount (x : string) (p : page) : page :=
  Page (site p) (location p) (loggedIn p) (currentUserId p) (getProduct p)
    (newItemId p) (cart p) x (cartSubtotal p) (repeaterCartPlayers p)
    (textError p) (textStatus p) (textDuplicateWarning p)
    (lightboxOpened p) (navigatedTo p).
Definition with_cartSubtotal (x : option Z) (p : page) : page :=
  Page (site p) (location p) (loggedIn p) (currentUserId p) (getProduct p)
    (newItemId p) (cart p) (textPendingCount p) x (repeaterCartPlayers p)
    (textError p) (textStatus p) (textDuplicateWarning p)
    (lightboxOpened p) (navigatedTo p).
Definition with_repeaterCartPlayers
    (x : option (list (string * registration))) (p : page) : page :=
  Page (site p) (location p) (loggedIn p) (currentUserId p) (getProduct p)
    (newItemId p) (cart p) (textPendingCount p) (cartSubtotal p) x
    (textError p) (textStatus p) (textDuplicateWarning p)
    (lightboxOpened p) (navigatedTo p).
Definition with_textError (x : option string) (p : page) : page :=
  Page (site p) (location p) (loggedIn p) (currentUserId p) (getProduct p)
    (newItemId p) (cart p) (textPendingCount p) (cartSubtotal p)
    (repeaterCartPlayers p) x (textStatus p) (textDuplicateWarning p)
    (lightboxOpened p) (navigatedTo p).
Definition with_textStatus (x : option string) (p : page) : page :=
  Page (site p) (location p) (loggedIn p) (currentUserId p) (getProduct p)
    (newItemId p) (cart p) (textPendingCount p) (cartSubtotal p)
    (repeaterCartPlayers p) (textError p) x (textDuplicateWarning p)
    (lightboxOpened p) (navigatedTo p).
Definition with_textDuplicateWarning (x : option string) (p : page) : page :=
  Page (site p) (location p) (loggedIn p) (currentUserId p) (getProduct p)
    (newItemId p) (cart p) (textPendingCount p) (cartSubtotal p)
    (repeaterCartPlayers p) (textError p) (textStatus p) x
    (lightboxOpened p) (navigatedTo p).
Definition with_lightboxOpened (x : bool) (p : page) : page :=
  Page (site p) (location p) (loggedIn p) (currentUserId p) (getProduct p)
    (newItemId p) (cart p) (textPendingCount p) (cartSubtotal p)
    (repeaterCartPlayers p) (textError p) (textStatus p)
    (textDuplicateWarning p) x (navigatedTo p).
Definition with_navigatedTo (x : option string) (p : page) : page :=
  Page (site p) (location p) (loggedIn p) (currentUserId p) (getProduct p)
    (newItemId p) (cart p) (textPendingCount p) (cartSubtotal p)
    (repeaterCartPlayers p) (textError p) (textStatus p)
    (textDuplicateWarning p) (lightboxOpened p) x.

(** A computation on the site, run from the page. *)
Definition onSite {A} (c : M world A) : M page A := fun p =>
  match c (site p) with
  | (r, w) => (r, with_site w p)
  end.

(** An external call that changes nothing of the model when it succeeds. *)
Definition call : M page unit := onSite (WixData.external (mret tt)).

(** [String(i)] for an array index. *)
Definition toString (i : nat) : string :=
  NilEmpty.string_of_uint (Nat.to_uint i).

(** [parseInt(id, 10)]: leading white space (the ASCII one) is skipped, a
    sign is read, then the longest run of decimal digits; [None] is [NaN]. *)
Definition digitOf (c : ascii) : option nat :=
  let n := nat_of_ascii c in
  if (48 <=? n)%nat && (n <=? 57)%nat then Some (n - 48) else None.

Fixpoint digitsValue (acc : nat) (s : string) : nat :=
  match s with
  | String c s' =>
      match digitOf c with
      | Some d => digitsValue (10 * acc + d) s'
      | None => acc
      end
  | EmptyString => acc
  end.

Definition unsignedInt (s : string) : option nat :=
  match s with
  | String c _ =>
      match digitOf c with
      | Some _ => Some (digitsValue 0 s)
      | None => None
      end
  | EmptyString => None
  end.

Fixpoint skipSpaces (s : string) : string :=
  match s with
  | String c s' => if Js.is_space c then skipSpaces s' else s
  | EmptyString => EmptyString
  end.

Definition parseInt (s : string) : option Z :=
  match skipSpaces s with
  | String "-" s' => (fun n => (- Z.of_nat n)%Z) <$> unsignedInt s'
  | String "+" s' => Z.of_nat <$> unsignedInt s'
  | s' => Z.of_nat <$> unsignedInt s'
  end.

(** [getCheckoutDivision()] *)
Definition getCheckoutDivision : M page (option string) :=
  q ← gets location;
  if Js.truthy (query_division q) then mret (query_division q)
  else
    queue ← onSite getRegQueue;
    mret (division <$> last queue).

(** [isDuplicateInQueue(division)] of the checkout page: more than one
    queued entry has the player name of the URL and this division. *)
Definition isDuplicateInQueue (div : string) : M page bool :=
  queue ← onSite getRegQueue;
  q ← gets location;
  let player := Js.or_str (query_player q) "" in
  mret (1 <? length (List.filter
                       (fun r => String.eqb (playerName r) player &&
                                 String.eqb (division r) div) queue))%nat.

(** [loadPendingRegistrations(queue)] *)
Definition loadPendingRegistrations (queue : list registration)
  : M page unit :=
  if (length queue =? 0)%nat then
    _ ← modify (with_textPendingCount "No pending registrations.");
    _ ← modify (with_repeaterCartPlayers None);
    modify (with_cartSubtotal None)
  else
    _ ← modify (with_textPendingCount
                  ("You have " +:+ toString (length queue) +:+
                   " pending registration" +:+
                   (if (1 <? length queue)%nat then "s" else "") +:+ "."));
    let subtotal := fold_left (fun s r => (s + fee r)%Z) queue 0%Z in
    _ ← modify (with_cartSubtotal (Some subtotal));
    let data := imap (fun i it => (toString i, it)) queue in
    modify (with_repeaterCartPlayers (Some data)).

(** [removePlayerFromQueue(id)] *)
Definition removePlayerFromQueue (id : string) : M page unit :=
  queue ← onSite getRegQueue;
  let idx := parseInt id in
  queue ← match idx with
          | Some i =>
              if (0 <=? i)%Z && (i <? Z.of_nat (length queue))%Z then
                let spliced := delete (Z.to_nat i) queue in
                _ ← onSite (setRegQueue spliced);
                mret spliced
              else mret queue
          | None => mret queue
          end;
  _ ← loadPendingRegistrations queue;
  modify (with_navigatedTo (Some Constants.REGISTRATION)).

(** [validateCart()]'s test: every queued division occurs in some cart
    item's name, and every cart item's name contains some queued
    division. *)
Definition cartMatches (cartNames queueDivs : list string) : bool :=
  forallb (fun d => existsb (fun n => Js.includes n d) cartNames) queueDivs &&
  forallb (fun n => existsb (fun d => Js.includes n d) queueDivs) cartNames.

(** [fetch(`/_functions/get_product?division=${...}`)]: the request may
    fail; otherwise the endpoint answers for the division. *)
Definition fetchProduct (division : string) : M page GetProduct.response :=
  _ ← call;
  getProduct ← gets getProduct;
  mret (GetProduct.get_get_product getProduct (Some division)).

(** The [try] block of [addItemToCart]. *)
Definition addProduct (division : string) : M page bool :=
  _ ← modify (with_textStatus (Some "Adding to cart..."));
  _ ← (if String.eqb division "" then throw "Division missing" else mret tt);
  resp ← fetchProduct division;
  match resp with
  | GetProduct.ok body =>
      match GetProduct.found_productId body with
      | None | Some "" => throw "Product not found"
      | Some productId =>
          let item := CartItem productId 1
                        (if Js.truthy (GetProduct.found_variantId body)
                         then GetProduct.found_variantId body else None) in
          _ ← call;
          _ ← modify (fun p => with_cart (cart p ++ [item]) p);
          mret true
      end
  | GetProduct.badRequest _ | GetProduct.badRequestJson _ _ =>
      throw "Server error"
  end.

(** [addItemToCart(division)] *)
Definition addItemToCart (division : string) : M page bool :=
  tryCatch (addProduct division)
    (fun error =>
       _ ← modify (with_textError
                     (Some (Js.or_str (Some error) "Failed to add item")));
       _ ← modify (with_textStatus None);
       mret false).

(** The inner [try] block of the Pay button: the queue is saved to the
    [PendingRegistrations] collection; noting the new item's id in the
    session ([setPendingRegId]) is left out. *)
Definition savePending (regQueue : list registration) : M page unit :=
  loggedIn ← gets loggedIn;
  id ← gets currentUserId;
  let userId := if (loggedIn : bool) then Some id else None in
  if negb (Js.truthy userId) then
    throw "User not logged in - cannot save registration"
  else
    createdAt ← onSite dateNow;
    _id ← gets newItemId;
    onSite (WixData.external (modify (fun w =>
      with_PendingRegistrations
        (PendingRegistrations w ++
         [PendingRegistration _id id "pending" createdAt (Json regQueue)])
        w))).

Definition backupWarning : string :=
  "Warning: Could not save registration backup. Please contact support if payment completes without registration.".

(** The outer [try] block of the Pay button from "Add registration to
    cart" on. *)
Definition toCart (div : string) : M page unit :=
  _ ← modify (with_textStatus (Some "Preparing your registration..."));
  success ← addItemToCart div;
  if negb success then mret tt
  else
    _ ← modify (with_textStatus None);
    _ ← call;
    _ ← modify (with_lightboxOpened true);
    modify (with_navigatedTo (Some Constants.CART)).

(** The outer [try] block of the Pay button. *)
Definition checkout (regQueue : list registration) (div : string)
  : M page unit :=
  _ ← modify (with_textStatus (Some "Saving registration data..."));
  _ ← tryCatch (savePending regQueue)
        (fun saveError => modify (with_textError (Some backupWarning)));
  toCart div.

(** The [catch] of the Pay button. *)
Definition payHandler (error : string) : M page unit :=
  _ ← modify (with_textError
                (Some (Js.or_str (Some error)
                         "Failed to prepare registration")));
  modify (with_textStatus None).

Definition noRegistrations : string :=
  "No registrations found. Please add a registration first.".
Definition noDivision : string :=
  "Division not found. Please try adding your registration again.".
Definition alreadyPending : string :=
  "This player is already in your pending registrations.".

(** The click handler of [#buttonPay]. *)
Definition payClick : M page unit :=
  regQueue ← onSite getRegQueue;
  div ← getCheckoutDivision;
  if (length regQueue =? 0)%nat then
    modify (with_textError (Some noRegistrations))
  else if negb (Js.truthy div) then
    modify (with_textError (Some noDivision))
  else
    let div := default "" div in
    duplicate ← isDuplicateInQueue div;
    if (duplicate : bool) then
      modify (with_textDuplicateWarning (Some alreadyPending))
    else tryCatch (checkout regQueue div) payHandler.

End Checkout.

(** ** What the checkout page reads *)

Module CheckoutSpec.
Import Checkout.

(** The queue of the session. *)
Definition queueOf (p : page) : list registration :=
  SessionManager.parseQueue (regQueueItem (site p)).

(** The division the page checks out: the one of the URL, or else that of
    the last queued entry. *)
Definition divisionAt (p : page) : option string :=
  if Js.truthy (query_division (location p)) then query_division (location p)
  else division <$> last (queueOf p).

(** The queued entries with the player name of the URL and division [d]. *)
Definition entriesFor (p : page) (d : string) : list registration :=
  List.filter
    (fun r => String.eqb (playerName r)
                (Js.or_str (query_player (location p)) "") &&
              String.eqb (division r) d)
    (queueOf p).

(** The record the Pay button inserts. *)
Definition backupOf (p : page) : pendingRegistration :=
  PendingRegistration (newItemId p) (currentUserId p) "pending"
    (now (site p)) (Json (queueOf p)).

(** The Pay button gets past its three guards with division [d]. *)
Definition payable (p : page) (d : string) : Prop :=
  queueOf p <> [] /\ divisionAt p = Some d /\ d <> "" /\
  length (entriesFor p d) <= 1.

(** The page once the site has answered one external call. *)
Definition answered (p : page) : page :=
  with_site (with_replies (tail (replies (site p))) (site p)) p.

(** The page once the backup of [regQueue] is inserted. *)
Definition saved (regQueue : list registration) (p : page) : page :=
  with_site
    (with_PendingRegistrations
       (PendingRegistrations (site p) ++
        [PendingRegistration (newItemId p) (currentUserId p) "pending"
           (now (site p)) (Json regQueue)])
       (site (answered p)))
    p.

(** The next external call throws. *)
Definition failing (p : page) : Prop :=
  exists e, head (replies (site p)) = Some (Raise e).

(** The current user can be named in a backup record. *)
Definition identified (p : page) : bool :=
  loggedIn p && negb (String.eqb (currentUserId p) "").

(** What the Pay button adds to the cart for an [ok] answer. *)
Definition itemOf (productId : string) (body : GetProduct.found) : cartItem :=
  CartItem productId 1
    (if Js.truthy (GetProduct.found_variantId body)
     then GetProduct.found_variantId body else None).

(** [c] leaves the backup collection as it is. *)
Definition keepsBackups {A} (c : M page A) : Prop :=
  forall p, PendingRegistrations (site (c p).2) = PendingRegistrations (site p).

(** The name [validateCart] reads off a cart item:
    [i.name || i.productName || ""]. *)
Definition cartName (name productName : option string) : string :=
  Js.or_str (Js.or_opt name productName) "".

End CheckoutSpec.

(** ** Line items that are no donation *)

Module DonationSpec.

(** The lookup [DONATION_PRODUCTS[productId]] is falsy: the product id is
    no key of the table, and it is no name every object inherits either
    (for such a name the lookup finds the inherited value, which is
    truthy). *)
Definition noDonation (l : lineItem) : Prop :=
  ThankYou.donationAmount l = None /\
  forall id, productId l = Some id -> id ∉ GetProduct.inheritedNames.

End DonationSpec.

(** ** The queue helpers on the raw session item

    The helpers the safe-fallback registration page defines for itself,
    over every value the session item ['regQueue'] can hold. *)

Module SessionFallback.

(** An element of a parsed array: an object, of which the helpers read the
    player, season and sport; [null], of which no property can be read; or
    any other value (a number, a string, a boolean, an array), on which
    these properties are [undefined]. *)
Inductive element :=
| Entry (r : registration)
| Null
| Scalar.

(** The session item, by what [JSON.parse(session.getItem('regQueue') ||
    '[]')] makes of it: no item (or the empty string), a string that does
    not parse, the serialisation of an array, or the serialisation of a
    value that is not an array (["null"], ["{}"], a number, a string). *)
Inductive item :=
| Missing
| Unparsable
| Array (elements : list element)
| NonArray.

(** What [getRegQueue] returns. *)
Inductive value :=
| Arr (elements : list element)
| Other.

(** The [TypeError] of calling [push] or [some] on a value that is not an
    array, or of reading a property of [null]. *)
Definition typeError : string := "TypeError".

Definition getRegQueue : M item value :=
  gets (fun i => match i with
                 | Array q => Arr q
                 | NonArray => Other
                 | Missing | Unparsable => Arr []
                 end).

(** [setRegQueue(queue)] with the array the page holds. *)
Definition setRegQueue (queue : list element) : M item unit :=
  modify (fun _ => Array queue).

Definition addToRegQueue (it : registration) : M item unit :=
  queue ← getRegQueue;
  match queue with
  | Arr q => setRegQueue (q ++ [Entry it])
  | Other => throw typeError
  end.

(** [queue.some(r => r.playerId === reg.playerId && ...)]: the elements are
    tested from the left until one matches. *)
Fixpoint some (reg : registration) (q : list element) : result bool :=
  match q with
  | [] => Ok false
  | Entry r :: q' =>
      if SessionManager.sameIdentity reg r then Ok true else some reg q'
  | Scalar :: q' => some reg q'
  | Null :: _ => Throw typeError
  end.

Definition isDuplicateInQueue (reg : registration) : M item bool :=
  queue ← getRegQueue;
  match queue return M item bool with
  | Arr q => fun i => (some reg q, i)
  | Other => throw typeError
  end.

(** The array an item stands for, if any. *)
Definition arrayOf (i : item) : option (list element) :=
  match i with
  | Missing | Unparsable => Some []
  | Array q => Some q
  | NonArray => None
  end.

(** The items of the three shapes [stored] has. *)
Definition ofStored (s : stored) : item :=
  match s with
  | Absent => Missing
  | Corrupt => Unparsable
  | Json q => Array (Entry <$> q)
  end.

End SessionFallback.

(** ** What one Register click is answered *)

Module RegistrationSpec.

(** The answer to the [n]-th external call the click makes once the form
    data is collected: the backup insert (0), the query of the
    authoritative store (1), the request for the division's fee (2). *)
Definition answer (p : NewSeasonReg.page) (n : nat) : reply :=
  default Done (replies (NewSeasonReg.site p) !! n).



End RegistrationSpec.

(** ** More sample data *)

Module Examples2.

(** An order that names neither an id nor a buyer. *)
Definition anonymousOrder : order :=
  Order None None (Some [Examples.oneMajors]) None None None.



(** The store behind the product endpoint: it holds the product of the
    "Majors" key and no other. *)
Definition majorsProduct : GetProduct.product :=
  GetProduct.Product (Some "5abbb0c6-dc69-4ada-9600-5c47d063c33e") None
                     (Some "Majors") false None.

Definition catalogue : GetProduct.store := fun productId =>
  if decide (productId = Some "5abbb0c6-dc69-4ada-9600-5c47d063c33e")
  then Ok (Some majorsProduct) else Ok None.

(** The checkout page of the logged-in buyer, reached with no division in
    the URL, over a site that answers as [replies] says. *)
Definition checkoutOver (queue : list registration) (replies : list reply)
    (loggedIn : bool) : Checkout.page :=
  Checkout.Page (Examples.site (Json queue) [] replies)
    (Checkout.Query None (Some "Ann Lee")) loggedIn "buyer-1" catalogue
    "pending-1" [] "" None None None None None false None.

Definition checkoutPage : Checkout.page :=
  checkoutOver [Examples.majors] [] true.

(** Two backup records of the buyer inside the recovery window, the newer
    one holding another registration than the older one. *)
Definition newer : pendingRegistration :=
  Examples.backup "pending-2" 1000 "pending" (Json [Examples.majors2]).

Definition older : pendingRegistration :=
  Examples.backup "pending-1" Examples.hour "pending" (Json [Examples.majors]).

(** A site with both backups, an empty session, and an authoritative store
    that holds one registration, of the order [recorded]. *)
Definition twoBackups (recorded : string) : world :=
  World Absent ∅ ∅ false [older; newer]
        [PaidRegistration Examples.majors true recorded 0] [] [] [] []
        Examples.noon [].

(** An association of the two backups with orders of their own. *)
Definition ownOrders (ofNewer ofOlder : string)
  : pendingRegistration -> option string :=
  fun p => if decide (pending_id p = "pending-2") then Some ofNewer
           else Some ofOlder.

End Examples2.

(** * Properties *)

(** ** Strings *)

Module JsFacts.

Lemma append_nil (p : string) : "" +:+ p = p.
Proof. reflexivity. Qed.

Lemma append_cons (c : ascii) (a p : string) :
  String c a +:+ p = String c (a +:+ p).
Proof. reflexivity. Qed.

Lemma prefix_spec (a s : string) :
  String.prefix a s = true <-> exists post, s = a +:+ post.
Proof.
  revert s; induction a as [|c a IH]; intros s; simpl.
  - split; [intros _; by exists s | by destruct s].
  - setoid_rewrite append_cons.
    destruct s as [|d s]; simpl.
    + split; [done | intros [post H]; discriminate].
    + destruct (ascii_dec c d) as [Heq|Hne]; [subst d|].
      * rewrite IH. split; intros [post H]; exists post; congruence.
      * split; [done | intros [post H]; congruence].
Qed.

Lemma includes_spec (s sub : string) :
  Js.includes s sub = true <-> MatchingSpec.contains s sub.
Proof.
  unfold MatchingSpec.contains.
  induction s as [|c s IH].
  - change (Js.includes "" sub) with (String.prefix sub "" || false).
    rewrite orb_false_r, prefix_spec. split.
    + intros [post H]. by exists "", post.
    + intros [pre [post H]]. destruct pre; [by exists post | discriminate].
  - change (Js.includes (String c s) sub)
      with (String.prefix sub (String c s) || Js.includes s sub).
    rewrite orb_true_iff, prefix_spec, IH. split.
    + intros [[post H] | [pre [post H]]].
      * by exists "", post.
      * exists (String c pre), post. rewrite append_cons. by rewrite H.
    + intros [pre [post H]]. destruct pre as [|d pre].
      * left. by exists post.
      * right. exists pre, post. rewrite append_cons in H. congruence.
Qed.

End JsFacts.

(** ** The matching engine *)

Module MatchingProofs.
Import Matching MatchingSpec.

(** The slot array is the expansion of the line items, all unused. *)
Lemma buildSlots_expand (lineItems : list lineItem) :
  buildSlots lineItems = (fun l => Slot l false) <$> expand unitsOrOne lineItems.
Proof.
  unfold buildSlots, expand.
  enough (H : forall acc,
    fold_left (fun slots l =>
                 slots ++ replicate (Z.to_nat (Js.or_num (quantity l) 1))
                                    (Slot l false)) lineItems acc =
    acc ++ ((fun l => Slot l false) <$>
            (lineItems ≫= fun l => replicate (unitsOrOne l) l))).
  { apply (H []). }
  induction lineItems as [|l ls IH]; intros acc; simpl.
  - by rewrite app_nil_r.
  - rewrite IH, fmap_app, fmap_replicate, app_assoc. done.
Qed.

(** The loop carries its two result arrays along; they can be read off a
    run that starts from empty ones. *)
Lemma fold_matchOne (rs : list registration) (st : matchState) :
  let run := fold_left matchOne rs (MatchState (slots_of st) [] []) in
  fold_left matchOne rs st =
  MatchState (slots_of run) (matched_of st ++ matched_of run)
             (unmatched_of st ++ unmatched_of run).
Proof.
  revert st; induction rs as [|r rs IH]; intros [cs m u]; simpl.
  - by rewrite !app_nil_r.
  - rewrite IH. simpl.
    rewrite (IH (matchOne (MatchState cs [] []) r)).
    unfold matchOne; simpl.
    destruct (findIndex r cs) as [[i s]|]; simpl;
      by rewrite <- ?app_assoc.
Qed.

Lemma represents_fresh (slots : list lineItem) :
  represents ((fun l => Slot l false) <$> slots) slots ∅.
Proof.
  split.
  - rewrite <- list_fmap_compose. apply list_fmap_id.
  - intros i s H. apply list_lookup_fmap_Some in H as [l [-> _]].
    simpl. split; [done | by intros ?%elem_of_empty].
Qed.

Lemma represents_take cs slots taken i s :
  represents cs slots taken -> cs !! i = Some s ->
  represents (<[i := Slot (li s) true]> cs) slots ({[i]} ∪ taken).
Proof.
  intros [Hli Hused] Hi. split.
  - rewrite list_fmap_insert. simpl. rewrite <- Hli.
    apply list_insert_id. by rewrite list_lookup_fmap, Hi.
  - intros j t Hj. destruct (decide (i = j)) as [->|Hne].
    + rewrite list_lookup_insert_eq in Hj by eauto using lookup_lt_Some.
      inversion Hj; subst; simpl.
      split; [intros _; by apply elem_of_union_l, elem_of_singleton | done].
    + rewrite list_lookup_insert_ne in Hj by done.
      rewrite (Hused j t Hj), elem_of_union, elem_of_singleton.
      split; [by right | by intros [?|?]].
Qed.

Lemma accepts_qualifies cs slots taken r i s :
  represents cs slots taken -> cs !! i = Some s ->
  accepts r s = true <-> qualifies slots taken r i.
Proof.
  intros [Hli Hused] Hi. unfold accepts, qualifies.
  assert (Hl : slots !! i = Some (li s)).
  { by rewrite <- Hli, list_lookup_fmap, Hi. }
  rewrite andb_true_iff, negb_true_iff. split.
  - intros [Hu Hn]. split.
    + rewrite <- (Hused i s Hi). congruence.
    + destruct (name (li s)) as [d|] eqn:Hd; [|done].
      exists (li s), d. by rewrite <- JsFacts.includes_spec.
  - intros [Hu [l [d [Hl' [Hd Hc]]]]].
    assert (l = li s) by congruence; subst l. split.
    + destruct (used s) eqn:E; [|done].
      exfalso. apply Hu. by apply (Hused i s Hi).
    + rewrite Hd. by apply JsFacts.includes_spec.
Qed.

Lemma qualifies_lookup slots taken r i :
  qualifies slots taken r i -> i < length slots.
Proof. intros [_ [l [d [H _]]]]. eauto using lookup_lt_Some. Qed.

Lemma findIndex_Some cs slots taken r i s :
  represents cs slots taken -> findIndex r cs = Some (i, s) ->
  cs !! i = Some s /\ firstQualifying slots taken r i.
Proof.
  intros Hrep H. apply list_find_Some in H as [Hi [Hacc Hmin]].
  split; [done|]. split.
  - by apply (accepts_qualifies cs slots taken r i s).
  - intros j Hj Hq.
    assert (Hlen : j < length cs).
    { apply lookup_lt_Some in Hi. lia. }
    apply lookup_lt_is_Some in Hlen as [t Ht].
    apply (Hmin j t Ht Hj).
    by apply (accepts_qualifies cs slots taken r j t).
Qed.

Lemma findIndex_None cs slots taken r :
  represents cs slots taken -> findIndex r cs = None ->
  forall i, ~ qualifies slots taken r i.
Proof.
  intros Hrep H i Hq. apply list_find_None in H.
  assert (Hlen : i < length cs).
  { destruct Hrep as [<- _]. apply qualifies_lookup in Hq.
    by rewrite length_fmap in Hq. }
  apply lookup_lt_is_Some in Hlen as [t Ht].
  rewrite Forall_forall in H. apply (H t).
  - apply list_elem_of_lookup. eauto.
  - by apply (accepts_qualifies cs slots taken r i t).
Qed.

(** The loop computes a greedy assignment. *)
Lemma matchLoop_greedy (rs : list registration) cs slots taken :
  represents cs slots taken ->
  exists bound,
    greedy slots taken rs bound (unmatched_of (matchLoop rs cs)) /\
    names slots bound (matched_of (matchLoop rs cs)).
Proof.
  unfold matchLoop.
  revert cs taken; induction rs as [|r rs IH]; intros cs taken Hrep; simpl.
  - exists []. split; constructor.
  - rewrite fold_matchOne.
    destruct (findIndex r cs) as [[i s]|] eqn:Hfind.
    + assert (E : matchOne (MatchState cs [] []) r =
                  MatchState (<[i := Slot (li s) true]> cs) [(r, li s)] []).
      { unfold matchOne; simpl. by rewrite Hfind. }
      rewrite E; simpl.
      destruct (findIndex_Some _ _ _ _ _ _ Hrep Hfind) as [Hi Hfirst].
      destruct (IH _ _ (represents_take _ _ _ _ _ Hrep Hi)) as [bound [Hg Hn]].
      exists ((r, i) :: bound). split.
      * by constructor.
      * constructor; [|done]. simpl. split; [done|].
        destruct Hrep as [<- _]. by rewrite list_lookup_fmap, Hi.
    + assert (E : matchOne (MatchState cs [] []) r =
                  MatchState cs [] [r]).
      { unfold matchOne; simpl. by rewrite Hfind. }
      rewrite E; simpl.
      destruct (IH _ _ Hrep) as [bound [Hg Hn]].
      exists bound. split; [|done].
      constructor; [|done]. by apply (findIndex_None cs).
Qed.

(** A greedy assignment binds no slot that was taken, and none twice. *)
Lemma greedy_NoDup slots taken rs bound unmatched :
  greedy slots taken rs bound unmatched ->
  NoDup bound.*2 /\ forall i, i ∈ bound.*2 -> i ∉ taken.
Proof.
  induction 1 as [taken|taken r rs i bound unmatched Hfirst _ [IHn IHt]
                 |taken r rs bound unmatched _ _ IH]; simpl.
  - split; [constructor | by intros i Hi%elem_of_nil].
  - split.
    + constructor; [|done]. intros Hin. apply (IHt i Hin).
      by apply elem_of_union_l, elem_of_singleton.
    + intros j Hj. apply elem_of_cons in Hj as [->|Hj].
      * by destruct Hfirst as [[Hnot _] _].
      * intros Hj'. apply (IHt j Hj). by apply elem_of_union_r.
  - done.
Qed.

(** Every intent ends up among the bound ones or among the unmatched
    ones, once. *)
Lemma greedy_Permutation slots taken rs bound unmatched :
  greedy slots taken rs bound unmatched ->
  bound.*1 ++ unmatched ≡ₚ rs.
Proof.
  induction 1 as [|taken r rs i bound unmatched _ _ IH
                 |taken r rs bound unmatched _ _ IH]; simpl.
  - done.
  - by rewrite IH.
  - by rewrite <- Permutation_middle, IH.
Qed.

(** The greedy assignment of given slots and intents is unique. *)
Lemma greedy_functional slots taken rs bound unmatched bound' unmatched' :
  greedy slots taken rs bound unmatched ->
  greedy slots taken rs bound' unmatched' ->
  bound' = bound /\ unmatched' = unmatched.
Proof.
  intros H; revert bound' unmatched'.
  induction H as [|taken r rs i bound unmatched Hfirst _ IH
                 |taken r rs bound unmatched Hnone _ IH];
    intros bound' unmatched' H'; inversion H'; subst.
  - done.
  - assert (i0 = i) as ->.
    { destruct Hfirst as [Hq Hmin].
      match goal with H : firstQualifying _ _ _ i0 |- _ =>
        destruct H as [Hq' Hmin'] end.
      destruct (lt_eq_lt_dec i0 i) as [[Hlt|Heq]|Hlt]; [|done|].
      - by destruct (Hmin i0 Hlt).
      - by destruct (Hmin' i Hlt). }
    match goal with H : greedy _ _ _ _ _ |- _ =>
      destruct (IH _ _ H) as [-> ->] end.
    done.
  - destruct Hfirst as [Hq _].
    match goal with H : forall i, ~ qualifies _ _ _ i |- _ =>
      by destruct (H i) end.
  - match goal with H : firstQualifying _ _ _ _ |- _ =>
      destruct H as [Hq _]; by destruct (Hnone _ Hq) end.
  - match goal with H : greedy _ _ _ _ _ |- _ =>
      destruct (IH _ _ H) as [-> ->] end.
    done.
Qed.

Lemma names_fst slots bound matched :
  names slots bound matched -> matched.*1 = bound.*1.
Proof.
  induction 1 as [|b m bound matched [H _] _ IH]; [done|].
  rewrite !fmap_cons. by rewrite H, IH.
Qed.

(** A matched pair joins an intent of the queue with a line item of the
    order whose name contains the intent's division. *)
Lemma greedy_sound slots taken rs bound unmatched :
  greedy slots taken rs bound unmatched ->
  Forall (fun b => b.1 ∈ rs /\
                   exists l d, slots !! b.2 = Some l /\ name l = Some d /\
                               contains d (division b.1)) bound.
Proof.
  induction 1 as [|taken r rs i bound unmatched [[_ Hq] _] _ IH
                 |taken r rs bound unmatched _ _ IH].
  - constructor.
  - constructor.
    + split; [by left | done].
    + eapply Forall_impl; [exact IH|]. intros b [Hb Hl]. split; [by right | done].
  - eapply Forall_impl; [exact IH|]. intros b [Hb Hl]. split; [by right | done].
Qed.



(** C5 (amended).  On every queue and every list of line items,
    [matchRegistrationsToLineItems] computes the greedy assignment: the
    line items are expanded into slots in source order, one slot per unit
    of quantity, a quantity that is missing or zero counting as one; each
    intent, in queue order, is bound to the first unused slot whose name
    contains its division, and an intent with no such slot is unmatched.
    Each slot is bound at most once, every intent appears exactly once in
    matched or unmatched, and the assignment is the only greedy one, so a
    repeated call returns it again. *)
Theorem matching_is_greedy
    (regQueue : list registration) (lineItems : list lineItem) :
  exists bound : list (registration * nat),
    greedy (expand unitsOrOne lineItems) ∅ regQueue bound
           (matchRegistrationsToLineItems regQueue lineItems).2 /\
    names (expand unitsOrOne lineItems) bound
          (matchRegistrationsToLineItems regQueue lineItems).1 /\
    NoDup bound.*2 /\
    (matchRegistrationsToLineItems regQueue lineItems).1.*1 ++
    (matchRegistrationsToLineItems regQueue lineItems).2 ≡ₚ regQueue /\
    forall bound' unmatched',
      greedy (expand unitsOrOne lineItems) ∅ regQueue bound' unmatched' ->
      bound' = bound /\
      unmatched' = (matchRegistrationsToLineItems regQueue lineItems).2.
Proof.
  unfold matchRegistrationsToLineItems; simpl.
  destruct (matchLoop_greedy regQueue (buildSlots lineItems)
              (expand unitsOrOne lineItems) ∅) as [bound [Hg Hn]].
  { rewrite buildSlots_expand. apply represents_fresh. }
  exists bound. split; [done|]. split; [done|]. split.
  { by destruct (greedy_NoDup _ _ _ _ _ Hg). }
  split.
  { rewrite (names_fst _ _ _ Hn). by eapply greedy_Permutation. }
  intros bound' unmatched' Hg'. by eapply greedy_functional.
Qed.

(** C5, as stated, fails on a line item of quantity zero: zero units give
    no slot, so the intent would be unmatched, while the code makes one
    slot and matches the intent. *)
Lemma matching_zero_quantity_counterexample :
  matchRegistrationsToLineItems [Examples.majors] [Examples.zeroQuantity] =
    ([(Examples.majors, Examples.zeroQuantity)], []) /\
  ~ exists bound : list (registration * nat),
      greedy (expand unitsStated [Examples.zeroQuantity]) ∅
             [Examples.majors] bound
             (matchRegistrationsToLineItems [Examples.majors]
                [Examples.zeroQuantity]).2 /\
      names (expand unitsStated [Examples.zeroQuantity]) bound
            (matchRegistrationsToLineItems [Examples.majors]
               [Examples.zeroQuantity]).1.
Proof.
  split; [reflexivity|].
  intros [bound [_ Hn]].
  change (matchRegistrationsToLineItems [Examples.majors]
            [Examples.zeroQuantity]).1
    with [(Examples.majors, Examples.zeroQuantity)] in Hn.
  inversion Hn as [|b m bound' matched' [_ Hl] _]; subst.
  by destruct b.2.
Qed.

End MatchingProofs.

(** ** The amount recorded on a saved registration *)

Module PaidAmountProofs.
Import Matching MatchingSpec ThankYou.






End PaidAmountProofs.

(** ** The monad *)

Module MonadFacts.

Lemma bind_Ok {S A B} (c : M S A) (k : A -> M S B) s a s' :
  c s = (Ok a, s') -> (c ≫= k) s = k a s'.
Proof. unfold mbind, M_bind. by intros ->. Qed.

Lemma bind_inv {S A B} (c : M S A) (k : A -> M S B) s b s2 :
  (c ≫= k) s = (Ok b, s2) ->
  exists a s1, c s = (Ok a, s1) /\ k a s1 = (Ok b, s2).
Proof.
  unfold mbind, M_bind. destruct (c s) as [[a|e] s1]; [eauto | done].
Qed.

Lemma tryCatch_Throw {S A} (c : M S A) h s e s' :
  c s = (Throw e, s') -> tryCatch c h s = h e s'.
Proof. unfold tryCatch. by intros ->. Qed.

Lemma tryCatch_inv {S A} (c : M S A) h s a s' :
  tryCatch c h s = (Ok a, s') ->
  c s = (Ok a, s') \/ exists e s1, c s = (Throw e, s1) /\ h e s1 = (Ok a, s').
Proof.
  unfold tryCatch. destruct (c s) as [[x|e] s1]; [by left | right; eauto].
Qed.

End MonadFacts.

(** ** Frame rules *)

Module FrameFacts.
Import Frame.

Section Stable.
Context {X : Type} (f : world -> X).

Lemma stable_ret {A} (a : A) : stable f (mret a).
Proof. by intros w. Qed.

Lemma stable_throw {A} e : stable f (throw e : M world A).
Proof. by intros w. Qed.

Lemma stable_gets {A} (g : world -> A) : stable f (gets g).
Proof. by intros w. Qed.

Lemma stable_modify (g : world -> world) :
  (forall w, f (g w) = f w) -> stable f (modify g).
Proof. intros H w. apply H. Qed.

Lemma stable_bind {A B} (c : M world A) (k : A -> M world B) :
  stable f c -> (forall a, stable f (k a)) -> stable f (c ≫= k).
Proof.
  intros Hc Hk w. unfold mbind, M_bind.
  specialize (Hc w). destruct (c w) as [[a|e] w1]; simpl in *.
  - by rewrite Hk.
  - done.
Qed.

Lemma stable_tryCatch {A} (c : M world A) h :
  stable f c -> (forall e, stable f (h e)) -> stable f (tryCatch c h).
Proof.
  intros Hc Hh w. unfold tryCatch.
  specialize (Hc w). destruct (c w) as [[a|e] w1]; simpl in *.
  - done.
  - by rewrite Hh.
Qed.

Lemma stable_forEach {A} (l : list A) body :
  (forall x, stable f (body x)) -> stable f (forEach l body).
Proof.
  intros H. induction l as [|x l IH]; simpl.
  - apply stable_ret.
  - apply stable_bind; [apply H | by intros _].
Qed.

Lemma stable_nextReply :
  (forall rs w, f (with_replies rs w) = f w) -> stable f nextReply.
Proof.
  intros H w. unfold nextReply. destruct (replies w); simpl; [done | apply H].
Qed.

Lemma stable_run {A} (c : M world A) w r w' :
  stable f c -> c w = (r, w') -> f w' = f w.
Proof. intros H E. specialize (H w). by rewrite E in H. Qed.
End Stable.

(** One step of a frame proof: peel the outermost construct of the
    computation. *)
Ltac stable_step :=
  lazymatch goal with
  | |- stable _ (mret _) => apply stable_ret
  | |- stable _ (throw _) => apply stable_throw
  | |- stable _ (gets _) => apply stable_gets
  | |- stable _ (modify _) => apply stable_modify; intros ?; reflexivity
  | |- stable _ nextReply => apply stable_nextReply; intros ? ?; reflexivity
  | |- stable _ (tryCatch _ _) => apply stable_tryCatch; [|intros ?]
  | |- stable _ (forEach _ _) => apply stable_forEach; intros ?
  | |- stable _ (mbind _ _) => apply stable_bind; [|intros ?]
  | |- stable _ (if ?b then _ else _) => destruct b
  | |- stable _ (match ?x with _ => _ end) => destruct x
  end.

Ltac stable := repeat stable_step.

End FrameFacts.

(** ** The Thank You page *)

Module ThankYouProofs.
Import SessionManager WixData Backend ThankYou MonadFacts Frame FrameFacts.

Lemma external_stable {X A} (f : world -> X) (c : M world A) :
  (forall rs w, f (with_replies rs w) = f w) -> stable f c ->
  stable f (external c).
Proof.
  intros Hr Hc. unfold external.
  apply stable_bind; [by apply stable_nextReply|].
  intros [| |]; first [exact Hc | apply stable_throw].
Qed.

Lemma insertSyncError_ledger record : stable ledger (insertSyncError record).
Proof. apply external_stable; [done | stable]. Qed.

Lemma processDonations_ledger o : stable ledger (processDonations o).
Proof.
  unfold processDonations, syncDonation, saveDonation, isDonationSynced,
    setDonationSynced, dateNow.
  stable; apply insertSyncError_ledger.
Qed.

Lemma firstUnused_ledger orderId items :
  stable ledger (firstUnused orderId items).
Proof.
  induction items as [|p items IH]; simpl; [stable|].
  unfold querySeasonByOrder, jsonParse, updatePendingStatus, external.
  stable; apply IH.
Qed.

Lemma loadRegistrationQueue_ledger o :
  stable ledger (loadRegistrationQueue o).
Proof.
  unfold loadRegistrationQueue, cmsFallback, getRegQueue, queryPending,
    dateNow, external.
  stable; first [apply firstUnused_ledger | apply insertSyncError_ledger].
Qed.

(** C2: the two abort paths leave the lock held.  With the session queue
    lost and no backup record, the handler acquires the lock of
    ["order-1"], reports the data loss and returns; with a queued intent
    that matches no line item it returns after matching.  Neither path
    releases the lock, and a later run for the same order stops at lock
    acquisition. *)
Theorem lock_held_after_abort :
  (exists w,
     onReady (GetOrder (Some Examples.paidOrder))
             (Examples.site Absent [] []) = (ExitNoData, w) /\
     "order-1" ∈ locks w /\
     onReady (GetOrder (Some Examples.paidOrder)) w = (ExitLockBusy, w)) /\
  (exists w,
     onReady (GetOrder (Some Examples.paidOrder))
             (Examples.site (Json [Examples.minors]) [] []) = (ExitNoMatch, w) /\
     "order-1" ∈ locks w /\
     onReady (GetOrder (Some Examples.paidOrder)) w = (ExitLockBusy, w)) /\
  (exists w,
     onReady (GetOrder (Some Examples.paidOrder))
             (Examples.site Absent [] [Raise "WDE0028"; Raise "WDE0028"]) =
       (ExitError "WDE0028", w) /\
     "order-1" ∉ locks w).
Proof.
  split; [|split].
  - eexists. split; [vm_compute; reflexivity|].
    split; [|vm_compute; reflexivity].
    apply (bool_decide_unpack _). by vm_compute.
  - eexists. split; [vm_compute; reflexivity|].
    split; [|vm_compute; reflexivity].
    apply (bool_decide_unpack _). by vm_compute.
  - eexists. split; [vm_compute; reflexivity|].
    apply (bool_decide_unpack _). by vm_compute.
Qed.

(** C8: a donation sync that throws leaves the donation-sync flag unset.
    For the order with the $10 donation, when [saveDonation] throws the
    exception is logged as [DONATION_SYNC_EXCEPTION] and the run goes on,
    but [setDonationSynced] is skipped, so the next run of
    [processDonations] calls [saveDonation] again; when [saveDonation]
    answers with an error result the flag is set. *)
Theorem donation_flag_unset_after_exception :
  (exists w,
     processDonations Examples.donationOrder
       (Examples.site Absent [] [Raise "ETIMEDOUT"]) = (Ok tt, w) /\
     errorType <$> AirtableSyncErrors w = ["DONATION_SYNC_EXCEPTION"] /\
     donationSynced w = false /\
     exists w',
       processDonations Examples.donationOrder w = (Ok tt, w') /\
       length (syncedDonations w') = 1) /\
  (exists w,
     processDonations Examples.donationOrder
       (Examples.site Absent [] [Soft (Some "rate limited")]) = (Ok tt, w) /\
     errorType <$> AirtableSyncErrors w = ["DONATION_SYNC_FAILED"] /\
     donationSynced w = true).
Proof.
  split.
  - eexists. split; [vm_compute; reflexivity|].
    split; [reflexivity|]. split; [reflexivity|].
    eexists. split; [vm_compute; reflexivity | reflexivity].
  - eexists. split; [vm_compute; reflexivity|].
    split; reflexivity.
Qed.

(** *** Entering the locked section *)

Lemma reconcile_locked o orderId w :
  _id o = Some orderId -> orderId <> "" ->
  orderId ∉ processedOrders w -> orderId ∉ locks w ->
  reconcile (GetOrder (Some o)) w =
  tryCatch (processOrder o orderId)
    (fun error => _ ← releaseProcessingLock orderId; throw error)
    (with_locks ({[orderId]} ∪ locks w) w).
Proof.
  intros Hid Hne Hp Hl. unfold reconcile. rewrite Hid.
  destruct orderId as [|c s]; [done|].
  unfold isOrderProcessed, acquireProcessingLock, gets, mbind, M_bind.
  rewrite !(bool_decide_eq_false_2 _ Hp), (bool_decide_eq_false_2 _ Hl).
  reflexivity.
Qed.

Lemma processOrder_no_data o orderId w wd wq q src :
  processDonations o w = (Ok tt, wd) ->
  loadRegistrationQueue o wd = (Ok (q, src), wq) ->
  length q = 0 ->
  processOrder o orderId w =
  (handleNoRegistrationData o ≫= fun _ => mret ExitNoData) wq.
Proof.
  intros Hd Hl Hq. unfold processOrder.
  rewrite (bind_Ok _ _ _ _ _ Hd), (bind_Ok _ _ _ _ _ Hl).
  by rewrite Hq.
Qed.

(** *** A completed run *)

Lemma processOrder_done o orderId w w1 :
  processOrder o orderId w = (Ok ExitDone, w1) ->
  orderId ∈ processedOrders w1 /\ orderId ∉ locks w1.
Proof.
  unfold processOrder. intros H.
  apply bind_inv in H as [[] [wd [_ H]]].
  apply bind_inv in H as [[q src] [wq [_ H]]].
  destruct (length q =? 0)%nat.
  { apply bind_inv in H as [[] [? [_ H]]]. by inversion H. }
  destruct (Matching.matchRegistrationsToLineItems q _) as [matched unmatched].
  destruct (length matched =? 0)%nat; [by inversion H|].
  apply bind_inv in H as [t [? [_ H]]].
  apply bind_inv in H as [batch [? [_ H]]].
  apply bind_inv in H as [[] [wc [_ H]]].
  apply bind_inv in H as [[] [wm [Hm H]]].
  inversion H; subst. unfold markOrderProcessed, modify in Hm.
  inversion Hm; subst; simpl. split.
  - by apply elem_of_union_l, elem_of_singleton.
  - intros Hin. apply elem_of_difference in Hin as [_ Hin].
    by apply Hin, elem_of_singleton.
Qed.

Lemma onReady_done o w w1 :
  onReady (GetOrder (Some o)) w = (ExitDone, w1) ->
  exists orderId, _id o = Some orderId /\ orderId <> "" /\
                  orderId ∈ processedOrders w1 /\ orderId ∉ locks w1.
Proof.
  unfold onReady. destruct (reconcile _ w) as [[x|e] w'] eqn:E; [|done].
  intros H; inversion H; subst. unfold reconcile in E.
  destruct (_id o) as [[|c s]|]; [by inversion E| |by inversion E].
  exists (String c s). split; [done|]. split; [done|].
  apply bind_inv in E as [done [wa [Ha E]]].
  destruct done; [by inversion E|].
  apply bind_inv in E as [locked [wl [_ E]]].
  destruct locked; simpl in E; [|by inversion E].
  apply tryCatch_inv in E as [E|[e [w2 [_ E]]]].
  - by apply processOrder_done in E.
  - apply bind_inv in E as [[] [? [_ E]]]. by inversion E.
Qed.

Lemma onReady_processed o orderId w :
  _id o = Some orderId -> orderId <> "" -> orderId ∈ processedOrders w ->
  onReady (GetOrder (Some o)) w = (ExitAlreadyProcessed, w).
Proof.
  intros Hid Hne Hp. unfold onReady, reconcile. rewrite Hid.
  destruct orderId as [|c s]; [done|].
  unfold isOrderProcessed, gets, mbind, M_bind.
  by rewrite (bool_decide_eq_true_2 _ Hp).
Qed.

(** C3.  After a run for an order has completed, the order is marked
    processed and its lock is free, and a further run for the same order
    id, in that world or in any later one that still has the marker, finds
    the marker and returns at once: no donation processing, no intent
    loading, no matching, no write; the world, and with it the
    authoritative store, is left exactly as it was. *)
Theorem second_run_is_noop (o : order) (w w1 : world) :
  onReady (GetOrder (Some o)) w = (ExitDone, w1) ->
  (exists orderId, _id o = Some orderId /\
                   orderId ∈ processedOrders w1 /\ orderId ∉ locks w1) /\
  forall (o' : order) (w2 : world),
    _id o' = _id o -> processedOrders w1 ⊆ processedOrders w2 ->
    onReady (GetOrder (Some o')) w2 = (ExitAlreadyProcessed, w2).
Proof.
  intros H. destruct (onReady_done o w w1 H) as [orderId [Hid [Hne [Hp Hl]]]].
  split; [by exists orderId|].
  intros o' w2 Hid' Hsub.
  apply (onReady_processed o' orderId); [congruence | done | by apply Hsub].
Qed.

Lemma second_run_is_noop_witness :
  exists w1,
    onReady (GetOrder (Some Examples.paidOrder))
            (Examples.site (Json [Examples.majors]) [] []) = (ExitDone, w1) /\
    length (SeasonRegistration w1) = 1 /\
    onReady (GetOrder (Some Examples.paidOrder)) w1 =
      (ExitAlreadyProcessed, w1).
Proof.
  eexists. split; [vm_compute; reflexivity|]. split; [reflexivity|].
  refine (proj2 (second_run_is_noop Examples.paidOrder
                   (Examples.site (Json [Examples.majors]) [] []) _ _)
                Examples.paidOrder _ eq_refl _).
  - vm_compute. reflexivity.
  - done.
Defined.

(** *** The lock, by exit path *)

Lemma processDonations_locks o : stable locks (processDonations o).
Proof.
  unfold processDonations, syncDonation, saveDonation, isDonationSynced,
    setDonationSynced, insertSyncError, external, dateNow.
  stable.
Qed.

Lemma firstUnused_locks orderId items :
  stable locks (firstUnused orderId items).
Proof.
  induction items as [|p items IH]; simpl; [stable|].
  unfold querySeasonByOrder, jsonParse, updatePendingStatus, external.
  stable; apply IH.
Qed.

Lemma loadRegistrationQueue_locks o : stable locks (loadRegistrationQueue o).
Proof.
  unfold loadRegistrationQueue, cmsFallback, getRegQueue, queryPending,
    insertSyncError, dateNow, external.
  stable; apply firstUnused_locks.
Qed.

Lemma handleNoRegistrationData_locks o :
  stable locks (handleNoRegistrationData o).
Proof. unfold handleNoRegistrationData. stable. Qed.

Lemma saveAll_locks rs orderId acc : stable locks (saveAll rs orderId acc).
Proof.
  revert acc; induction rs as [|r rs IH]; intros acc; simpl; [stable|].
  unfold saveRegistration, dateNow. stable; apply IH.
Qed.

Lemma batchSaveRegistrations_locks rs orderId :
  stable locks (batchSaveRegistrations rs orderId).
Proof. unfold batchSaveRegistrations. stable; apply saveAll_locks. Qed.

Lemma cleanupSession_locks q matched src o :
  stable locks (cleanupSession q matched src o).
Proof.
  unfold cleanupSession, setRegQueue, queryPending, updatePendingStatus,
    external, dateNow.
  stable.
Qed.

Lemma bind_cases {S A B} (c : M S A) (k : A -> M S B) s r s' :
  (c ≫= k) s = (r, s') ->
  (exists a s1, c s = (Ok a, s1) /\ k a s1 = (r, s')) \/
  (exists e, c s = (Throw e, s') /\ r = Throw e).
Proof.
  unfold mbind, M_bind. destruct (c s) as [[a|e] s1]; intros H.
  - left. eauto.
  - right. inversion H; subst. eauto.
Qed.

(** Inside the locked section only [markOrderProcessed] touches the lock:
    the run that completes frees it, every other way out of [processOrder],
    returning or throwing, leaves it as it was. *)
Lemma processOrder_locks o orderId w r w' :
  processOrder o orderId w = (r, w') ->
  match r with
  | Ok ExitDone => locks w' = locks w ∖ {[orderId]}
  | Ok ExitNoData | Ok ExitNoMatch | Throw _ => locks w' = locks w
  | Ok _ => False
  end.
Proof.
  unfold processOrder. intros H.
  apply bind_cases in H as [[[] [w1 [E1 H]]]|[e [E1 ->]]];
    pose proof (stable_run locks _ _ _ _ (processDonations_locks o) E1) as L1;
    [|done].
  apply bind_cases in H as [[[q src] [w2 [E2 H]]]|[e [E2 ->]]];
    pose proof (stable_run locks _ _ _ _ (loadRegistrationQueue_locks o) E2)
      as L2; [|congruence].
  destruct (length q =? 0)%nat.
  { apply bind_cases in H as [[[] [w3 [E3 H]]]|[e [E3 ->]]];
      pose proof (stable_run locks _ _ _ _ (handleNoRegistrationData_locks o)
                    E3) as L3; [|congruence].
    inversion H; subst. congruence. }
  destruct (Matching.matchRegistrationsToLineItems q _) as [matched unmatched].
  destruct (length matched =? 0)%nat; [inversion H; subst; congruence|].
  apply bind_cases in H as [[t [w3 [E3 H]]]|[e [E3 ->]]];
    [|inversion E3].
  unfold dateNow, gets in E3. inversion E3; subst.
  apply bind_cases in H as [[batch [w4 [E4 H]]]|[e [E4 ->]]];
    pose proof (stable_run locks _ _ _ _
                  (batchSaveRegistrations_locks _ orderId) E4) as L4;
    [|congruence].
  apply bind_cases in H as [[[] [w5 [E5 H]]]|[e [E5 ->]]];
    pose proof (stable_run locks _ _ _ _
                  (cleanupSession_locks q matched src o) E5) as L5;
    [|congruence].
  apply bind_cases in H as [[[] [w6 [E6 H]]]|[e [E6 ->]]];
    [|inversion E6].
  unfold markOrderProcessed, modify in E6. inversion E6; subst.
  inversion H; subst. simpl. congruence.
Qed.

(** Which exits of the handler hold the lock afterwards: the run that
    completes and the run that ends in the [catch] have released it; the
    two [return]s inside the [try] block have not. *)
Lemma lock_by_exit_path o orderId w e w' :
  _id o = Some orderId -> orderId <> "" ->
  orderId ∉ processedOrders w -> orderId ∉ locks w ->
  onReady (GetOrder (Some o)) w = (e, w') ->
  match e with
  | ExitDone | ExitError _ => orderId ∉ locks w'
  | ExitNoData | ExitNoMatch => orderId ∈ locks w'
  | ExitNoElement | ExitNoOrder | ExitAlreadyProcessed | ExitLockBusy => False
  end.
Proof.
  intros Hid Hne Hp Hl. unfold onReady.
  rewrite (reconcile_locked o orderId w Hid Hne Hp Hl). unfold tryCatch.
  destruct (processOrder o orderId _) as [[x|err] w1] eqn:E;
    apply processOrder_locks in E; simpl in E.
  - intros H; inversion H; subst.
    destruct e; try done; rewrite E; simpl.
    + by apply elem_of_union_l, elem_of_singleton.
    + by apply elem_of_union_l, elem_of_singleton.
    + intros Hin. apply elem_of_difference in Hin as [_ Hin].
      by apply Hin, elem_of_singleton.
  - unfold releaseProcessingLock, modify, throw, mbind, M_bind; simpl.
    intros H; inversion H; subst; simpl. rewrite E.
    intros Hin. apply elem_of_difference in Hin as [_ Hin].
    by apply Hin, elem_of_singleton.
Qed.

(** *** The no-data abort *)

Lemma onReady_busy o orderId later :
  _id o = Some orderId -> orderId <> "" ->
  orderId ∈ locks later -> orderId ∉ processedOrders later ->
  onReady (GetOrder (Some o)) later = (ExitLockBusy, later).
Proof.
  intros Hid Hne Hl Hp. unfold onReady, reconcile. rewrite Hid.
  destruct orderId as [|c s]; [done|].
  unfold isOrderProcessed, acquireProcessingLock, gets, mbind, M_bind.
  by rewrite (bool_decide_eq_false_2 _ Hp), (bool_decide_eq_true_2 _ Hl).
Qed.

(** C4: the no-data abort does not leave the way open for a retry.  When
    the run has the lock, donation processing returns, and
    [loadRegistrationQueue] comes back with no registration (session queue
    empty, nothing recovered from the backup collection), the run aborts as
    claimed: it ends in the no-data return, or in the handler's [catch]
    when the report itself throws; the order is not marked processed, the
    authoritative store is as it was before the run, and
    [handleNoRegistrationData] has been called exactly once, with the
    order.  But the no-data return leaves the lock held, so every later run
    for the order that finds the lock and the markers as they were left
    stops at lock acquisition, whatever else has changed (a backup record
    added in between is not looked at): recovery is not retried.  Only the
    run that ends in the [catch] has released the lock, and after it a
    later run does enter donation processing and recovery again. *)
Theorem no_data_aborts (o : order) (orderId : string) (w wd wq : world)
    (q : list registration) (src : dataSource) :
  _id o = Some orderId -> orderId <> "" ->
  orderId ∉ processedOrders w -> orderId ∉ locks w ->
  processDonations o (with_locks ({[orderId]} ∪ locks w) w) = (Ok tt, wd) ->
  loadRegistrationQueue o wd = (Ok (q, src), wq) ->
  length q = 0 ->
  exists e w',
    onReady (GetOrder (Some o)) w = (e, w') /\
    processedOrders w' = processedOrders w /\
    SeasonRegistration w' = SeasonRegistration w /\
    dataLossReports w' = dataLossReports w ++ [o] /\
    ((e = ExitNoData /\ (orderId ∈ locks w') /\
      forall later,
        locks later = locks w' ->
        processedOrders later = processedOrders w' ->
        onReady (GetOrder (Some o)) later = (ExitLockBusy, later)) \/
     ((exists error, e = ExitError error) /\ (orderId ∉ locks w') /\
      forall later,
        locks later = locks w' ->
        processedOrders later = processedOrders w' ->
        reconcile (GetOrder (Some o)) later =
        tryCatch (processOrder o orderId)
          (fun error => _ ← releaseProcessingLock orderId; throw error)
          (with_locks ({[orderId]} ∪ locks later) later))).
Proof.
  intros Hid Hne Hp Hl Hd Hq Hlen.
  pose proof (stable_run ledger _ _ _ _ (processDonations_ledger o) Hd) as Ed.
  pose proof (stable_run ledger _ _ _ _ (loadRegistrationQueue_ledger o) Hq) as Eq.
  rewrite Ed in Eq. unfold ledger in Eq; simpl in Eq.
  injection Eq as _ Ep Es Er.
  assert (Hrun : exists e w',
    onReady (GetOrder (Some o)) w = (e, w') /\
    (e = ExitNoData \/ exists error, e = ExitError error) /\
    processedOrders w' = processedOrders w /\
    SeasonRegistration w' = SeasonRegistration w /\
    dataLossReports w' = dataLossReports w ++ [o]).
  { unfold onReady. rewrite (reconcile_locked o orderId w Hid Hne Hp Hl).
    unfold tryCatch at 1.
    rewrite (processOrder_no_data o orderId _ wd wq q src Hd Hq Hlen).
    unfold handleNoRegistrationData, nextReply, modify, mbind, M_bind; simpl.
    destruct (replies wq) as [|[| |error] rs]; simpl;
      eexists _, _; (split; [reflexivity|]); simpl;
      rewrite ?Ep, ?Es, ?Er; (split; [eauto|]); done. }
  destruct Hrun as (e & w' & Hrun & He & Hp' & Hs' & Hr').
  exists e, w'. split; [done|]. split; [done|]. split; [done|].
  split; [done|].
  pose proof (lock_by_exit_path o orderId w e w' Hid Hne Hp Hl Hrun) as Hlock.
  destruct He as [He|[error He]]; subst e; simpl in Hlock.
  - left. split; [done|]. split; [done|].
    intros later Hll Hlp. apply (onReady_busy o orderId); [done|done| |].
    + by rewrite Hll.
    + by rewrite Hlp, Hp'.
  - right. split; [by exists error|]. split; [done|].
    intros later Hll Hlp. apply reconcile_locked; [done|done| |].
    + by rewrite Hlp, Hp'.
    + by rewrite Hll.
Qed.

Lemma no_data_aborts_witness :
  exists w',
    onReady (GetOrder (Some Examples.paidOrder))
            (Examples.site Absent [] []) = (ExitNoData, w') /\
    processedOrders w' = processedOrders (Examples.site Absent [] []) /\
    SeasonRegistration w' = SeasonRegistration (Examples.site Absent [] []) /\
    dataLossReports w' =
      dataLossReports (Examples.site Absent [] []) ++ [Examples.paidOrder] /\
    ("order-1" ∈ locks w') /\
    onReady (GetOrder (Some Examples.paidOrder))
      (with_PendingRegistrations
         [Examples.backup "pending-1" 0 "pending" (Json [Examples.majors])]
         w') =
    (ExitLockBusy,
     with_PendingRegistrations
       [Examples.backup "pending-1" 0 "pending" (Json [Examples.majors])]
       w').
Proof.
  destruct (no_data_aborts Examples.paidOrder "order-1"
              (Examples.site Absent [] [])
              (with_locks {["order-1"]} (Examples.site Absent [] []))
              (with_locks {["order-1"]} (Examples.site Absent [] []))
              [] FromNone)
    as (e & w' & Hrun & Hp & Hs & Hr & [(He & Hl & Hbusy)|([error He] & _)]).
  - reflexivity.
  - discriminate.
  - apply (bool_decide_unpack _). by vm_compute.
  - apply (bool_decide_unpack _). by vm_compute.
  - vm_compute. reflexivity.
  - vm_compute. reflexivity.
  - reflexivity.
  - subst e. exists w'. split; [done|]. split; [done|]. split; [done|].
    split; [done|]. split; [done|]. by apply Hbusy.
  - subst e. exfalso. vm_compute in Hrun. discriminate Hrun.
Defined.

(** *** Intent loading *)

(** C10 (amended).  With the session queue empty, when the backup-store
    query, the deserialisation or the status update throws, the error is
    caught and, provided appending the audit record does not throw in its
    turn, a [CMS_RETRIEVAL_FAILED] record is appended and the function
    returns the empty list with source none; the handler then takes the
    no-data path.  (When the audit insert throws as well, that exception
    leaves [loadRegistrationQueue].) *)
Theorem load_catches_retrieval_failure (o : order) (w wb : world)
    (e : string) :
  parseQueue (regQueueItem w) = [] ->
  cmsFallback o w = (Throw e, wb) ->
  (forall e', head (replies wb) <> Some (Raise e')) ->
  exists w',
    loadRegistrationQueue o w = (Ok ([], FromNone), w') /\
    AirtableSyncErrors w' =
      AirtableSyncErrors wb ++ [retrievalFailed o (now wb)] /\
    errorType (retrievalFailed o (now wb)) = "CMS_RETRIEVAL_FAILED" /\
    forall orderId w0,
      processDonations o w0 = (Ok tt, w) ->
      processOrder o orderId w0 =
      (handleNoRegistrationData o ≫= fun _ => mret ExitNoData) w'.
Proof.
  intros Hq Hb Hr.
  assert (H : exists w',
    loadRegistrationQueue o w = (Ok ([], FromNone), w') /\
    AirtableSyncErrors w' =
      AirtableSyncErrors wb ++ [retrievalFailed o (now wb)]).
  { unfold loadRegistrationQueue, getRegQueue, gets.
    unfold mbind at 1, M_bind at 1. rewrite Hq; simpl.
    unfold mbind at 1, M_bind at 1.
    rewrite (tryCatch_Throw _ _ _ _ _ Hb).
    unfold dateNow, gets, insertSyncError, external, nextReply, modify,
      mbind, M_bind, mret, M_ret, throw.
    destruct (replies wb) as [|[| |e'] rs]; simpl; eauto.
    by destruct (Hr e'). }
  destruct H as [w' [Hl Ha]]. exists w'.
  split; [done|]. split; [done|]. split; [done|].
  intros orderId w0 Hd.
  by apply (processOrder_no_data o orderId w0 w w' [] FromNone).
Qed.

Lemma load_catches_retrieval_failure_witness :
  exists w',
    loadRegistrationQueue Examples.paidOrder
      (Examples.site Absent [] [Raise "WDE0028"]) =
      (Ok ([], FromNone), w') /\
    errorType <$> AirtableSyncErrors w' = ["CMS_RETRIEVAL_FAILED"].
Proof.
  destruct (load_catches_retrieval_failure Examples.paidOrder
              (Examples.site Absent [] [Raise "WDE0028"])
              (Examples.site Absent [] []) "WDE0028")
    as [w' [Hl [Ha _]]].
  - reflexivity.
  - vm_compute. reflexivity.
  - intros e'. discriminate.
  - exists w'. split; [exact Hl|]. rewrite Ha. reflexivity.
Defined.

(** C10, as stated, fails when the audit insert throws too: the backup
    query throws, the [catch] block's insert into [AirtableSyncErrors]
    throws, and that exception leaves [loadRegistrationQueue]. *)
Lemma load_propagates_audit_failure_counterexample :
  parseQueue (regQueueItem
                (Examples.site Absent [] [Raise "WDE0028"; Raise "WDE0053"]))
    = [] /\
  loadRegistrationQueue Examples.paidOrder
    (Examples.site Absent [] [Raise "WDE0028"; Raise "WDE0053"]) =
  (Throw "WDE0053", Examples.site Absent [] []).
Proof. split; [reflexivity | vm_compute; reflexivity]. Qed.

End ThankYouProofs.

(** ** Recovery from the backup collection *)

Module RecoveryProofs.
Import SessionManager WixData ThankYou MonadFacts Recovery.

#[local] Instance newerFirst_total : Total newerFirst.
Proof. intros a b. unfold newerFirst. lia. Qed.

#[local] Instance newerFirst_trans : Transitive newerFirst.
Proof. intros a b c. unfold newerFirst. lia. Qed.

Lemma candidates_elem o w p : p ∈ candidates o w <-> eligible o w p.
Proof.
  unfold candidates, selectPending, limited, eligible.
  rewrite merge_sort_Permutation, list_elem_of_filter. tauto.
Qed.

Lemma candidates_sorted o w : StronglySorted newerFirst (candidates o w).
Proof. apply StronglySorted_merge_sort; apply _. Qed.

Lemma selectSeason_nil oid items :
  selectSeason oid items = [] <->
  Forall (fun r => Some (paid_orderId r) <> oid) items.
Proof.
  unfold selectSeason. induction items as [|r items IH]; simpl.
  - split; [constructor | done].
  - rewrite filter_cons. destruct (decide (Some (paid_orderId r) = oid)); simpl.
    + split; [done | by inversion 1].
    + rewrite IH. split; [by constructor | by inversion 1].
Qed.

Lemma external_inv {A} (c : M world A) w a w' :
  external c w = (Ok a, w') ->
  exists w1, stores w1 = stores w /\ c w1 = (Ok a, w').
Proof.
  unfold external, nextReply, mbind, M_bind.
  destruct (replies w) as [|[| |e] rs]; simpl; intros H;
    first [discriminate H | eexists; split; [|exact H]; reflexivity].
Qed.

Lemma external_calm {A} (c : M world A) w :
  calm (replies w) ->
  exists w1, stores w1 = stores w /\ calm (replies w1) /\
             external c w = c w1.
Proof.
  unfold calm, external, nextReply, mbind, M_bind. intros H.
  destruct (replies w) as [|r rs] eqn:E; simpl.
  - exists w. rewrite E. done.
  - apply Forall_cons in H as [Hr H]. exists (with_replies rs w).
    split; [done|]. split; [done|].
    destruct r as [| |e]; [done..|by destruct (Hr e)].
Qed.

Lemma firstUnused_recorded oid items w :
  selectSeason oid (SeasonRegistration w) <> [] ->
  forall r w', firstUnused oid items w <> (Ok (Some r), w').
Proof.
  revert w; induction items as [|p items IH]; intros w Hs r w' H; simpl in H.
  - by inversion H.
  - apply bind_inv in H as [found [w1 [Hf H]]].
    apply external_inv in Hf as [w0 [Hw Hf]].
    unfold gets in Hf. inversion Hf; subst.
    unfold stores in Hw. injection Hw as _ Hw _. rewrite Hw in H.
    destruct (selectSeason oid (SeasonRegistration w)) as [|x xs] eqn:E;
      [done|]. simpl in H.
    apply (IH w1) in H; [done|]. by rewrite Hw, E.
Qed.

Lemma firstUnused_Some oid items w q src w' :
  firstUnused oid items w = (Ok (Some (q, src)), w') ->
  exists p rest,
    items = p :: rest /\
    selectSeason oid (SeasonRegistration w) = [] /\
    registrations p <> Corrupt /\ q = parseQueue (registrations p) /\
    src = FromCms /\
    PendingRegistrations w' =
      setStatus (pending_id p) "processing" <$> PendingRegistrations w.
Proof.
  destruct items as [|p rest]; simpl; intros H; [by inversion H|].
  exists p, rest. split; [done|].
  apply bind_inv in H as [found [w1 [Hf H]]].
  apply external_inv in Hf as [w0 [Hw Hf]].
  unfold gets in Hf. inversion Hf; subst.
  unfold stores in Hw. injection Hw as Hp Hs _. rewrite Hs in H.
  destruct (selectSeason oid (SeasonRegistration w)) as [|x xs] eqn:E.
  - split; [done|]. simpl in H.
    apply bind_inv in H as [q' [w2 [Hj H]]].
    apply bind_inv in H as [[] [w3 [Hu H]]].
    inversion H; subst.
    apply external_inv in Hu as [w4 [Hw4 Hu]].
    unfold modify in Hu. inversion Hu; subst; simpl.
    unfold stores in Hw4. injection Hw4 as Hp4 _ _.
    unfold jsonParse in Hj.
    destruct (registrations p) eqn:Er; inversion Hj; subst;
      (split; [done|]); (split; [done|]); (split; [done|]);
      by rewrite Hp4, Hp.
  - simpl in H. exfalso.
    apply (firstUnused_recorded oid rest w1) in H; [done|].
    by rewrite Hs, E.
Qed.

Lemma load_from_cms o w q w' :
  loadRegistrationQueue o w = (Ok (q, FromCms), w') ->
  exists p rest,
    candidates o w = p :: rest /\ unrecorded o w /\
    registrations p <> Corrupt /\ q = parseQueue (registrations p) /\
    PendingRegistrations w' =
      setStatus (pending_id p) "processing" <$> PendingRegistrations w.
Proof.
  unfold loadRegistrationQueue. intros H.
  apply bind_inv in H as [queue [w0 [Hg H]]].
  unfold getRegQueue, gets in Hg. inversion Hg; subst.
  destruct (0 <? length (parseQueue (regQueueItem w0)))%nat;
    [by inversion H|].
  apply bind_inv in H as [found [w1 [Hf H]]].
  destruct found as [r|]; [|by inversion H].
  inversion H; subst.
  apply tryCatch_inv in Hf as [Hf|[e [wb [_ Hf]]]].
  - unfold cmsFallback in Hf. fold (buyerOf o) in Hf.
    destruct (Js.truthy (buyerOf o)); simpl in Hf; [|by inversion Hf].
    apply bind_inv in Hf as [t [w2 [Ht Hf]]].
    unfold dateNow, gets in Ht. inversion Ht; subst.
    apply bind_inv in Hf as [items [w3 [Hi Hf]]].
    apply external_inv in Hi as [w4 [Hw Hi]].
    unfold gets in Hi. inversion Hi; subst.
    unfold stores in Hw. injection Hw as Hp Hs Hn.
    rewrite Hp in Hf.
    match type of Hf with context [firstUnused _ ?l] =>
      change l with (candidates o w2) in Hf end.
    destruct (0 <? length (candidates o w2))%nat; [|by inversion Hf].
    apply firstUnused_Some in Hf
      as [p [rest [Hc [Hsel [Hcor [Hq [_ Hpend]]]]]]].
    exists p, rest. split; [done|]. split.
    { apply selectSeason_nil. by rewrite <- Hs. }
    split; [done|]. split; [done|]. by rewrite Hpend, Hp.
  - apply bind_inv in Hf as [t [? [_ Hf]]].
    apply bind_inv in Hf as [[] [? [_ Hf]]]. by inversion Hf.
Qed.

Lemma load_recovers o w p rest :
  parseQueue (regQueueItem w) = [] ->
  Js.truthy (buyerOf o) = true ->
  candidates o w = p :: rest -> unrecorded o w ->
  registrations p <> Corrupt -> calm (replies w) ->
  exists w',
    loadRegistrationQueue o w =
      (Ok (parseQueue (registrations p), FromCms), w') /\
    PendingRegistrations w' =
      setStatus (pending_id p) "processing" <$> PendingRegistrations w.
Proof.
  intros Hq Hb Hc Hu Hcor Hcalm.
  destruct (external_calm
              (gets (fun w0 => selectPending (buyerOf o) "pending"
                                 (now w - twoHours) None
                                 (PendingRegistrations w0))) w Hcalm)
    as [w1 [Hw1 [Hcalm1 E1]]].
  destruct (external_calm
              (gets (fun w => selectSeason (_id o) (SeasonRegistration w)))
              w1 Hcalm1) as [w2 [Hw2 [Hcalm2 E2]]].
  destruct (external_calm
              (modify (fun w => with_PendingRegistrations
                 (setStatus (pending_id p) "processing" <$>
                  PendingRegistrations w) w)) w2 Hcalm2)
    as [w3 [Hw3 [_ E3]]].
  unfold stores in Hw1, Hw2, Hw3.
  injection Hw1 as Hp1 Hs1 Hn1. injection Hw2 as Hp2 Hs2 _.
  injection Hw3 as Hp3 _ _.
  eexists. split.
  - unfold loadRegistrationQueue, getRegQueue, gets.
    unfold mbind at 1, M_bind at 1. rewrite Hq; simpl.
    unfold mbind at 1, M_bind at 1. unfold tryCatch.
    unfold cmsFallback. fold (buyerOf o). rewrite Hb; simpl.
    unfold dateNow, gets. unfold mbind at 1, M_bind at 1.
    unfold queryPending. unfold mbind at 1, M_bind at 1.
    rewrite E1. unfold gets at 1. rewrite Hp1.
    fold (candidates o w). rewrite Hc. simpl.
    unfold querySeasonByOrder. unfold mbind at 1, M_bind at 1.
    rewrite E2. unfold gets at 1. rewrite Hs2, Hs1.
    rewrite (proj2 (selectSeason_nil _ _) Hu). simpl.
    unfold mbind at 1, M_bind at 1.
    unfold updatePendingStatus.
    destruct (registrations p) eqn:Er; [|done|]; simpl;
      unfold mbind at 1, M_bind at 1; rewrite E3; reflexivity.
  - simpl. by rewrite Hp3, Hp2, Hp1.
Qed.

(** C6 (amended).  With the session queue empty, recovery considers
    exactly the backup records of the order's buyer that are pending and were created
    within the last two hours, most recent first; so a record created three
    hours ago is never considered, and never returned.  Whenever
    [loadRegistrationQueue] answers from the backup collection, it answers
    with the first of these candidates, the authoritative store holds no
    record of the order (the store is queried for the order's id, the same
    query for every candidate, as the backup records carry no order id),
    the registrations returned are the ones deserialised from that record,
    and the record has been moved to status processing.  And when the first
    candidate qualifies in this way and no external call throws, it is
    returned. *)
Theorem backup_recovery (o : order) (w : world) :
  parseQueue (regQueueItem w) = [] ->
  (Forall (eligible o w) (candidates o w) /\
   StronglySorted newerFirst (candidates o w)) /\
  (forall p, (createdAt p <= now w - threeHours)%Z -> p ∉ candidates o w) /\
  (forall q w',
     loadRegistrationQueue o w = (Ok (q, FromCms), w') ->
     exists p rest,
       candidates o w = p :: rest /\ unrecorded o w /\
       registrations p <> Corrupt /\ q = parseQueue (registrations p) /\
       (now w - threeHours < createdAt p)%Z /\
       PendingRegistrations w' =
         setStatus (pending_id p) "processing" <$> PendingRegistrations w) /\
  (forall p rest,
     Js.truthy (buyerOf o) = true ->
     candidates o w = p :: rest -> unrecorded o w ->
     registrations p <> Corrupt -> calm (replies w) ->
     exists w',
       loadRegistrationQueue o w =
         (Ok (parseQueue (registrations p), FromCms), w') /\
       PendingRegistrations w' =
         setStatus (pending_id p) "processing" <$> PendingRegistrations w).
Proof.
  intros Hq.
  assert (Hold : forall p, (createdAt p <= now w - threeHours)%Z ->
                           p ∉ candidates o w).
  { intros p Hp Hin. apply candidates_elem in Hin as [_ [_ [_ Hin]]].
    unfold twoHours, threeHours in *. lia. }
  split; [split|split; [exact Hold|split]].
  - apply Forall_forall. intros p. apply candidates_elem.
  - apply candidates_sorted.
  - intros q w' Hl.
    destruct (load_from_cms o w q w' Hl)
      as [p [rest [Hc [Hu [Hcor [Hq' Hp]]]]]].
    exists p, rest. repeat (split; [done|]). split; [|done].
    destruct (Z.lt_ge_cases (now w - threeHours) (createdAt p)) as [|Hge];
      [done|].
    destruct (Hold p Hge). rewrite Hc. by left.
  - intros p rest Hb Hc Hu Hcor Hcalm. by apply (load_recovers o w p rest).
Qed.

Lemma backup_recovery_witness :
  parseQueue (regQueueItem
    (Examples.site Absent
       [Examples.backup "backup-old" Examples.threeHoursAgo "pending"
          (Json [Examples.minors]);
        Examples.backup "backup-new" Examples.hour "pending"
          (Json [Examples.majors])] [])) = [] /\
  exists w',
    loadRegistrationQueue Examples.paidOrder
      (Examples.site Absent
         [Examples.backup "backup-old" Examples.threeHoursAgo "pending"
            (Json [Examples.minors]);
          Examples.backup "backup-new" Examples.hour "pending"
            (Json [Examples.majors])] []) =
      (Ok ([Examples.majors], FromCms), w') /\
    PendingRegistrations w' =
      [Examples.backup "backup-old" Examples.threeHoursAgo "pending"
         (Json [Examples.minors]);
       Examples.backup "backup-new" Examples.hour "processing"
         (Json [Examples.majors])].
Proof.
  split; [reflexivity|].
  refine (proj2 (proj2 (proj2 (backup_recovery Examples.paidOrder
            (Examples.site Absent
               [Examples.backup "backup-old" Examples.threeHoursAgo
                  "pending" (Json [Examples.minors]);
                Examples.backup "backup-new" Examples.hour "pending"
                  (Json [Examples.majors])] []) eq_refl)))
            (Examples.backup "backup-new" Examples.hour "pending"
               (Json [Examples.majors])) [] eq_refl _ _ _ _).
  - vm_compute. reflexivity.
  - constructor.
  - discriminate.
  - constructor.
Defined.

End RecoveryProofs.

(** ** The registration page and the intent queue *)

Module QueueProofs.
Import SessionManager NewSeasonReg MonadFacts QueueSpec.

Lemma sameIdentity_spec reg r :
  sameIdentity reg r = true <-> identity r = identity reg.
Proof.
  unfold sameIdentity, identity.
  rewrite !andb_true_iff, !String.eqb_eq. split.
  - intros [[-> ->] ->]. done.
  - intros H; by inversion H.
Qed.

Lemma existsb_sameIdentity reg queue :
  existsb (sameIdentity reg) queue = true <->
  identity reg ∈ identity <$> queue.
Proof.
  rewrite existsb_exists, list_elem_of_fmap. split.
  - intros [r [Hin Hs]]. exists r. split.
    + symmetry. by apply sameIdentity_spec.
    + by apply list_elem_of_In.
  - intros [r [Hs Hin]]. exists r. split.
    + by apply list_elem_of_In.
    + by apply sameIdentity_spec.
Qed.

(** The duplicate check does not touch the queue, finds every identity
    that is in the queue, and says so with one of its two messages. *)
Lemma checkForDuplicates_spec reg w :
  exists d w',
    checkForDuplicates reg w = (Ok d, w') /\
    regQueueItem w' = regQueueItem w /\
    (isDuplicate d = false ->
     existsb (sameIdentity reg) (parseQueue (regQueueItem w)) = false) /\
    (isDuplicate d = true ->
     message d = inRecords \/ message d = inQueue).
Proof.
  unfold checkForDuplicates, queryRegistered, WixData.external, nextReply,
    isDuplicateInQueue, getRegQueue, tryCatch, gets, throw, mbind, M_bind,
    mret, M_ret; simpl.
  destruct (replies w) as [|[| |e] rs]; simpl;
    repeat match goal with
           | |- context [if ?b then _ else _] => destruct b eqn:?; simpl
           end;
    eexists _, _; (split; [reflexivity|]); simpl;
    (split; [done|]); (split; [done || congruence|]);
    unfold inRecords, inQueue; first [done | auto].
Qed.

Lemma fetchFee_spec f w :
  exists fee w', fetchFee f w = (Ok fee, w') /\
                 regQueueItem w' = regQueueItem w.
Proof.
  unfold fetchFee, retry, nextReply, tryCatch, throw, mbind, M_bind,
    mret, M_ret.
  destruct (replies w) as [|[| |e] rs]; simpl; eauto.
Qed.

Lemma backup_spec reg h p :
  (forall e q, exists q', h e q = (Ok tt, q') /\ site q' = site q) ->
  exists p', tryCatch (saveRegistrationBackup reg) h p = (Ok tt, p') /\
             regQueueItem (site p') = regQueueItem (site p).
Proof.
  intros Hh.
  unfold saveRegistrationBackup, retry, onSite, nextReply, tryCatch, throw,
    modify, mbind, M_bind.
  destruct (replies (site p)) as [|[| |e] rs]; simpl; eauto.
  match goal with |- context [h e ?q] =>
    destruct (Hh e q) as [q' [-> Hs]] end.
  exists q'. by rewrite Hs.
Qed.

(** What one click does to the queue: nothing, or one appended intent
    whose identity was not there. *)
Lemma submit_queue f p :
  exists r p',
    submit f p = (r, p') /\
    (queueOf p' = queueOf p \/
     exists item, queueOf p' = queueOf p ++ [item] /\
                  identity item ∉ identity <$> queueOf p) /\
    forall reg, submits f reg ->
                identity reg ∈ identity <$> queueOf p ->
                r = Ok tt /\ queueOf p' = queueOf p /\
                (textError p' = Some inRecords \/
                 textError p' = Some inQueue).
Proof.
  unfold submit.
  destruct (isFormValid f) eqn:Hv; simpl.
  { destruct (divisionClosed f) eqn:Hc; simpl.
    - eexists _, _. split; [reflexivity|]. split; [by left|].
      intros reg [_ [Hc' _]]. congruence.
    - unfold mbind at 1, M_bind at 1.
      destruct (collectFormData f) as [raw|e] eqn:Hraw.
      + set (reg := sanitizeRegistration f raw).
        destruct (validateRegistration f reg) as [e|] eqn:Hval.
        * eexists _, _. split; [reflexivity|]. split; [by left|].
          intros reg' [_ [_ [[raw' [Hr ->]] Hv']]].
          assert (raw' = raw) by congruence. subst raw'.
          fold reg in Hv'. congruence.
        * unfold mbind at 1, M_bind at 1. unfold mret at 1, M_ret at 1.
          unfold mbind at 1, M_bind at 1.
          destruct (backup_spec reg
            (fun _ => _ ← safeShowError
               "Warning: Backup save failed. Please contact support if issues occur. Continuing...";
               safeHideError) p) as [p1 [-> Hq1]].
          { intros e q. eexists. split; reflexivity. }
          unfold mbind at 1, M_bind at 1. unfold onSite at 1.
          destruct (checkForDuplicates_spec reg (site p1))
            as [d [w2 [-> [Hq2 [Hno Hyes]]]]].
          destruct (isDuplicate d) eqn:Hd.
          -- eexists _, _. split; [reflexivity|].
             assert (Hsame : queueOf
                       (with_registerEnabled true
                          (with_textError (Some (message d))
                             (with_site w2 p1))) = queueOf p).
             { unfold queueOf; simpl. by rewrite Hq2, Hq1. }
             split; [by left|].
             intros _ _ _. split; [done|]. split; [done|]. simpl.
             destruct (Hyes eq_refl) as [-> | ->]; auto.
          -- unfold mbind at 1, M_bind at 1. unfold onSite at 1.
             destruct (fetchFee_spec f (site (with_site w2 p1)))
               as [fee [w3 [-> Hq3]]].
             eexists _, _. split; [reflexivity|].
             assert (Hq : parseQueue (regQueueItem w3) = queueOf p).
             { unfold queueOf. by rewrite Hq3, <- Hq1, <- Hq2. }
             assert (Hnew : identity reg ∉ identity <$> queueOf p).
             { intros Hin. apply existsb_sameIdentity in Hin.
               unfold queueOf in Hin. rewrite <- Hq1 in Hin.
               rewrite (Hno eq_refl) in Hin. done. }
             split.
             ++ right. exists (ThankYou.withFee reg fee).
                split; [|done]. unfold queueOf; simpl. by rewrite Hq.
             ++ intros reg' [_ [_ [[raw' [Hr ->]] _]]] Hin.
                assert (raw' = raw) by congruence. subst raw'.
                by destruct Hnew.
      + eexists _, _. split; [reflexivity|]. split; [by left|].
        intros reg [_ [_ [[raw [Hr _]] _]]]. congruence. }
  eexists _, _. split; [reflexivity|]. split; [by left|].
  intros reg [Hv' _]. congruence.
Qed.

Lemma duplicateFree_snoc queue item :
  duplicateFree queue -> identity item ∉ identity <$> queue ->
  duplicateFree (queue ++ [item]).
Proof.
  unfold duplicateFree. intros Hq Hi. rewrite fmap_app. simpl.
  apply NoDup_app. split; [done|]. split; [|apply NoDup_singleton].
  intros x Hx Hx'. apply list_elem_of_singleton in Hx'. by subst.
Qed.

(** C7 (amended).  Duplicates are kept out of the queue by the Register
    click, not by the queue's add: the click never throws; when the
    registration it submits has an identity (player, season, sport) that is
    already in the queue, the duplicate check stops it with the duplicate
    message and the queue is left as it was; and a queue without two
    intents of one identity is still so after the click.
    ([addToRegQueue] itself appends whatever it is given.) *)
Theorem register_click_suppresses_duplicates (f : form) (p : page) :
  duplicateFree (queueOf p) ->
  exists p',
    handleRegisterClick f p = (Ok tt, p') /\
    duplicateFree (queueOf p') /\
    forall reg, submits f reg ->
                identity reg ∈ identity <$> queueOf p ->
                queueOf p' = queueOf p /\
                (textError p' = Some inRecords \/
                 textError p' = Some inQueue).
Proof.
  intros Hfree.
  unfold handleRegisterClick, disableRegister, modify.
  unfold mbind at 1, M_bind at 1. unfold tryCatch.
  destruct (submit_queue f (with_registerEnabled false p))
    as [r [p1 [-> [Hq Hdup]]]].
  change (queueOf (with_registerEnabled false p)) with (queueOf p) in *.
  assert (Hfree1 : duplicateFree (queueOf p1)).
  { destruct Hq as [-> | [item [-> Hnew]]]; [done|].
    by apply duplicateFree_snoc. }
  destruct r as [[]|e].
  - exists p1. split; [done|]. split; [done|].
    intros reg Hs Hin. by destruct (Hdup reg Hs Hin) as [_ ?].
  - eexists. split; [reflexivity|]. split; [done|].
    intros reg Hs Hin. by destruct (Hdup reg Hs Hin) as [? _].
Qed.

Lemma register_click_suppresses_duplicates_witness :
  duplicateFree (queueOf (Examples.registrationPage [Examples.majors])) /\
  exists p',
    handleRegisterClick (Examples.click Examples.majors)
      (Examples.registrationPage [Examples.majors]) = (Ok tt, p') /\
    duplicateFree (queueOf p') /\
    queueOf p' = [Examples.majors] /\
    (textError p' = Some inRecords \/ textError p' = Some inQueue).
Proof.
  assert (H : duplicateFree
                (queueOf (Examples.registrationPage [Examples.majors]))).
  { apply NoDup_singleton. }
  split; [exact H|].
  destruct (register_click_suppresses_duplicates
              (Examples.click Examples.majors)
              (Examples.registrationPage [Examples.majors]) H)
    as [p' [Hrun [Hfree Hdup]]].
  exists p'. split; [exact Hrun|]. split; [exact Hfree|].
  apply (Hdup Examples.majors).
  - split; [reflexivity|]. split; [reflexivity|].
    split; [by exists Examples.majors | reflexivity].
  - by left.
Defined.

(** C7, as stated, fails on the queue's add: [addToRegQueue] called twice
    with the same intent appends it twice, and the queue then holds two
    intents of one identity. *)
Lemma addToRegQueue_duplicate_counterexample :
  exists w,
    (_ ← addToRegQueue Examples.majors; addToRegQueue Examples.majors)
      (Examples.site Absent [] []) = (Ok tt, w) /\
    parseQueue (regQueueItem w) = [Examples.majors; Examples.majors] /\
    ~ duplicateFree (parseQueue (regQueueItem w)).
Proof.
  eexists. split; [vm_compute; reflexivity|]. split; [reflexivity|].
  simpl. unfold duplicateFree. intros H.
  apply NoDup_cons in H as [H _]. apply H. by left.
Qed.

End QueueProofs.

(** ** The circuit breaker *)

Module BreakerProofs.
Import CircuitBreaker BreakerSpec.

Lemma execute_closed_failure {St A} t (operation : M St A) b s e s' :
  state_of b = CLOSED -> operation s = (Throw e, s') ->
  execute t operation b s = (Throw e, s', onFailure t b).
Proof. unfold execute, enter. by intros -> ->. Qed.

Lemma onFailure_closed t b n :
  state_of b = CLOSED -> failureCount b = n ->
  onFailure t b =
  if (failureThreshold <=? S n)%nat
  then Breaker OPEN (S n) (successCount b) (Some (t + cooldown)%Z)
  else Breaker CLOSED (S n) (successCount b) (nextAttemptTime b).
Proof. unfold onFailure. by intros -> ->. Qed.

(** One failing call on a CLOSED breaker that has counted [n] failures. *)
Lemma closed_failure_step {St A} t (operation : M St A) b s n :
  fails operation -> state_of b = CLOSED -> failureCount b = n ->
  exists e s',
    operation s = (Throw e, s') /\
    execute t operation b s =
    (Throw e, s',
     if (failureThreshold <=? S n)%nat
     then Breaker OPEN (S n) (successCount b) (Some (t + cooldown)%Z)
     else Breaker CLOSED (S n) (successCount b) (nextAttemptTime b)).
Proof.
  intros Hf Hs Hn. destruct (Hf s) as [e [s' Hop]]. exists e, s'.
  split; [done|].
  by rewrite (execute_closed_failure t operation b s e s' Hs Hop),
    (onFailure_closed t b n Hs Hn).
Qed.

(** C9.  (a) Five failing calls in a row on a CLOSED breaker with no
    failure counted leave it OPEN with [nextAttemptTime] 60 seconds after
    the fifth, each of the five having invoked its operation.  (b) While
    OPEN and before [nextAttemptTime], every call fails with CircuitOpen
    and neither the operation's state nor the breaker changes: the
    operation is not invoked.  (c) Once [nextAttemptTime] has elapsed the
    next call moves the breaker to HALF_OPEN and is let through as the
    trial; no further call passes while the breaker is HALF_OPEN; when the
    trial succeeds the breaker is CLOSED with its counters reset, and when
    it fails the breaker is OPEN again with [nextAttemptTime] 60 seconds
    after the trial. *)
Theorem breaker_transitions {St A : Type} :
  (forall (b : breaker) (s : St) t1 t2 t3 t4 t5
          (op1 op2 op3 op4 op5 : M St A),
     state_of b = CLOSED -> failureCount b = 0 ->
     fails op1 -> fails op2 -> fails op3 -> fails op4 -> fails op5 ->
     exists e1 e2 e3 e4 e5 s1 s2 s3 s4 s5,
       op1 s = (Throw e1, s1) /\ op2 s1 = (Throw e2, s2) /\
       op3 s2 = (Throw e3, s3) /\ op4 s3 = (Throw e4, s4) /\
       op5 s4 = (Throw e5, s5) /\
       executeAll [(t1, op1); (t2, op2); (t3, op3); (t4, op4); (t5, op5)]
                  b s =
       ([Throw e1; Throw e2; Throw e3; Throw e4; Throw e5], s5,
        Breaker OPEN 5 (successCount b) (Some (t5 + 60000)%Z))) /\
  (forall (b : breaker) (s : St) t u (operation : M St A),
     state_of b = OPEN -> nextAttemptTime b = Some u -> (t < u)%Z ->
     execute t operation b s = (Throw CircuitOpen, s, b)) /\
  (forall (b : breaker) (s : St) t u (operation : M St A),
     state_of b = OPEN -> nextAttemptTime b = Some u -> (u <= t)%Z ->
     exists trial,
       enter t b = Some trial /\ state_of trial = HALF_OPEN /\
       (forall t', enter t' trial = None) /\
       (forall t' (other : M St A) s0,
          execute t' other trial s0 = (Throw CircuitOpen, s0, trial)) /\
       (forall a s', operation s = (Ok a, s') ->
          execute t operation b s = (Ok a, s', Breaker CLOSED 0 0 None)) /\
       (forall e s', operation s = (Throw e, s') ->
          exists b',
            execute t operation b s = (Throw e, s', b') /\
            state_of b' = OPEN /\
            nextAttemptTime b' = Some (t + 60000)%Z)).
Proof.
  split; [|split].
  - intros b s t1 t2 t3 t4 t5 op1 op2 op3 op4 op5 Hs Hn H1 H2 H3 H4 H5.
    destruct (closed_failure_step t1 op1 b s 0 H1 Hs Hn)
      as [e1 [s1 [O1 E1]]].
    destruct (closed_failure_step t2 op2
                (Breaker CLOSED 1 (successCount b) (nextAttemptTime b)) s1 1 H2 eq_refl eq_refl)
      as [e2 [s2 [O2 E2]]].
    destruct (closed_failure_step t3 op3
                (Breaker CLOSED 2 (successCount b) (nextAttemptTime b)) s2 2 H3 eq_refl eq_refl)
      as [e3 [s3 [O3 E3]]].
    destruct (closed_failure_step t4 op4
                (Breaker CLOSED 3 (successCount b) (nextAttemptTime b)) s3 3 H4 eq_refl eq_refl)
      as [e4 [s4 [O4 E4]]].
    destruct (closed_failure_step t5 op5
                (Breaker CLOSED 4 (successCount b) (nextAttemptTime b)) s4 4 H5 eq_refl eq_refl)
      as [e5 [s5 [O5 E5]]].
    exists e1, e2, e3, e4, e5, s1, s2, s3, s4, s5.
    repeat (split; [done|]).
    simpl in *. unfold executeAll.
    by rewrite E1, E2, E3, E4, E5.
  - intros b s t u operation Hs Hu Hlt.
    unfold execute, enter, elapsed. rewrite Hs, Hu.
    by rewrite (proj2 (Z.leb_gt u t) Hlt).
  - intros b s t u operation Hs Hu Hle.
    assert (He : enter t b =
                 Some (Breaker HALF_OPEN (failureCount b) (successCount b)
                               (nextAttemptTime b))).
    { unfold enter, elapsed. rewrite Hs, Hu.
      by rewrite (proj2 (Z.leb_le u t) Hle). }
    eexists. split; [exact He|]. split; [reflexivity|].
    split; [done|]. split; [done|]. split.
    + intros a s' Hop. unfold execute. by rewrite He, Hop.
    + intros e s' Hop. eexists. unfold execute. rewrite He, Hop.
      split; [reflexivity|]. split; reflexivity.
Qed.

Lemma breaker_transitions_witness :
  (state_of fresh = CLOSED /\ failureCount fresh = 0 /\ fails down) /\
  (executeAll [(0, down); (1, down); (2, down); (3, down); (4, down)]%Z
              fresh 0 =
     ([Throw "Airtable down"; Throw "Airtable down"; Throw "Airtable down";
       Throw "Airtable down"; Throw "Airtable down"], 5,
      Breaker OPEN 5 0 (Some 60004%Z))) /\
  execute 5%Z down (Breaker OPEN 5 0 (Some 60004%Z)) 5 =
    (Throw CircuitOpen, 5, Breaker OPEN 5 0 (Some 60004%Z)) /\
  exists b',
    execute 60004%Z down (Breaker OPEN 5 0 (Some 60004%Z)) 5 =
      (Throw "Airtable down", 6, b') /\
    state_of b' = OPEN /\ nextAttemptTime b' = Some 120004%Z.
Proof.
  assert (Hd : fails down).
  { intros n. by exists "Airtable down", (S n). }
  split; [done|].
  destruct (@breaker_transitions nat unit) as [Ha [Hb Hc]].
  split; [|split].
  - destruct (Ha fresh 0 0%Z 1%Z 2%Z 3%Z 4%Z down down down down down
                eq_refl eq_refl Hd Hd Hd Hd Hd)
      as (e1 & e2 & e3 & e4 & e5 & s1 & s2 & s3 & s4 & s5 &
          O1 & O2 & O3 & O4 & O5 & E).
    reflexivity.
  - apply (Hb (Breaker OPEN 5 0 (Some 60004%Z)) 5 5%Z 60004%Z down);
      [reflexivity | reflexivity | lia].
  - destruct (Hc (Breaker OPEN 5 0 (Some 60004%Z)) 5 60004%Z 60004%Z down
                eq_refl eq_refl ltac:(lia))
      as (trial & _ & _ & _ & _ & _ & Hfail).
    apply (Hfail "Airtable down" 6). reflexivity.
Defined.

End BreakerProofs.

(** ** The recovery check against the specification's wording *)

Module RecoveryCheck.
Import ThankYou.

(** C6, as stated, fails: the authoritative store is not queried for a
    candidate's own order.  With two candidates and the triggering order
    ["order-1"] already recorded, the wording selects the older candidate
    (its own order has no record) while the code returns nothing and leaves
    both records pending; with the triggering order unrecorded and the
    newer candidate's own order recorded, the wording again selects the
    older candidate while the code returns the newer one. *)
Lemma per_candidate_check_counterexample :
  (RecoverySpec.selected (Examples2.ownOrders "order-1" "order-2")
     Examples.paidOrder (Examples2.twoBackups "order-1")
     = Some Examples2.older /\
   exists w',
     loadRegistrationQueue Examples.paidOrder (Examples2.twoBackups "order-1")
       = (Ok ([], FromNone), w') /\
     status <$> PendingRegistrations w' = ["pending"; "pending"]) /\
  (RecoverySpec.selected (Examples2.ownOrders "order-0" "order-1")
     Examples.paidOrder (Examples2.twoBackups "order-0")
     = Some Examples2.older /\
   exists w',
     loadRegistrationQueue Examples.paidOrder (Examples2.twoBackups "order-0")
       = (Ok ([Examples.majors2], FromCms), w') /\
     PendingRegistrations w' =
       [Examples2.older;
        WixData.setStatus "pending-2" "processing" Examples2.newer]).
Proof.
  split; (split; [by vm_compute|]); eexists;
    (split; [vm_compute; reflexivity|reflexivity]).
Qed.

End RecoveryCheck.

(** ** More on the matching engine *)

Module MatchingExtras.
Import Matching MatchingSpec MatchingProofs.

Lemma greedy_sublists slots taken rs bound unmatched :
  greedy slots taken rs bound unmatched ->
  bound.*1 `sublist_of` rs /\ unmatched `sublist_of` rs.
Proof.
  induction 1 as [|taken r rs i bound unmatched _ _ [IHb IHu]
                 |taken r rs bound unmatched _ _ [IHb IHu]].
  - split; constructor.
  - rewrite fmap_cons. simpl. split.
    + by apply sublist_skip.
    + by apply sublist_cons.
  - split.
    + by apply sublist_cons.
    + by apply sublist_skip.
Qed.

Lemma greedy_exhausts slots taken rs bound unmatched :
  greedy slots taken rs bound unmatched ->
  forall r i l d,
    r ∈ unmatched -> slots !! i = Some l -> name l = Some d ->
    contains d (division r) ->
    i ∈ taken \/ i ∈ bound.*2.
Proof.
  induction 1 as [|taken r0 rs j bound unmatched _ _ IH
                 |taken r0 rs bound unmatched Hnone _ IH];
    intros r i l d Hr Hl Hd Hc.
  - by apply elem_of_nil in Hr.
  - destruct (IH r i l d Hr Hl Hd Hc) as [Hin|Hin].
    + apply elem_of_union in Hin as [Hin|Hin].
      * apply elem_of_singleton in Hin as ->. right. rewrite fmap_cons. by left.
      * by left.
    + right. rewrite fmap_cons. by right.
  - apply elem_of_cons in Hr as [->|Hr].
    + destruct (decide (i ∈ taken)) as [Hin|Hout]; [by left|].
      destruct (Hnone i). split; [done|]. by exists l, d.
    + by apply (IH r i l d).
Qed.

Lemma bound_in_range slots bound matched :
  names slots bound matched ->
  forall i, i ∈ bound.*2 -> i < length slots.
Proof.
  induction 1 as [|b m bound matched [_ Hl] _ IH]; intros i Hi.
  - by apply elem_of_nil in Hi.
  - rewrite fmap_cons in Hi. apply elem_of_cons in Hi as [->|Hi].
    + eauto using lookup_lt_Some.
    + by apply IH.
Qed.

(** X1.  The engine never binds more intents than the order has paid units:
    the number of matched pairs is at most the number of slots (one per unit
    of quantity, a missing or zero quantity counting as one), and matched and
    unmatched together are as many as the queue. *)
Theorem matched_within_units
    (regQueue : list registration) (lineItems : list lineItem) :
  length (matchRegistrationsToLineItems regQueue lineItems).1 <=
    length (expand unitsOrOne lineItems) /\
  length (matchRegistrationsToLineItems regQueue lineItems).1 +
  length (matchRegistrationsToLineItems regQueue lineItems).2 =
    length regQueue.
Proof.
  unfold matchRegistrationsToLineItems; simpl.
  destruct (matchLoop_greedy regQueue (buildSlots lineItems)
              (expand unitsOrOne lineItems) ∅) as [bound [Hg Hn]].
  { rewrite buildSlots_expand. apply represents_fresh. }
  split.
  - destruct (greedy_NoDup _ _ _ _ _ Hg) as [Hnd _].
    assert (Hsub : bound.*2 ⊆+ seq 0 (length (expand unitsOrOne lineItems))).
    { apply NoDup_submseteq; [done|]. intros i Hi.
      apply elem_of_seq. pose proof (bound_in_range _ _ _ Hn i Hi). lia. }
    apply submseteq_length in Hsub.
    rewrite length_fmap, length_seq in Hsub.
    apply Forall2_length in Hn. lia.
  - pose proof (greedy_Permutation _ _ _ _ _ Hg) as Hp.
    apply Permutation_length in Hp.
    rewrite length_app, length_fmap in Hp.
    apply Forall2_length in Hn. lia.
Qed.

(** X2.  Matching keeps the queue's order: the matched intents, in the
    order of [matched], and the unmatched intents are each a subsequence of
    the queue. *)
Theorem matching_keeps_order
    (regQueue : list registration) (lineItems : list lineItem) :
  (matchRegistrationsToLineItems regQueue lineItems).1.*1
    `sublist_of` regQueue /\
  (matchRegistrationsToLineItems regQueue lineItems).2
    `sublist_of` regQueue.
Proof.
  unfold matchRegistrationsToLineItems; simpl.
  destruct (matchLoop_greedy regQueue (buildSlots lineItems)
              (expand unitsOrOne lineItems) ∅) as [bound [Hg Hn]].
  { rewrite buildSlots_expand. apply represents_fresh. }
  rewrite (names_fst _ _ _ Hn). by apply (greedy_sublists _ _ _ _ _ Hg).
Qed.

(** X3.  An intent is left unmatched only when no unit is left for it:
    every slot whose line item has a name containing the unmatched intent's
    division is bound to some matched intent. *)
Theorem unmatched_only_when_exhausted
    (regQueue : list registration) (lineItems : list lineItem) :
  exists bound : list (registration * nat),
    names (expand unitsOrOne lineItems) bound
          (matchRegistrationsToLineItems regQueue lineItems).1 /\
    forall r i l d,
      r ∈ (matchRegistrationsToLineItems regQueue lineItems).2 ->
      expand unitsOrOne lineItems !! i = Some l ->
      name l = Some d -> contains d (division r) ->
      i ∈ bound.*2.
Proof.
  unfold matchRegistrationsToLineItems; simpl.
  destruct (matchLoop_greedy regQueue (buildSlots lineItems)
              (expand unitsOrOne lineItems) ∅) as [bound [Hg Hn]].
  { rewrite buildSlots_expand. apply represents_fresh. }
  exists bound. split; [done|].
  intros r i l d Hr Hl Hd Hc.
  destruct (greedy_exhausts _ _ _ _ _ Hg r i l d Hr Hl Hd Hc) as [Hin|Hin];
    [|done].
  by apply elem_of_empty in Hin.
Qed.

End MatchingExtras.

(** ** More on the Thank You page *)

Module ThankYouExtras.
Import SessionManager WixData Backend ThankYou MonadFacts Frame FrameFacts.
Import QueueSpec Faults.

(** *** Session clean-up *)

Lemma stillPending_spec matched r :
  stillPending matched r = true <->
  forall m, m ∈ matched -> identity m.1 <> identity r.
Proof.
  unfold stillPending. rewrite negb_true_iff. split.
  - intros H m Hm Hid.
    assert (E : existsb (fun m => sameIdentity r m.1) matched = true).
    { apply existsb_exists. exists m. split; [by apply list_elem_of_In|].
      by apply QueueProofs.sameIdentity_spec. }
    congruence.
  - intros H. destruct (existsb _ matched) eqn:E; [|done].
    apply existsb_exists in E as [m [Hm Hs]].
    apply list_elem_of_In in Hm.
    apply QueueProofs.sameIdentity_spec in Hs. by destruct (H m Hm).
Qed.

Lemma cleanup_cms_part o :
  stable (fun w => (regQueueItem w, ledger w))
    (tryCatch
       (let buyerId := Js.or_opt (buyerInfo_id o) (enteredBy_id o) in
        if Js.truthy buyerId then
          t ← dateNow;
          let twoHoursAgo := (t - twoHours)%Z in
          items ← queryPending buyerId "processing" twoHoursAgo (Some 1%nat);
          match items with
          | pendingReg :: _ =>
              updatePendingStatus (pending_id pendingReg) "completed"
          | [] => mret tt
          end
        else mret tt)
       (fun _ => mret tt)).
Proof.
  unfold queryPending, updatePendingStatus, external, dateNow. stable.
Qed.

(** X4.  [cleanupSession] never throws, whatever the backup collection
    answers.  It leaves in the session queue exactly the registrations of
    [regQueue], in their order, whose identity (player, season, sport)
    differs from that of every matched registration; locks, processed
    markers and the authoritative store are not touched; and unless the data
    came from the backup collection it makes no external call. *)
Theorem cleanupSession_keeps_unmatched
    (regQueue : list registration) (matched : list (registration * lineItem))
    (source : dataSource) (o : order) (w : world) :
  exists w',
    cleanupSession regQueue matched source o w = (Ok tt, w') /\
    parseQueue (regQueueItem w') `sublist_of` regQueue /\
    (forall r, r ∈ parseQueue (regQueueItem w') <->
               r ∈ regQueue /\
               forall m, m ∈ matched -> identity m.1 <> identity r) /\
    ledger w' = ledger w /\
    (source <> FromCms ->
     replies w' = replies w /\
     PendingRegistrations w' = PendingRegistrations w).
Proof.
  assert (Hq : forall w',
    regQueueItem w' = Json (List.filter (stillPending matched) regQueue) ->
    parseQueue (regQueueItem w') `sublist_of` regQueue /\
    (forall r, r ∈ parseQueue (regQueueItem w') <->
               r ∈ regQueue /\
               forall m, m ∈ matched -> identity m.1 <> identity r)).
  { intros w' ->. simpl. split.
    - induction regQueue as [|x l IH]; simpl; [constructor|].
      destruct (stillPending matched x); by constructor.
    - intros r. rewrite list_elem_of_In, filter_In, <- list_elem_of_In.
      by rewrite stillPending_spec. }
  unfold cleanupSession, setRegQueue, modify.
  unfold mbind at 1, M_bind at 1.
  destruct source.
  - eexists. split; [reflexivity|].
    destruct (Hq (with_regQueueItem
                    (Json (List.filter (stillPending matched) regQueue)) w)
                eq_refl) as [H1 H2].
    split; [exact H1|]. split; [exact H2|]. split; [reflexivity|].
    intros _. split; reflexivity.
  - set (w1 := with_regQueueItem
                 (Json (List.filter (stillPending matched) regQueue)) w).
    pose proof (cleanup_cms_part o w1) as Hst.
    destruct (tryCatch _ _ w1) as [r w2] eqn:E. simpl in Hst.
    assert (r = Ok tt) as ->.
    { unfold tryCatch in E.
      match type of E with (match ?c with _ => _ end) = _ =>
        destruct c as [[[]|e] w3] end; by inversion E. }
    pose proof (f_equal fst Hst) as Hrq. pose proof (f_equal snd Hst) as Hled.
    simpl in Hrq, Hled.
    exists w2. split; [done|].
    destruct (Hq w2 Hrq) as [H1 H2].
    split; [done|]. split; [done|]. split; [|done].
    by rewrite Hled.
  - eexists. split; [reflexivity|].
    destruct (Hq (with_regQueueItem
                    (Json (List.filter (stillPending matched) regQueue)) w)
                eq_refl) as [H1 H2].
    split; [exact H1|]. split; [exact H2|]. split; [reflexivity|].
    intros _. split; reflexivity.
Qed.

(** *** Donation processing *)

Lemma forEach_skip {A} (l : list A) (body : A -> M world unit) w :
  Forall (fun x => body x = mret tt) l -> forEach l body w = (Ok tt, w).
Proof.
  induction 1 as [|x l Hx _ IH]; simpl; [done|].
  rewrite Hx. unfold mbind, M_bind, mret, M_ret. exact IH.
Qed.

(** X5.  [processDonations] does nothing at all, and makes no external
    call, when the donation flag is already set or when no line item of the
    order is a donation: its product id is no key of the donation table and
    no name every object inherits (for which the table lookup of the code
    is truthy as well). *)
Theorem processDonations_skips (o : order) (w : world) :
  donationSynced w = true \/
  Forall DonationSpec.noDonation (Js.nullish (lineItems o) []) ->
  processDonations o w = (Ok tt, w).
Proof.
  unfold processDonations, isDonationSynced, gets.
  unfold mbind at 1, M_bind at 1.
  intros [-> | H]; [done|].
  destruct (donationSynced w); [done|].
  apply forEach_skip. eapply Forall_impl; [exact H|].
  intros l [Hl _]. simpl. by rewrite Hl.
Qed.

Lemma processDonations_skips_witness :
  Forall DonationSpec.noDonation
         (Js.nullish (lineItems Examples.paidOrder) []) /\
  processDonations Examples.paidOrder (Examples.site Absent [] [Raise "down"])
    = (Ok tt, Examples.site Absent [] [Raise "down"]).
Proof.
  assert (H : Forall DonationSpec.noDonation
                     (Js.nullish (lineItems Examples.paidOrder) [])).
  { repeat constructor. intros id E. injection E as <-.
    unfold GetProduct.inheritedNames. rewrite list_elem_of_In. simpl.
    intuition discriminate. }
  split; [exact H|].
  exact (processDonations_skips Examples.paidOrder _ (or_intror H)).
Defined.

Lemma noDoubleFault_tail r rs :
  noDoubleFault (r :: rs) = true -> noDoubleFault rs = true.
Proof.
  simpl. destruct rs as [|r2 rs]; [done|].
  by intros [_ H]%andb_true_iff.
Qed.

Lemma syncDonation_survives o amount w :
  noDoubleFault (replies w) = true ->
  exists w', syncDonation o amount w = (Ok tt, w') /\
             noDoubleFault (replies w') = true.
Proof.
  intros H.
  unfold syncDonation, saveDonation, insertSyncError, external, nextReply,
    setDonationSynced, dateNow, tryCatch, gets, modify, throw, mbind, M_bind,
    mret, M_ret.
  destruct (replies w) as [|r1 rs] eqn:E1; simpl.
  { eexists. split; [reflexivity|]. simpl. by rewrite E1. }
  pose proof (noDoubleFault_tail _ _ H) as H1.
  destruct r1 as [|err|err]; simpl.
  - eexists. split; [reflexivity|]. done.
  - destruct rs as [|r2 rs2]; simpl.
    { eexists. split; [reflexivity|]. done. }
    pose proof (noDoubleFault_tail _ _ H1) as H2.
    destruct r2 as [| |e2]; simpl;
      try (eexists; split; [reflexivity|]; done).
    destruct rs2 as [|r3 rs3]; simpl.
    { eexists. split; [reflexivity|]. done. }
    pose proof (noDoubleFault_tail _ _ H2) as H3.
    destruct r3 as [| |e3]; simpl;
      try (eexists; split; [reflexivity|]; done).
    by simpl in H1.
  - destruct rs as [|r2 rs2]; simpl.
    { eexists. split; [reflexivity|]. done. }
    pose proof (noDoubleFault_tail _ _ H1) as H2.
    destruct r2 as [| |e2]; simpl;
      try (eexists; split; [reflexivity|]; done).
    by simpl in H.
Qed.

(** X6.  A failing donation sync is not fatal to the run: as long as no two
    external calls in a row throw (the sync or its audit insert, and then
    the audit insert of the [catch] block), [processDonations] returns
    normally, for any order. *)
Theorem processDonations_survives (o : order) (w : world) :
  noDoubleFault (replies w) = true ->
  exists w', processDonations o w = (Ok tt, w').
Proof.
  unfold processDonations, isDonationSynced, gets.
  unfold mbind at 1, M_bind at 1.
  destruct (donationSynced w); [by eexists|].
  generalize (Js.nullish (lineItems o) []). intros items. revert w.
  induction items as [|l items IH]; intros w H; simpl; [by eexists|].
  unfold mbind, M_bind.
  destruct (donationAmount l) as [amount|].
  - destruct (syncDonation_survives o amount w H) as [w1 [-> H1]].
    by apply IH.
  - unfold mret at 1, M_ret at 1. by apply IH.
Qed.

Lemma processDonations_survives_witness :
  noDoubleFault [Soft None; Raise "WDE0028"; Done] = true /\
  exists w',
    processDonations Examples.donationOrder
      (Examples.site Absent [] [Soft None; Raise "WDE0028"; Done]) =
    (Ok tt, w').
Proof.
  split; [reflexivity|].
  exact (processDonations_survives Examples.donationOrder
           (Examples.site Absent [] [Soft None; Raise "WDE0028"; Done])
           eq_refl).
Defined.

(** *** Intent loading *)

(** X7.  The backup collection is not consulted when it is not needed or
    cannot be: with registrations in the session queue,
    [loadRegistrationQueue] returns them with source session; with an empty
    queue and an order that names no buyer, it returns nothing with source
    none.  In both cases no external call is made and the world is left as
    it was, so no backup record changes status. *)
Theorem load_without_backup (o : order) (w : world) :
  (parseQueue (regQueueItem w) <> [] ->
   loadRegistrationQueue o w =
     (Ok (parseQueue (regQueueItem w), FromSession), w)) /\
  (parseQueue (regQueueItem w) = [] ->
   Js.truthy (Recovery.buyerOf o) = false ->
   loadRegistrationQueue o w = (Ok ([], FromNone), w)).
Proof.
  unfold loadRegistrationQueue, getRegQueue, gets. split.
  - intros H. unfold mbind at 1, M_bind at 1.
    by destruct (parseQueue (regQueueItem w)).
  - intros Hq Hb. unfold mbind at 1, M_bind at 1. rewrite Hq. simpl.
    unfold mbind at 1, M_bind at 1, tryCatch, cmsFallback.
    fold (Recovery.buyerOf o). by rewrite Hb.
Qed.

Lemma load_without_backup_witness :
  (parseQueue (regQueueItem (Examples.site (Json [Examples.majors])
                               [Examples.backup "b" 0 "pending" Absent] []))
     <> [] /\
   loadRegistrationQueue Examples.paidOrder
     (Examples.site (Json [Examples.majors])
        [Examples.backup "b" 0 "pending" Absent] []) =
   (Ok ([Examples.majors], FromSession),
    Examples.site (Json [Examples.majors])
      [Examples.backup "b" 0 "pending" Absent] [])) /\
  loadRegistrationQueue Examples2.anonymousOrder
    (Examples.site Absent [Examples.backup "b" 0 "pending" Absent] []) =
  (Ok ([], FromNone),
   Examples.site Absent [Examples.backup "b" 0 "pending" Absent] []).
Proof.
  split.
  - assert (H : parseQueue (regQueueItem (Examples.site (Json [Examples.majors])
                    [Examples.backup "b" 0 "pending" Absent] [])) <> []).
    { discriminate. }
    split; [exact H|].
    exact (proj1 (load_without_backup Examples.paidOrder _) H).
  - exact (proj2 (load_without_backup Examples2.anonymousOrder
                    (Examples.site Absent
                       [Examples.backup "b" 0 "pending" Absent] []))
                 eq_refl eq_refl).
Defined.

Lemma external_pending {A} (c : M world A) w r w' :
  (forall w0 r0 w1, c w0 = (r0, w1) ->
     PendingRegistrations w1 = PendingRegistrations w0 \/ exists a, r0 = Ok a) ->
  external c w = (r, w') ->
  PendingRegistrations w' = PendingRegistrations w \/ exists a, r = Ok a.
Proof.
  intros Hc. unfold external, nextReply, throw, mbind, M_bind.
  destruct (replies w) as [|[| |e] rs]; simpl; intros H;
    first [ by apply Hc in H
          | inversion H; subst; by left ].
Qed.

Lemma firstUnused_pending oid items w r w' :
  firstUnused oid items w = (r, w') ->
  (exists q, r = Ok (Some (q, FromCms))) \/
  PendingRegistrations w' = PendingRegistrations w.
Proof.
  revert w; induction items as [|p items IH]; intros w H; simpl in H.
  - inversion H; subst. by right.
  - apply ThankYouProofs.bind_cases in H
      as [[found [w1 [E1 H]]]|[e [E1 ->]]].
    + assert (P1 : PendingRegistrations w1 = PendingRegistrations w).
      { unfold querySeasonByOrder, external, nextReply, gets, throw, mbind,
          M_bind in E1.
        destruct (replies w) as [|[| |e] rs]; simpl in E1;
          inversion E1; subst; done. }
      destruct (length found =? 0)%nat.
      * apply ThankYouProofs.bind_cases in H
          as [[q [w2 [E2 H]]]|[e [E2 ->]]].
        -- assert (w2 = w1) as ->.
           { unfold jsonParse in E2.
             destruct (registrations p); by inversion E2. }
           apply ThankYouProofs.bind_cases in H
             as [[[] [w3 [E3 H]]]|[e [E3 ->]]].
           ++ inversion H; subst. left. by exists q.
           ++ right. rewrite <- P1.
              unfold updatePendingStatus, external, nextReply, modify, throw,
                mbind, M_bind in E3.
              destruct (replies w1) as [|[| |e'] rs]; simpl in E3;
                inversion E3; subst; done.
        -- right. rewrite <- P1. unfold jsonParse in E2.
           destruct (registrations p); by inversion E2.
      * destruct (IH w1 H) as [Hq|Hp]; [by left|right]. by rewrite Hp.
    + right.
      unfold querySeasonByOrder, external, nextReply, gets, throw, mbind,
        M_bind in E1.
      destruct (replies w) as [|[| |e'] rs]; simpl in E1;
        inversion E1; subst; done.
Qed.

(** X8.  No backup record is used up without being returned: whenever
    [loadRegistrationQueue] ends in any other way than with registrations
    from the backup collection (from the session, with nothing, or by
    throwing), the [PendingRegistrations] collection is exactly as it was;
    a record is moved to processing only by the run that gets its
    registrations. *)
Theorem load_claims_only_what_it_returns
    (o : order) (w w' : world) (r : result (list registration * dataSource)) :
  loadRegistrationQueue o w = (r, w') ->
  (forall q, r <> Ok (q, FromCms)) ->
  PendingRegistrations w' = PendingRegistrations w.
Proof.
  unfold loadRegistrationQueue. intros H Hr.
  apply ThankYouProofs.bind_cases in H as [[queue [w0 [E0 H]]]|[e [E0 _]]];
    [|by inversion E0].
  unfold getRegQueue, gets in E0. inversion E0; subst.
  destruct (0 <? length (parseQueue (regQueueItem w0)))%nat;
    [by inversion H|].
  assert (Haudit : forall t w1 r1 w2,
            insertSyncError (retrievalFailed o t) w1 = (r1, w2) ->
            PendingRegistrations w2 = PendingRegistrations w1).
  { intros t w1 r1 w2.
    unfold insertSyncError, external, nextReply, modify, throw, mbind, M_bind.
    destruct (replies w1) as [|[| |e] rs]; simpl; intros E;
      inversion E; subst; done. }
  apply ThankYouProofs.bind_cases in H as [[found [w1 [E1 H]]]|[e [E1 ->]]].
  - unfold tryCatch in E1.
    destruct (cmsFallback o w0) as [[x|e] wb] eqn:Eb.
    + inversion E1; subst. unfold cmsFallback in Eb.
      destruct (Js.truthy _); simpl in Eb.
      * apply ThankYouProofs.bind_cases in Eb
          as [[t [w2 [E2 Eb]]]|[e [E2 _]]]; [|by inversion E2].
        unfold dateNow, gets in E2. inversion E2; subst.
        apply ThankYouProofs.bind_cases in Eb
          as [[items [w3 [E3 Eb]]]|[e [E3 Eb]]]; [|by inversion Eb].
        assert (P3 : PendingRegistrations w3 = PendingRegistrations w2).
        { unfold queryPending, external, nextReply, gets, throw, mbind,
            M_bind in E3.
          destruct (replies w2) as [|[| |e] rs]; simpl in E3;
            inversion E3; subst; done. }
        destruct (0 <? length items)%nat.
        -- apply firstUnused_pending in Eb as [[q Hq]|Hp].
           ++ inversion Hq; subst. inversion H; subst. by destruct (Hr q).
           ++ destruct found; inversion H; subst; by rewrite Hp.
        -- inversion Eb; subst. inversion H; subst. done.
      * inversion Eb; subst. inversion H; subst. done.
    + assert (Pb : PendingRegistrations wb = PendingRegistrations w0).
      { unfold cmsFallback in Eb.
        destruct (Js.truthy _); simpl in Eb; [|by inversion Eb].
        apply ThankYouProofs.bind_cases in Eb
          as [[t [w2 [E2 Eb]]]|[e' [E2 _]]]; [|by inversion E2].
        unfold dateNow, gets in E2. inversion E2; subst.
        apply ThankYouProofs.bind_cases in Eb
          as [[items [w3 [E3 Eb]]]|[e' [E3 _]]].
        - assert (P3 : PendingRegistrations w3 = PendingRegistrations w2).
          { unfold queryPending, external, nextReply, gets, throw, mbind,
              M_bind in E3.
            destruct (replies w2) as [|[| |e''] rs]; simpl in E3;
              inversion E3; subst; done. }
          destruct (0 <? length items)%nat; [|by inversion Eb].
          apply firstUnused_pending in Eb as [[q Hq]|Hp]; [done|].
          by rewrite Hp.
        - unfold queryPending, external, nextReply, gets, throw, mbind,
            M_bind in E3.
          destruct (replies w2) as [|[| |e''] rs]; simpl in E3;
            inversion E3; subst; done. }
      apply ThankYouProofs.bind_cases in E1
        as [[t [w2 [E2 E1]]]|[e' [E2 _]]]; [|by inversion E2].
      unfold dateNow, gets in E2. inversion E2; subst.
      apply ThankYouProofs.bind_cases in E1
        as [[[] [w3 [E3 E1]]]|[e' [E3 E4]]].
      * apply Haudit in E3. inversion E1; subst.
        inversion H; subst. by rewrite E3.
      * discriminate E4.
  - unfold tryCatch in E1.
    destruct (cmsFallback o w0) as [[x|e'] wb] eqn:Eb; [by inversion E1|].
    assert (Pb : PendingRegistrations wb = PendingRegistrations w0).
    { unfold cmsFallback in Eb.
      destruct (Js.truthy _); simpl in Eb; [|by inversion Eb].
      apply ThankYouProofs.bind_cases in Eb
        as [[t [w2 [E2 Eb]]]|[e'' [E2 _]]]; [|by inversion E2].
      unfold dateNow, gets in E2. inversion E2; subst.
      apply ThankYouProofs.bind_cases in Eb
        as [[items [w3 [E3 Eb]]]|[e'' [E3 _]]].
      - assert (P3 : PendingRegistrations w3 = PendingRegistrations w2).
        { unfold queryPending, external, nextReply, gets, throw, mbind,
            M_bind in E3.
          destruct (replies w2) as [|[| |e3] rs]; simpl in E3;
            inversion E3; subst; done. }
        destruct (0 <? length items)%nat; [|by inversion Eb].
        apply firstUnused_pending in Eb as [[q Hq]|Hp]; [done|].
        by rewrite Hp.
      - unfold queryPending, external, nextReply, gets, throw, mbind,
          M_bind in E3.
        destruct (replies w2) as [|[| |e3] rs]; simpl in E3;
          inversion E3; subst; done. }
    apply ThankYouProofs.bind_cases in E1
      as [[t [w2 [E2 E1]]]|[e'' [E2 _]]]; [|by inversion E2].
    unfold dateNow, gets in E2. inversion E2; subst.
    apply ThankYouProofs.bind_cases in E1
      as [[[] [w3 [E3 E1]]]|[e'' [E3 E4]]].
    + by inversion E1.
    + apply Haudit in E3. by rewrite E3.
Qed.

Lemma load_claims_only_what_it_returns_witness :
  exists w',
    loadRegistrationQueue Examples.paidOrder
      (Examples.site Absent
         [Examples.backup "b" Examples.hour "pending" Corrupt] []) =
      (Ok ([], FromNone), w') /\
    PendingRegistrations w' =
      [Examples.backup "b" Examples.hour "pending" Corrupt].
Proof.
  eexists. split; [vm_compute; reflexivity|].
  refine (load_claims_only_what_it_returns Examples.paidOrder
            (Examples.site Absent
               [Examples.backup "b" Examples.hour "pending" Corrupt] [])
            _ (Ok ([], FromNone)) _ _).
  - vm_compute. reflexivity.
  - intros q. discriminate.
Defined.

(** *** The handler's early exits *)

(** X9.  A run that ends at one of the handler's early returns (page
    element missing, no order or no order id, order already processed, lock
    not acquired) has had no effect at all: the world is exactly as it
    was. *)
Theorem early_exit_changes_nothing
    (page : thankYouPage) (w w' : world) (e : exit) :
  onReady page w = (e, w') ->
  e = ExitNoElement \/ e = ExitNoOrder \/ e = ExitAlreadyProcessed \/
  e = ExitLockBusy ->
  w' = w.
Proof.
  intros H He.
  destruct page as [|err|[o|]];
    try (unfold onReady, reconcile in H; inversion H; subst; done).
  destruct (_id o) as [[|c s]|] eqn:Hid;
    try (unfold onReady, reconcile in H; rewrite Hid in H;
         inversion H; subst; done).
  destruct (decide (String c s ∈ processedOrders w)) as [Hp|Hp].
  { rewrite (ThankYouProofs.onReady_processed o (String c s) w Hid) in H;
      [by inversion H | done | done]. }
  destruct (decide (String c s ∈ locks w)) as [Hl|Hl].
  { unfold onReady, reconcile in H. rewrite Hid in H.
    unfold isOrderProcessed, acquireProcessingLock, gets, mbind, M_bind in H.
    rewrite !(bool_decide_eq_false_2 _ Hp), (bool_decide_eq_true_2 _ Hl) in H.
    by inversion H. }
  pose proof (ThankYouProofs.lock_by_exit_path o (String c s) w e w' Hid
                ltac:(done) Hp Hl H) as Hx.
  destruct He as [E|[E|[E|E]]]; subst e; done.
Qed.

Lemma early_exit_changes_nothing_witness :
  (onReady (GetOrder (Some Examples2.anonymousOrder))
           (Examples.site (Json [Examples.majors]) [] [])).2 =
  Examples.site (Json [Examples.majors]) [] [].
Proof.
  apply (early_exit_changes_nothing
           (GetOrder (Some Examples2.anonymousOrder))
           (Examples.site (Json [Examples.majors]) [] []) _ ExitNoOrder).
  - reflexivity.
  - right. left. reflexivity.
Defined.

End ThankYouExtras.

(** ** More on the registration page *)

Module RegistrationExtras.
Import SessionManager NewSeasonReg MonadFacts QueueSpec.

Lemma some_entries reg q :
  SessionFallback.some reg (SessionFallback.Entry <$> q) =
  Ok (existsb (sameIdentity reg) q).
Proof.
  induction q as [|r q IH]; [done|].
  rewrite fmap_cons. simpl. by destruct (sameIdentity reg r).
Qed.

Lemma some_found reg it q :
  SessionFallback.Null ∉ q -> identity reg = identity it ->
  SessionFallback.some reg (q ++ [SessionFallback.Entry it]) = Ok true.
Proof.
  intros Hq Hid. induction q as [|x q IH]; simpl.
  - replace (sameIdentity reg it) with true; [done|].
    symmetry. by apply QueueProofs.sameIdentity_spec.
  - assert (Hq' : SessionFallback.Null ∉ q).
    { intros H. apply Hq. by right. }
    destruct x as [r| |].
    + destruct (sameIdentity reg r); [done|by apply IH].
    + destruct Hq. by left.
    + by apply IH.
Qed.

(** X10.  The queue helpers on every value of the session item.  When the
    item is missing, does not parse (both count as the empty array) or
    parses to an array, [addToRegQueue] does not throw and appends the item
    at the end of the array read by [getRegQueue], keeping what was there;
    afterwards [isDuplicateInQueue] answers true for every registration
    with the item's player, season and sport, provided the array holds no
    [null] (a [null] met before a matching element makes it throw).  When
    the item parses to a value that is not an array, [getRegQueue] hands
    that value on, and [addToRegQueue] and [isDuplicateInQueue] throw a
    [TypeError] and leave the item as it is.  On a missing item, one that
    does not parse and an array of registrations these are the helpers of
    [SessionManager]. *)
Theorem addToRegQueue_then_duplicate
    (it : registration) (i : SessionFallback.item) :
  (forall q, SessionFallback.arrayOf i = Some q ->
     SessionFallback.getRegQueue i = (Ok (SessionFallback.Arr q), i) /\
     SessionFallback.addToRegQueue it i =
       (Ok tt, SessionFallback.Array (q ++ [SessionFallback.Entry it])) /\
     forall reg, identity reg = identity it ->
       SessionFallback.Null ∉ q ->
       SessionFallback.isDuplicateInQueue reg
         (SessionFallback.Array (q ++ [SessionFallback.Entry it])) =
       (Ok true, SessionFallback.Array (q ++ [SessionFallback.Entry it]))) /\
  (SessionFallback.arrayOf i = None ->
   SessionFallback.getRegQueue i = (Ok SessionFallback.Other, i) /\
   SessionFallback.addToRegQueue it i =
     (Throw SessionFallback.typeError, i) /\
   forall reg,
     SessionFallback.isDuplicateInQueue reg i =
     (Throw SessionFallback.typeError, i)) /\
  (forall (w : world) (reg : registration),
     i = SessionFallback.ofStored (regQueueItem w) ->
     SessionFallback.getRegQueue i =
       (Ok (SessionFallback.Arr
              (SessionFallback.Entry <$> parseQueue (regQueueItem w))), i) /\
     (exists w',
        addToRegQueue it w = (Ok tt, w') /\
        SessionFallback.addToRegQueue it i =
          (Ok tt, SessionFallback.ofStored (regQueueItem w'))) /\
     exists answer,
       isDuplicateInQueue reg w = (Ok answer, w) /\
       SessionFallback.isDuplicateInQueue reg i = (Ok answer, i)).
Proof.
  split; [|split].
  - intros q Hq. split; [|split].
    + destruct i; simpl in Hq; by simplify_eq.
    + destruct i; simpl in Hq; by simplify_eq.
    + intros reg Hid Hnull.
      unfold SessionFallback.isDuplicateInQueue, SessionFallback.getRegQueue,
        gets, mbind, M_bind.
      by rewrite some_found.
  - intros Hi. by destruct i.
  - intros w reg ->. split; [by destruct (regQueueItem w)|]. split.
    + exists (with_regQueueItem
                (Json (parseQueue (regQueueItem w) ++ [it])) w).
      split; [reflexivity|]. simpl.
      destruct (regQueueItem w); simpl; try done.
      unfold SessionFallback.addToRegQueue, SessionFallback.getRegQueue,
        SessionFallback.setRegQueue, gets, modify, mbind, M_bind.
      by rewrite fmap_app.
    + exists (existsb (sameIdentity reg) (parseQueue (regQueueItem w))).
      split; [reflexivity|].
      unfold SessionFallback.isDuplicateInQueue, SessionFallback.getRegQueue,
        gets, mbind, M_bind.
      destruct (regQueueItem w); simpl; try done.
      by rewrite some_entries.
Qed.

(** X11.  A click that does not get as far as the backup (the form is not
    valid, the division is closed, collecting the form data throws, or
    validation rejects the registration) queues nothing and saves no
    backup: the session queue and the backup collection are as they were,
    an error text is shown, the Register button is enabled again, and the
    page does not navigate.  When the form is not valid or the division is
    closed, the click returns before it collects the form data and has made
    no external call: the site is as it was. *)
Theorem click_rejected_early (f : form) (p : page) :
  isFormValid f = false \/ divisionClosed f = true \/
  (exists e, collectFormData f = Throw e) \/
  (exists raw e, collectFormData f = Ok raw /\
                 validateRegistration f (sanitizeRegistration f raw) = Some e) ->
  exists p' msg,
    handleRegisterClick f p = (Ok tt, p') /\
    queueOf p' = queueOf p /\
    newSeasonRegistrationPage p' = newSeasonRegistrationPage p /\
    textError p' = Some msg /\ registerEnabled p' = true /\
    textSuccess p' = textSuccess p /\ navigatedTo p' = navigatedTo p /\
    (isFormValid f = false ->
     msg = "Please complete all required fields." /\ site p' = site p) /\
    (isFormValid f = true -> divisionClosed f = true ->
     msg = "Registration for this division is currently closed." /\
     site p' = site p).
Proof.
  unfold handleRegisterClick, disableRegister, modify.
  unfold mbind at 1, M_bind at 1. unfold tryCatch, submit.
  intros [Hv|[Hc|[[e He]|[raw [e [Hraw Hval]]]]]].
  - rewrite Hv. simpl. eexists _, _. split; [reflexivity|]. done.
  - destruct (isFormValid f); simpl; rewrite ?Hc;
      eexists _, _; (split; [reflexivity|]); done.
  - destruct (isFormValid f); simpl.
    2:{ eexists _, _. split; [reflexivity|]. done. }
    destruct (divisionClosed f); simpl.
    { eexists _, _. split; [reflexivity|]. done. }
    unfold mbind at 1, M_bind at 1. rewrite He.
    eexists _, _. split; [reflexivity|]. done.
  - destruct (isFormValid f); simpl.
    2:{ eexists _, _. split; [reflexivity|]. done. }
    destruct (divisionClosed f); simpl.
    { eexists _, _. split; [reflexivity|]. done. }
    unfold mbind at 1, M_bind at 1. rewrite Hraw, Hval.
    eexists _, _. split; [reflexivity|]. done.
Qed.

Lemma click_rejected_early_witness :
  exists p' msg,
    handleRegisterClick
      (Form true true (Ok Examples.majors) (fun r => r) (fun _ => None) None)
      (Examples.registrationPage []) = (Ok tt, p') /\
    queueOf p' = queueOf (Examples.registrationPage []) /\
    newSeasonRegistrationPage p' =
      newSeasonRegistrationPage (Examples.registrationPage []) /\
    textError p' = Some msg /\ registerEnabled p' = true /\
    textSuccess p' = textSuccess (Examples.registrationPage []) /\
    navigatedTo p' = navigatedTo (Examples.registrationPage []) /\
    msg = "Registration for this division is currently closed." /\
    site p' = site (Examples.registrationPage []).
Proof.
  destruct (click_rejected_early
              (Form true true (Ok Examples.majors) (fun r => r)
                    (fun _ => None) None)
              (Examples.registrationPage []))
    as (p' & msg & Hrun & Hq & Hb & He & Hen & Hs & Hn & _ & Hc).
  - right. left. reflexivity.
  - exists p', msg. repeat (split; [done|]). by apply Hc.
Defined.












End RegistrationExtras.

(** ** Divisions and their products *)

Module ProductExtras.
Import Constants Division GetProduct.

Lemma stripped_append d t : stripped d (d +:+ t) = Some t.
Proof.
  induction d as [|c d IH]; [done|].
  rewrite JsFacts.append_cons. simpl. by rewrite Ascii.eqb_refl.
Qed.

Lemma append_stripped d t k : d +:+ t = k -> stripped d k = Some t.
Proof. intros <-. apply stripped_append. Qed.

Lemma length_append a b :
  String.length (a +:+ b) = String.length a + String.length b.
Proof.
  induction a as [|c a IH]; [done|].
  rewrite JsFacts.append_cons. simpl. by rewrite IH.
Qed.

(** Deciding an equation [d +:+ t = k] between a known prefix and a known
    string. *)
Ltac strip H :=
  apply append_stripped in H; vm_compute in H;
  first [discriminate H | injection H as H].

Lemma product_elem k v :
  PRODUCT_MAP !! k = Some v <-> (k, v) ∈ PRODUCT_LIST.
Proof.
  split.
  - apply elem_of_list_to_map_2.
  - apply elem_of_list_to_map_1. vm_compute.
    repeat (constructor; [by rewrite list_elem_of_In; simpl; intuition discriminate|]).
    constructor.
Qed.

Ltac ages :=
  repeat match goal with
  | |- context [(?a <=? ?b)%Z] => destruct (Z.leb_spec a b)
  | |- context [(?a =? ?b)%Z] => destruct (Z.eqb_spec a b)
  end; simpl; try lia.

Lemma division_table_cases (sportOk : string) (age : Z) (tag : string) :
  (sportOk = BASEBALL /\ (4 <= age)%Z /\
   exists d, d ∈ baseball /\ divisionOf sportOk age tag = d +:+ tag) \/
  (sportOk = SOFTBALL /\ (6 <= age <= 12)%Z /\
   exists d, d ∈ softball /\ divisionOf sportOk age tag = d +:+ tag) \/
  (sportOk = BASEBALL /\ (age < 4)%Z /\
   divisionOf sportOk age tag = "Unknown") \/
  (sportOk = SOFTBALL /\ (age < 6 \/ 12 < age)%Z /\
   divisionOf sportOk age tag = "No division available") \/
  (sportOk <> BASEBALL /\ sportOk <> SOFTBALL /\
   divisionOf sportOk age tag = "Unknown").
Proof.
  unfold divisionOf.
  destruct (String.eqb_spec sportOk BASEBALL) as [->|Hb].
  - destruct (Z.ltb_spec age 4).
    + right; right; left. repeat split; [done|]. by ages.
    + left. repeat split; [done|].
      ages; eexists; (split; [|reflexivity]);
        unfold baseball; rewrite list_elem_of_In; simpl; tauto.
  - destruct (String.eqb_spec sportOk SOFTBALL) as [->|Hs].
    + destruct (decide (6 <= age <= 12)%Z).
      * right; left. repeat split; try lia.
        ages; eexists; (split; [|reflexivity]);
          unfold softball; rewrite list_elem_of_In; simpl; tauto.
      * right; right; right; left. repeat split; [lia|]. by ages.
    + by repeat right.
Qed.

(** X14. The division table covers every age it should and no other: a
    baseball player of age four or more gets one of the nine baseball
    divisions, a softball player of age six to twelve one of the four
    softball divisions, each followed by the season tag; a younger baseball
    player and any other sport get "Unknown", a softball player outside six
    to twelve gets "No division available".  The softball Daisy League is
    given at age six only, although its branch tests for six to seven. *)
Theorem division_table (sportOk : string) (age : Z) (tag : string) :
  let division := divisionOf sportOk age tag in
  ((sportOk = BASEBALL /\ (4 <= age)%Z /\
    exists d, d ∈ baseball /\ division = d +:+ tag) \/
   (sportOk = SOFTBALL /\ (6 <= age <= 12)%Z /\
    exists d, d ∈ softball /\ division = d +:+ tag) \/
   (sportOk = BASEBALL /\ (age < 4)%Z /\ division = "Unknown") \/
   (sportOk = SOFTBALL /\ (age < 6 \/ 12 < age)%Z /\
    division = "No division available") \/
   (sportOk <> BASEBALL /\ sportOk <> SOFTBALL /\ division = "Unknown")) /\
  (divisionOf SOFTBALL age tag = SOFTBALL_DAISY +:+ tag <-> age = 6%Z).
Proof.
  split; [apply division_table_cases|].
  - unfold divisionOf. change (String.eqb SOFTBALL BASEBALL) with false.
    change (String.eqb SOFTBALL SOFTBALL) with true. cbv iota.
    split.
    + ages; intros E; first [lia | strip E | discriminate E].
    + intros ->. reflexivity.
Qed.

Lemma product_tag d tag :
  d ∈ baseball ++ softball ->
  is_Some (PRODUCT_MAP !! (d +:+ tag)) <-> tag = " - 2026.1".
Proof.
  intros Hd. split.
  - intros [v Hv]. apply product_elem in Hv.
    unfold baseball, softball in Hd.
    rewrite list_elem_of_In in Hd. rewrite list_elem_of_In in Hv.
    simpl in Hd, Hv.
    repeat (destruct Hd as [<-|Hd]; [|]); try done;
      repeat (destruct Hv as [E|Hv]; [apply (f_equal fst) in E; simpl in E; symmetry in E; strip E; congruence|]);
      done.
  - intros ->. unfold baseball, softball in Hd.
    rewrite list_elem_of_In in Hd. simpl in Hd.
    repeat (destruct Hd as [<-|Hd]; [by vm_compute; eexists|]). done.
Qed.

Lemma product_lookup_iff (sportOk : string) (age : Z) (tag : string) :
  is_Some (PRODUCT_MAP !! divisionOf sportOk age tag) <->
  tag = " - 2026.1" /\
  ((sportOk = BASEBALL /\ (4 <= age)%Z) \/
   (sportOk = SOFTBALL /\ (6 <= age <= 12)%Z)).
Proof.
  destruct (division_table_cases sportOk age tag)
    as [(Hs & Ha & d & Hd & ->)|[(Hs & Ha & d & Hd & ->)|
        [(Hs & Ha & ->)|[(Hs & Ha & ->)|(Hb & Hs & ->)]]]].
  - rewrite product_tag by (apply elem_of_app; by left). intuition.
  - rewrite product_tag by (apply elem_of_app; by right). intuition.
  - split; [intros [v Hv]; by vm_compute in Hv|].
    intros [_ [[_ H]|[E _]]]; [lia|]. subst. discriminate.
  - split; [intros [v Hv]; by vm_compute in Hv|].
    intros [_ [[E _]|[_ H]]]; [|lia]. subst. discriminate.
  - split; [intros [v Hv]; by vm_compute in Hv|].
    intros [_ [[E _]|[E _]]]; by subst.
Qed.

(** X15. A product exists for the division of a player exactly when the
    player is in the table (baseball from age four, softball from six to
    twelve) and the season tag is that of spring 2026: no division of a fall
    season or of another year is a key of the product map, and neither are
    the two texts given outside the table.  The map's key "Majors", which
    carries no sport and no season, is never the division of a player. *)
Theorem product_available_iff (sportOk : string) (age : Z) (tag : string) :
  (is_Some (PRODUCT_MAP !! divisionOf sportOk age tag) <->
   tag = " - 2026.1" /\
   ((sportOk = BASEBALL /\ (4 <= age)%Z) \/
    (sportOk = SOFTBALL /\ (6 <= age <= 12)%Z))) /\
  divisionOf sportOk age tag <> "Majors".
Proof.
  split; [apply product_lookup_iff|].
  destruct (division_table_cases sportOk age tag)
    as [(_ & _ & d & Hd & ->)|[(_ & _ & d & Hd & ->)|
        [(_ & _ & ->)|[(_ & _ & ->)|(_ & _ & ->)]]]]; try done.
  - unfold baseball in Hd. rewrite list_elem_of_In in Hd. simpl in Hd.
    intros E.
    repeat (destruct Hd as [<-|Hd]; [by strip E|]). done.
  - unfold softball in Hd. rewrite list_elem_of_In in Hd. simpl in Hd.
    intros E.
    repeat (destruct Hd as [<-|Hd]; [by strip E|]). done.
Qed.

Lemma product_key k v :
  PRODUCT_MAP !! k = Some v ->
  k <> "" /\ String.length k <= 100 /\ v <> "" /\ k ∉ inheritedNames.
Proof.
  intros Hv. apply product_elem in Hv. rewrite list_elem_of_In in Hv.
  simpl in Hv.
  repeat (destruct Hv as [E|Hv];
    [injection E as <- <-; repeat split;
       [done | simpl; lia | done |
        unfold inheritedNames; rewrite list_elem_of_In; simpl;
        intuition discriminate]|]).
  done.
Qed.

Lemma inherited_name d :
  d ∈ inheritedNames ->
  d <> "" /\ String.length d <= 100 /\ PRODUCT_MAP !! d = None.
Proof.
  unfold inheritedNames. rewrite list_elem_of_In. simpl. intros H.
  repeat (destruct H as [<-|H];
    [split; [done|split; [simpl; lia|by vm_compute]]|]).
  done.
Qed.

Lemma get_product_lookup getProduct d :
  d <> "" -> String.length d <= 100 ->
  get_get_product getProduct (Some d) =
  match lookup PRODUCT_MAP d with
  | Undefined | Own "" => badRequest ("No product found for division: " +:+ d)
  | Own productId => answer getProduct (Some productId)
  | Inherited => answer getProduct None
  end.
Proof.
  intros Hd Hl. unfold get_get_product. destruct d as [|c d]; [done|].
  destruct (Nat.ltb_spec 100 (String.length (String c d))); [lia|done].
Qed.

Lemma answer_ok getProduct ref body :
  answer getProduct ref = ok body <->
  exists p, getProduct ref = Ok (Some p) /\ body = bodyOf p.
Proof.
  unfold answer. destruct (getProduct ref) as [[p|]|e]; split.
  - intros E. exists p. split; [done|]. congruence.
  - intros [q [E ->]]. congruence.
  - done.
  - intros [q [E _]]. discriminate.
  - done.
  - intros [q [E _]]. discriminate.
Qed.

Lemma endpoint_ok_iff (getProduct : store) (division : option string)
    (body : found) :
  get_get_product getProduct division = ok body <->
  exists d p, division = Some d /\ body = bodyOf p /\
    ((exists productId, PRODUCT_MAP !! d = Some productId /\
        getProduct (Some productId) = Ok (Some p)) \/
     (d ∈ inheritedNames /\ getProduct None = Ok (Some p))).
Proof.
  split.
  - destruct division as [d|]; [|done].
    unfold get_get_product. destruct d as [|c d]; [done|].
    destruct (Nat.ltb 100 _); [done|]. unfold lookup.
    destruct (PRODUCT_MAP !! String c d) as [v|] eqn:Ev.
    + destruct v as [|c' v]; [done|]. rewrite answer_ok.
      intros [p [E ->]]. exists (String c d), p. repeat split.
      left. by exists (String c' v).
    + destruct (bool_decide _) eqn:Ei; [|done]. rewrite answer_ok.
      intros [p [E ->]]. exists (String c d), p. repeat split.
      right. split; [|done]. by apply bool_decide_eq_true_1 in Ei.
  - intros (d & p & -> & -> & [(v & Ev & E)|[Hi E]]).
    + destruct (product_key _ _ Ev) as (Hd & Hl & Hv & _).
      rewrite get_product_lookup by done. unfold lookup. rewrite Ev.
      destruct v as [|c v]; [done|]. apply answer_ok. by exists p.
    + destruct (inherited_name _ Hi) as (Hd & Hl & Hn).
      rewrite get_product_lookup by done. unfold lookup. rewrite Hn.
      rewrite bool_decide_eq_true_2 by done. apply answer_ok. by exists p.
Qed.

(** X16. The product endpoint answers [ok] in two cases only.  Either the
    division is a key of the product map and the store resolves that key's
    product id to a product; the body then carries the product's [_id] or
    else [id], its name, and the first variant's id when the product manages
    variants.  Or the division is a name every object inherits (such as
    ["constructor"]), for which the map lookup finds an inherited value
    instead of [undefined], and the store resolves that value to a product.
    For every other request, a missing division included, the answer does
    not depend on the store. *)
Theorem get_product_ok_iff (getProduct : store) (division : option string)
    (body : found) :
  (get_get_product getProduct division = ok body <->
   exists d p, division = Some d /\ body = bodyOf p /\
     ((exists productId, PRODUCT_MAP !! d = Some productId /\
         getProduct (Some productId) = Ok (Some p)) \/
      (d ∈ inheritedNames /\ getProduct None = Ok (Some p)))) /\
  ((forall d, division = Some d ->
      PRODUCT_MAP !! d = None /\ d ∉ inheritedNames) ->
   forall other : store,
     get_get_product other division = get_get_product getProduct division).
Proof.
  split; [apply endpoint_ok_iff|].
  intros Hd other. destruct division as [d|]; [|done].
  destruct (Hd d eq_refl) as [Hnone Hown].
  unfold get_get_product. destruct d as [|c d]; [done|].
  destruct (Nat.ltb 100 _); [done|]. unfold lookup. rewrite Hnone.
  by rewrite bool_decide_eq_false_2.
Qed.

Lemma division_length sportOk age tag :
  divisionOf sportOk age tag <> "" /\
  String.length (divisionOf sportOk age tag) <= 25 + String.length tag.
Proof.
  destruct (division_table_cases sportOk age tag)
    as [(_ & _ & d & Hd & ->)|[(_ & _ & d & Hd & ->)|
        [(_ & _ & ->)|[(_ & _ & ->)|(_ & _ & ->)]]]];
    try (split; [done|simpl; lia]).
  - unfold baseball in Hd. rewrite list_elem_of_In in Hd. simpl in Hd.
    repeat (destruct Hd as [<-|Hd];
      [split; [done|rewrite length_append; simpl; lia]|]).
    done.
  - unfold softball in Hd. rewrite list_elem_of_In in Hd. simpl in Hd.
    repeat (destruct Hd as [<-|Hd];
      [split; [done|rewrite length_append; simpl; lia]|]).
    done.
Qed.

Lemma division_not_inherited sportOk age tag :
  divisionOf sportOk age tag ∉ inheritedNames.
Proof.
  unfold inheritedNames. rewrite list_elem_of_In. simpl.
  destruct (division_table_cases sportOk age tag)
    as [(_ & _ & d & Hd & ->)|[(_ & _ & d & Hd & ->)|
        [(_ & _ & ->)|[(_ & _ & ->)|(_ & _ & ->)]]]];
    try (intuition discriminate).
  - unfold baseball in Hd. rewrite list_elem_of_In in Hd. simpl in Hd.
    intros H.
    repeat (destruct Hd as [<-|Hd]; [|]); try done;
      repeat (destruct H as [E|H]; [symmetry in E; strip E|]); done.
  - unfold softball in Hd. rewrite list_elem_of_In in Hd. simpl in Hd.
    intros H.
    repeat (destruct Hd as [<-|Hd]; [|]); try done;
      repeat (destruct H as [E|H]; [symmetry in E; strip E|]); done.
Qed.

Lemma spring_2026 year isFall :
  String.length year = 4 ->
  seasonTag year isFall = " - 2026.1" <-> year = "2026" /\ isFall = false.
Proof.
  intros Hl. split; [|by intros [-> ->]].
  destruct year as [|a [|b [|c [|d [|e year]]]]]; try discriminate Hl.
  unfold seasonTag. destruct isFall; intros E; strip E.
  split; [|done]. congruence.
Qed.

(** X17. What the product endpoint answers for the division the
    registration page computes, the year being the four digits of the
    season.  For a player in the table and the spring season of 2026 the
    division is a key of the product map and the answer is the store's for
    that key's product id.  For every other player or season (a fall season,
    another year, an age outside the table, another sport) the endpoint
    rejects the division as having no product, whatever the store holds. *)
Theorem division_request (getProduct : store) (sportOk : string) (age : Z)
    (year : string) (isFall : bool) :
  String.length year = 4 ->
  let division := divisionOf sportOk age (seasonTag year isFall) in
  let offered :=
    (year = "2026" /\ isFall = false) /\
    ((sportOk = BASEBALL /\ (4 <= age)%Z) \/
     (sportOk = SOFTBALL /\ (6 <= age <= 12)%Z)) in
  (offered ->
   exists productId, PRODUCT_MAP !! division = Some productId /\
     get_get_product getProduct (Some division) =
     answer getProduct (Some productId)) /\
  (~ offered ->
   get_get_product getProduct (Some division) =
   badRequest ("No product found for division: " +:+ division)).
Proof.
  intros Hl division offered.
  assert (Ho : is_Some (PRODUCT_MAP !! division) <-> offered).
  { unfold division, offered. rewrite product_lookup_iff.
    by rewrite (spring_2026 _ _ Hl). }
  destruct (division_length sportOk age (seasonTag year isFall)) as [Hne Hlen].
  assert (Hmax : String.length division <= 100).
  { unfold division. etrans; [apply Hlen|]. unfold seasonTag.
    rewrite !length_append, Hl. destruct isFall; simpl; lia. }
  split.
  - intros H. apply Ho in H. destruct H as [v Hv]. exists v. split; [done|].
    rewrite get_product_lookup by done. unfold lookup. rewrite Hv.
    destruct (product_key _ _ Hv) as (_ & _ & Hv' & _).
    by destruct v.
  - intros H. rewrite get_product_lookup by done. unfold lookup.
    destruct (PRODUCT_MAP !! division) as [v|] eqn:Ev.
    + exfalso. apply H, Ho. by exists v.
    + rewrite bool_decide_eq_false_2; [done|].
      apply division_not_inherited.
Qed.

Lemma division_request_witness :
  exists productId,
    PRODUCT_MAP !! divisionOf BASEBALL 12 (seasonTag "2026" false)
      = Some productId /\
    get_get_product (fun _ => Ok None)
      (Some (divisionOf BASEBALL 12 (seasonTag "2026" false))) =
    answer (fun _ => Ok None) (Some productId).
Proof.
  apply (division_request (fun _ => Ok None) BASEBALL 12 "2026" false).
  - reflexivity.
  - split; [done|]. left. split; [reflexivity|lia].
Defined.

Lemma inline_elem k v :
  GetProductInline.DIVISION_TO_PRODUCT !! k = Some v <->
  (k, v) ∈ GetProductInline.DIVISION_LIST.
Proof.
  split.
  - apply elem_of_list_to_map_2.
  - apply elem_of_list_to_map_1. vm_compute.
    repeat (constructor; [by rewrite list_elem_of_In; simpl; intuition discriminate|]).
    constructor.
Qed.

Lemma inline_product k v :
  GetProductInline.DIVISION_TO_PRODUCT !! k = Some v ->
  PRODUCT_MAP !! k = Some v.
Proof.
  intros Hv. apply inline_elem in Hv. rewrite list_elem_of_In in Hv.
  simpl in Hv.
  repeat (destruct Hv as [E|Hv]; [injection E as <- <-; by vm_compute|]).
  done.
Qed.

Lemma product_inline k v :
  PRODUCT_MAP !! k = Some v ->
  GetProductInline.DIVISION_TO_PRODUCT !! k = Some v \/
  k = "Baseball 15U Senior - 2026.1".
Proof.
  intros Hv. apply product_elem in Hv. rewrite list_elem_of_In in Hv.
  simpl in Hv.
  repeat (destruct Hv as [E|Hv];
    [injection E as <- <-; first [by right | by left; vm_compute]|]).
  done.
Qed.

Lemma inline_ok_iff getProduct division body :
  GetProductInline.get_get_product getProduct division = ok body <->
  exists d p, division = Some d /\ body = bodyOf p /\
    ((exists productId,
        GetProductInline.DIVISION_TO_PRODUCT !! d = Some productId /\
        getProduct (Some productId) = Ok (Some p)) \/
     (d ∈ inheritedNames /\ getProduct None = Ok (Some p))).
Proof.
  assert (Ha : forall ref, GetProductInline.answer getProduct ref = ok body <->
            exists p, getProduct ref = Ok (Some p) /\ body = bodyOf p).
  { intros ref. unfold GetProductInline.answer.
    destruct (getProduct ref) as [[p|]|e]; split; try done.
    - intros E. exists p. split; [done|]. congruence.
    - intros [q [E ->]]. congruence.
    - intros [q [E _]]. discriminate.
    - intros [q [E _]]. discriminate. }
  split.
  - destruct division as [d|]; [|done].
    unfold GetProductInline.get_get_product. destruct d as [|c d]; [done|].
    unfold lookup.
    destruct (GetProductInline.DIVISION_TO_PRODUCT !! String c d)
      as [v|] eqn:Ev.
    + destruct v as [|c' v]; [done|]. rewrite Ha.
      intros [p [E ->]]. exists (String c d), p. repeat split.
      left. by exists (String c' v).
    + destruct (bool_decide _) eqn:Ei; [|done]. rewrite Ha.
      intros [p [E ->]]. exists (String c d), p. repeat split.
      right. split; [|done]. by apply bool_decide_eq_true_1 in Ei.
  - intros (d & p & -> & -> & [(v & Ev & E)|[Hi E]]).
    + destruct (product_key _ _ (inline_product _ _ Ev)) as (Hd & Hl & Hv & _).
      unfold GetProductInline.get_get_product, lookup.
      destruct d as [|c d]; [done|]. rewrite Ev.
      destruct v as [|c' v]; [done|]. apply Ha. by exists p.
    + destruct (inherited_name _ Hi) as (Hd & Hl & Hn).
      unfold GetProductInline.get_get_product, lookup.
      destruct d as [|c d]; [done|].
      destruct (GetProductInline.DIVISION_TO_PRODUCT !! String c d)
        as [v|] eqn:Ev.
      * apply inline_product in Ev. congruence.
      * rewrite bool_decide_eq_true_2 by done. apply Ha. by exists p.
Qed.

(** X18. The two versions of the product endpoint agree on success.
    Whatever the version with its own division table answers with [ok], the
    version reading the shared product map answers too, with the same body;
    and the only division the second answers with [ok] and the first does
    not is "Baseball 15U Senior - 2026.1", which the first one's table
    lacks.  (They differ on failures: the first has no length limit and
    reports a missing product as the error of reading [_id].) *)
Theorem shared_map_extends_inline (getProduct : store)
    (division : option string) (body : found) :
  (GetProductInline.get_get_product getProduct division = ok body ->
   get_get_product getProduct division = ok body) /\
  (get_get_product getProduct division = ok body ->
   GetProductInline.get_get_product getProduct division = ok body \/
   division = Some "Baseball 15U Senior - 2026.1").
Proof.
  rewrite inline_ok_iff, endpoint_ok_iff. split.
  - intros (d & p & -> & -> & [(v & Ev & E)|[Hi E]]);
      exists d, p; repeat split.
    + left. exists v. split; [by apply inline_product|done].
    + by right.
  - intros (d & p & -> & -> & [(v & Ev & E)|[Hi E]]).
    + destruct (product_inline _ _ Ev) as [Ev'|Ek]; [|subst d; by right].
      left. exists d, p. repeat split. left. by exists v.
    + left. exists d, p. repeat split. by right.
Qed.

End ProductExtras.

(** ** The checkout page *)

Module CheckoutExtras.
Import SessionManager Checkout CheckoutSpec MonadFacts.

(** *** The ids of the repeater *)

Lemma digitsValue_uint d acc :
  digitsValue acc (NilEmpty.string_of_uint d) = Nat.of_uint_acc d acc.
Proof.
  revert acc; induction d as [|d IH|d IH|d IH|d IH|d IH|d IH|d IH|d IH|d IH|d IH];
    intros acc; [done|..]; simpl NilEmpty.string_of_uint;
    simpl Nat.of_uint_acc; rewrite <- IH, Nat.tail_mul_spec;
    unfold digitsValue at 1; fold digitsValue;
    match goal with |- context [digitOf ?c] =>
      let v := eval vm_compute in (digitOf c) in
      change (digitOf c) with v end;
    f_equal; lia.
Qed.

Lemma unsignedInt_uint d :
  d <> Decimal.Nil ->
  unsignedInt (NilEmpty.string_of_uint d) = Some (Nat.of_uint d) /\
  skipSpaces (NilEmpty.string_of_uint d) = NilEmpty.string_of_uint d /\
  exists c s, NilEmpty.string_of_uint d = String c s /\
              c <> "-"%char /\ c <> "+"%char.
Proof.
  intros Hd. unfold Nat.of_uint. rewrite <- digitsValue_uint.
  destruct d; [done|..]; (split; [done|split; [done|]]);
    eexists _, _; (split; [reflexivity|done]).
Qed.

Lemma parseInt_unsigned c s :
  c <> "-"%char -> c <> "+"%char ->
  skipSpaces (String c s) = String c s ->
  parseInt (String c s) = Z.of_nat <$> unsignedInt (String c s).
Proof.
  intros Hm Hp Hs. unfold parseInt. rewrite Hs.
  destruct c as [[] [] [] [] [] [] [] []]; done.
Qed.

Lemma parseInt_toString (i : nat) : parseInt (toString i) = Some (Z.of_nat i).
Proof.
  unfold toString.
  destruct (unsignedInt_uint (Nat.to_uint i)) as (Hu & Hs & c & s & E & Hm & Hp).
  { rewrite <- (DecimalNat.Unsigned.of_to i) at 1.
    rewrite DecimalNat.Unsigned.to_of. apply DecimalFacts.unorm_nonnil. }
  rewrite E in Hs, Hu |- *. rewrite parseInt_unsigned by done.
  by rewrite Hu, DecimalNat.Unsigned.of_to.
Qed.

Lemma with_site_id p : with_site (site p) p = p.
Proof. by destruct p. Qed.

Lemma getRegQueue_page p : onSite getRegQueue p = (Ok (queueOf p), p).
Proof. unfold onSite, getRegQueue, gets. by rewrite with_site_id. Qed.

Lemma load_shown queue p :
  queue <> [] ->
  exists shown,
    loadPendingRegistrations queue p = (Ok tt, shown) /\
    repeaterCartPlayers shown =
      Some (imap (fun j it => (toString j, it)) queue) /\
    site shown = site p /\ navigatedTo shown = navigatedTo p /\
    cart shown = cart p.
Proof.
  intros Hq. unfold loadPendingRegistrations.
  destruct queue as [|r queue]; [done|]. simpl length. simpl Nat.eqb.
  cbv beta iota. eexists. split; [reflexivity|]. done.
Qed.

Lemma load_hidden p :
  exists shown,
    loadPendingRegistrations [] p = (Ok tt, shown) /\
    repeaterCartPlayers shown = None /\
    site shown = site p /\ navigatedTo shown = navigatedTo p /\
    cart shown = cart p.
Proof. eexists. split; [reflexivity|]. done. Qed.

(** X19. The Remove button of a queued entry removes that entry.  The
    repeater lists the queue with the positions as ids; clicking Remove on
    the entry shown at position [i] reads the position back from the id,
    splices that one entry out of the session queue, keeps the others in
    order, shows the shortened queue (or hides the repeater when nothing is
    left) and goes back to the registration page. *)
Theorem remove_button_removes_its_entry
    (p : page) (i : nat) (r : registration) :
  queueOf p !! i = Some r ->
  exists data shown after,
    loadPendingRegistrations (queueOf p) p = (Ok tt, shown) /\
    repeaterCartPlayers shown = Some data /\
    data !! i = Some (toString i, r) /\
    removePlayerFromQueue (toString i) shown = (Ok tt, after) /\
    queueOf after = delete i (queueOf p) /\
    repeaterCartPlayers after =
      (if decide (delete i (queueOf p) = []) then None
       else Some (imap (fun j it => (toString j, it))
                       (delete i (queueOf p)))) /\
    navigatedTo after = Some Constants.REGISTRATION.
Proof.
  intros Hi.
  assert (Hq : queueOf p <> []) by (intros E; by rewrite E in Hi).
  destruct (load_shown (queueOf p) p Hq) as (shown & Hload & Hdata & Hsite & _).
  exists (imap (fun j it => (toString j, it)) (queueOf p)), shown.
  assert (Hqs : queueOf shown = queueOf p) by (unfold queueOf; by rewrite Hsite).
  assert (Hlt : i < length (queueOf p)) by eauto using lookup_lt_Some.
  set (rest := delete i (queueOf p)).
  set (stored := with_site (with_regQueueItem (Json rest) (site shown)) shown).
  assert (Hstep : removePlayerFromQueue (toString i) shown =
            (_ ← loadPendingRegistrations rest;
             modify (with_navigatedTo (Some Constants.REGISTRATION))) stored).
  { unfold removePlayerFromQueue.
    rewrite (bind_Ok _ _ _ _ _ (getRegQueue_page shown)).
    rewrite parseInt_toString, Hqs.
    replace ((0 <=? Z.of_nat i)%Z && (Z.of_nat i <? Z.of_nat (length (queueOf p)))%Z)
      with true by (symmetry; apply andb_true_iff; split; lia).
    rewrite Nat2Z.id. reflexivity. }
  assert (Hstored : queueOf stored = rest) by done.
  destruct (decide (rest = [])) as [E|Hne].
  - destruct (load_hidden stored) as (after & Hafter & Hrep & Hs & _).
    rewrite E in Hstep.
    rewrite (bind_Ok _ _ _ _ _ Hafter) in Hstep.
    exists (with_navigatedTo (Some Constants.REGISTRATION) after). split; [done|]. split; [done|].
    split; [by rewrite list_lookup_imap, Hi|].
    split; [exact Hstep|].
    split; [|done].
    unfold queueOf. simpl. rewrite Hs. fold (queueOf stored). congruence.
  - destruct (load_shown rest stored Hne) as (after & Hafter & Hrep & Hs & _).
    rewrite (bind_Ok _ _ _ _ _ Hafter) in Hstep.
    exists (with_navigatedTo (Some Constants.REGISTRATION) after).
    split; [done|]. split; [done|].
    split; [by rewrite list_lookup_imap, Hi|].
    split; [exact Hstep|].
    split; [|done].
    unfold queueOf. simpl. rewrite Hs. by fold (queueOf stored).
Qed.

Lemma remove_button_removes_its_entry_witness :
  exists data shown after,
    loadPendingRegistrations (queueOf Examples2.checkoutPage)
      Examples2.checkoutPage = (Ok tt, shown) /\
    repeaterCartPlayers shown = Some data /\
    data !! 0 = Some (toString 0, Examples.majors) /\
    removePlayerFromQueue (toString 0) shown = (Ok tt, after) /\
    queueOf after = delete 0 (queueOf Examples2.checkoutPage) /\
    repeaterCartPlayers after =
      (if decide (delete 0 (queueOf Examples2.checkoutPage) = []) then None
       else Some (imap (fun j it => (toString j, it))
                       (delete 0 (queueOf Examples2.checkoutPage)))) /\
    navigatedTo after = Some Constants.REGISTRATION.
Proof.
  apply (remove_button_removes_its_entry Examples2.checkoutPage 0
           Examples.majors).
  reflexivity.
Defined.

(** *** The cart check and the matching engine *)

Lemma expand_single lineItems :
  Forall (fun l => MatchingSpec.unitsOrOne l = 1) lineItems ->
  MatchingSpec.expand MatchingSpec.unitsOrOne lineItems = lineItems.
Proof.
  unfold MatchingSpec.expand. induction 1 as [|l ls Hl _ IH]; [done|].
  rewrite bind_cons, Hl, IH. done.
Qed.

Lemma contains_empty x : MatchingSpec.contains "" x -> x = "".
Proof.
  intros (pre & post & E). destruct pre as [|c pre]; [|discriminate].
  destruct x; [done|discriminate].
Qed.

Lemma cartName_includes d pn x :
  MatchingSpec.contains d x ->
  Js.includes (cartName (Some d) pn) x = true.
Proof.
  intros Hc. apply JsFacts.includes_spec.
  destruct d as [|c d].
  - apply contains_empty in Hc as ->. by exists "", (cartName (Some "") pn).
  - done.
Qed.

(** X20. The cart check of the checkout page never warns about a cart the
    Thank You page can match in full.  If every line item counts as one unit,
    there are as many line items as queued entries, and the matching engine
    leaves no entry unmatched, then [validateCart]'s test passes on the line
    items' names and the queue's divisions: each division occurs in some
    name, and each name contains some division. *)
Theorem full_match_passes_cart_check
    (regQueue : list registration) (lineItems : list lineItem)
    (productName : lineItem -> option string) :
  Forall (fun l => MatchingSpec.unitsOrOne l = 1) lineItems ->
  length lineItems = length regQueue ->
  (Matching.matchRegistrationsToLineItems regQueue lineItems).2 = [] ->
  cartMatches ((fun l => cartName (name l) (productName l)) <$> lineItems)
              (division <$> regQueue) = true.
Proof.
  intros Hone Hlen Hun.
  unfold Matching.matchRegistrationsToLineItems in Hun; simpl in Hun.
  destruct (MatchingProofs.matchLoop_greedy regQueue
              (Matching.buildSlots lineItems)
              (MatchingSpec.expand MatchingSpec.unitsOrOne lineItems) ∅)
    as [bound [Hg Hn]].
  { rewrite MatchingProofs.buildSlots_expand.
    apply MatchingProofs.represents_fresh. }
  rewrite Hun, (expand_single _ Hone) in Hg.
  rewrite (expand_single _ Hone) in Hn.
  pose proof (MatchingProofs.greedy_Permutation _ _ _ _ _ Hg) as Hperm.
  rewrite app_nil_r in Hperm.
  destruct (MatchingProofs.greedy_NoDup _ _ _ _ _ Hg) as [Hnd _].
  pose proof (MatchingProofs.greedy_sound _ _ _ _ _ Hg) as Hsound.
  rewrite Forall_forall in Hsound.
  assert (Hall : bound.*2 ≡ₚ seq 0 (length lineItems)).
  { apply submseteq_length_Permutation.
    - apply NoDup_submseteq; [done|]. intros i Hi. apply elem_of_seq.
      pose proof (MatchingExtras.bound_in_range _ _ _ Hn i Hi). lia.
    - rewrite length_seq, length_fmap.
      apply Permutation_length in Hperm. rewrite length_fmap in Hperm. lia. }
  unfold cartMatches. apply andb_true_iff. split.
  - apply forallb_forall. intros d Hd. apply list_elem_of_In in Hd.
    apply list_elem_of_fmap in Hd as [r [-> Hr]].
    rewrite <- Hperm in Hr. apply list_elem_of_fmap in Hr as [b [-> Hb]].
    destruct (Hsound b Hb) as [_ (l & d & Hl & Hname & Hc)].
    apply existsb_exists. exists (cartName (name l) (productName l)). split.
    + apply list_elem_of_In, list_elem_of_fmap. exists l. split; [done|].
      apply list_elem_of_lookup. eauto.
    + rewrite Hname. by apply cartName_includes.
  - apply forallb_forall. intros n Hin. apply list_elem_of_In in Hin.
    apply list_elem_of_fmap in Hin as [l [-> Hl]].
    apply list_elem_of_lookup in Hl as [i Hi].
    assert (Hib : i ∈ bound.*2).
    { rewrite Hall. apply elem_of_seq. apply lookup_lt_Some in Hi. lia. }
    apply list_elem_of_fmap in Hib as [b [-> Hb]].
    destruct (Hsound b Hb) as [Hq (l' & d & Hl' & Hname & Hc)].
    assert (l' = l) by congruence; subst l'.
    apply existsb_exists. exists (division b.1). split.
    + apply list_elem_of_In, list_elem_of_fmap. by exists b.1.
    + rewrite Hname. by apply cartName_includes.
Qed.

Lemma full_match_passes_cart_check_witness :
  cartMatches
    ((fun l => cartName (name l) None) <$> [Examples.oneMajors])
    (division <$> [Examples.majors]) = true.
Proof.
  apply (full_match_passes_cart_check [Examples.majors] [Examples.oneMajors]
           (fun _ => None)).
  - repeat constructor.
  - reflexivity.
  - reflexivity.
Defined.

(** *** The Pay button *)

Lemma getCheckoutDivision_page p :
  getCheckoutDivision p = (Ok (divisionAt p), p).
Proof.
  unfold getCheckoutDivision, divisionAt.
  unfold mbind at 1, M_bind at 1, gets at 1.
  destruct (Js.truthy (query_division (location p))); [done|].
  by rewrite (bind_Ok _ _ _ _ _ (getRegQueue_page p)).
Qed.

Lemma isDuplicateInQueue_page d p :
  isDuplicateInQueue d p = (Ok (1 <? length (entriesFor p d))%nat, p).
Proof.
  unfold isDuplicateInQueue.
  by rewrite (bind_Ok _ _ _ _ _ (getRegQueue_page p)).
Qed.

Lemma payClick_payable p d :
  payable p d ->
  payClick p = tryCatch (checkout (queueOf p) d) payHandler p.
Proof.
  intros (Hq & Hd & Hne & Hdup). unfold payClick.
  rewrite (bind_Ok _ _ _ _ _ (getRegQueue_page p)).
  rewrite (bind_Ok _ _ _ _ _ (getCheckoutDivision_page p)).
  rewrite Hd.
  replace (length (queueOf p) =? 0)%nat with false
    by (symmetry; apply Nat.eqb_neq; by destruct (queueOf p)).
  replace (Js.truthy (Some d)) with true by (by destruct d).
  change (negb true) with false. change (default "" (Some d)) with d.
  cbv iota zeta.
  rewrite (bind_Ok _ _ _ _ _ (isDuplicateInQueue_page _ p)).
  destruct (Nat.ltb_spec 1 (length (entriesFor p d))); [lia|done].
Qed.

Lemma external_run {A} (c : M world A) (w : world) :
  WixData.external c w =
  match head (replies w) with
  | Some (Raise e) => (Throw e, with_replies (tail (replies w)) w)
  | _ => c (with_replies (tail (replies w)) w)
  end.
Proof.
  unfold WixData.external, nextReply, mbind, M_bind.
  destruct w as [? ? ? ? ? ? ? ? ? ? ? rs]. simpl.
  destruct rs as [|[| |e] rs]; reflexivity.
Qed.

Lemma call_run p :
  call p =
  (match head (replies (site p)) with
   | Some (Raise e) => Throw e
   | _ => Ok tt
   end, answered p).
Proof.
  unfold call, onSite, answered. rewrite external_run.
  destruct (head (replies (site p))) as [[| |e]|]; reflexivity.
Qed.

Lemma calm_head rs :
  Recovery.calm rs -> forall e, head rs <> Some (Raise e).
Proof.
  intros H e E. destruct rs as [|r rs]; [done|].
  apply Forall_cons in H as [H _]. simpl in E. injection E as ->.
  by destruct (H e).
Qed.

Lemma calm_tail rs : Recovery.calm rs -> Recovery.calm (tail rs).
Proof.
  intros H. destruct rs as [|r rs]; [done|]. by apply Forall_cons in H as [_ H].
Qed.

Lemma call_calm p :
  Recovery.calm (replies (site p)) -> call p = (Ok tt, answered p).
Proof.
  intros H. rewrite call_run. pose proof (calm_head _ H) as Hh.
  destruct (head (replies (site p))) as [[| |e]|]; try done.
  by destruct (Hh e).
Qed.

Lemma savePending_saved q p :
  identified p = true -> ~ failing p ->
  savePending q p = (Ok tt, saved q p).
Proof.
  unfold identified, failing, savePending. intros Hi Hf.
  apply andb_true_iff in Hi as [Hl Hid].
  unfold mbind at 1, M_bind at 1, gets at 1.
  unfold mbind at 1, M_bind at 1, gets at 1.
  rewrite Hl. destruct (currentUserId p) as [|c id] eqn:E; [done|].
  change (negb (Js.truthy (Some (String c id)))) with false. cbv iota.
  unfold mbind at 1, M_bind at 1, onSite at 1, dateNow, gets at 1.
  rewrite with_site_id.
  unfold mbind at 1, M_bind at 1, gets at 1.
  unfold onSite, saved, answered. rewrite external_run.
  destruct (head (replies (site p))) as [[| |e]|] eqn:Eh;
    [| |destruct Hf; by exists e|]; unfold modify; simpl; by rewrite E.
Qed.

Lemma savePending_anonymous q p :
  identified p = false ->
  savePending q p =
  (Throw "User not logged in - cannot save registration", p).
Proof.
  unfold identified, savePending. intros Hi.
  unfold mbind at 1, M_bind at 1, gets at 1.
  unfold mbind at 1, M_bind at 1, gets at 1.
  destruct (loggedIn p); [|done].
  destruct (currentUserId p) as [|c id]; [done|discriminate].
Qed.

Lemma kb_ret {A} (a : A) : keepsBackups (mret a).
Proof. by intros p. Qed.

Lemma kb_throw {A} e : keepsBackups (throw e : M page A).
Proof. by intros p. Qed.

Lemma kb_gets {A} (g : page -> A) : keepsBackups (gets g).
Proof. by intros p. Qed.

Lemma kb_modify (g : page -> page) :
  (forall p, PendingRegistrations (site (g p)) = PendingRegistrations (site p)) ->
  keepsBackups (modify g).
Proof. intros H p. apply H. Qed.

Lemma kb_bind {A B} (c : M page A) (k : A -> M page B) :
  keepsBackups c -> (forall a, keepsBackups (k a)) -> keepsBackups (c ≫= k).
Proof.
  intros Hc Hk p. unfold mbind, M_bind. specialize (Hc p).
  destruct (c p) as [[a|e] p1]; simpl in *; [|done].
  by rewrite (Hk a p1).
Qed.

Lemma kb_tryCatch {A} (c : M page A) h :
  keepsBackups c -> (forall e, keepsBackups (h e)) ->
  keepsBackups (tryCatch c h).
Proof.
  intros Hc Hh p. unfold tryCatch. specialize (Hc p).
  destruct (c p) as [[a|e] p1]; simpl in *; [done|].
  by rewrite (Hh e p1).
Qed.

Lemma kb_call : keepsBackups call.
Proof. intros p. by rewrite call_run. Qed.

Ltac kb :=
  repeat first
    [ apply kb_ret | apply kb_throw | apply kb_gets | apply kb_call
    | apply kb_modify; by intros []
    | apply kb_bind; [|intros ?]
    | apply kb_tryCatch; [|intros ?]
    | match goal with
      | |- keepsBackups (match ?x with _ => _ end) => destruct x
      end ].

Lemma kb_addItemToCart d : keepsBackups (addItemToCart d).
Proof. unfold addItemToCart, addProduct, fetchProduct. kb. Qed.

Lemma kb_toCart d : keepsBackups (toCart d).
Proof.
  unfold toCart. apply kb_bind; [kb|intros _].
  apply kb_bind; [apply kb_addItemToCart|intros ?]. kb.
Qed.

Lemma kb_payHandler e : keepsBackups (payHandler e).
Proof. unfold payHandler. kb. Qed.

Lemma checkout_saved p d :
  identified p = true -> ~ failing p ->
  checkout (queueOf p) d p =
  toCart d (saved (queueOf p)
              (with_textStatus (Some "Saving registration data...") p)).
Proof.
  intros Hi Hf. unfold checkout.
  unfold mbind at 1, M_bind at 1, modify at 1.
  unfold mbind at 1, M_bind at 1, tryCatch at 1.
  by rewrite savePending_saved.
Qed.

Lemma checkout_anonymous p d :
  identified p = false ->
  checkout (queueOf p) d p =
  toCart d (with_textError (Some backupWarning)
              (with_textStatus (Some "Saving registration data...") p)).
Proof.
  intros Hi. unfold checkout.
  unfold mbind at 1, M_bind at 1, modify at 1.
  unfold mbind at 1, M_bind at 1, tryCatch at 1.
  by rewrite savePending_anonymous.
Qed.

Lemma pay_total p :
  exists p', payClick p = (Ok tt, p').
Proof.
  unfold payClick.
  rewrite (bind_Ok _ _ _ _ _ (getRegQueue_page p)).
  rewrite (bind_Ok _ _ _ _ _ (getCheckoutDivision_page p)).
  destruct (_ =? _)%nat; [by eexists|].
  destruct (negb _); [by eexists|]. cbv zeta.
  rewrite (bind_Ok _ _ _ _ _ (isDuplicateInQueue_page _ p)).
  destruct (_ <? _)%nat; [by eexists|].
  unfold tryCatch. destruct (checkout _ _ p) as [[[]|e] p1]; by eexists.
Qed.

Lemma pay_backup p d :
  payable p d -> identified p = true -> ~ failing p ->
  exists p',
    payClick p = (Ok tt, p') /\
    PendingRegistrations (site p') =
      PendingRegistrations (site p) ++ [backupOf p].
Proof.
  intros Hp Hi Hf. destruct (pay_total p) as [p' Hpay]. exists p'.
  split; [done|].
  rewrite (payClick_payable _ _ Hp) in Hpay.
  pose proof (kb_tryCatch _ _ (kb_toCart d) kb_payHandler
                (saved (queueOf p)
                   (with_textStatus (Some "Saving registration data...") p)))
    as Hkb.
  unfold tryCatch in Hpay, Hkb. rewrite (checkout_saved _ _ Hi Hf) in Hpay.
  rewrite Hpay in Hkb. done.
Qed.

(** X21. A Pay click that fails one of the three guards does nothing but
    show a message: with an empty queue, with no division to check out, or
    with more than one queued entry of the URL's player in that division,
    the handler returns with the page as it was except for the one text; in
    particular no backup is written, nothing is added to the cart and the
    page does not navigate. *)
Theorem pay_rejected (p : page) :
  (forall d, ~ payable p d) ->
  exists p',
    payClick p = (Ok tt, p') /\
    ((queueOf p = [] /\ p' = with_textError (Some noRegistrations) p) \/
     (queueOf p <> [] /\ Js.truthy (divisionAt p) = false /\
      p' = with_textError (Some noDivision) p) \/
     (exists d, queueOf p <> [] /\ divisionAt p = Some d /\
        1 < length (entriesFor p d) /\
        p' = with_textDuplicateWarning (Some alreadyPending) p)).
Proof.
  intros Hno. unfold payClick.
  rewrite (bind_Ok _ _ _ _ _ (getRegQueue_page p)).
  rewrite (bind_Ok _ _ _ _ _ (getCheckoutDivision_page p)).
  destruct (Nat.eqb_spec (length (queueOf p)) 0) as [Hz|Hnz].
  { eexists. split; [reflexivity|]. left. split; [|done].
    by destruct (queueOf p). }
  assert (Hq : queueOf p <> []) by (intros E; by rewrite E in Hnz).
  destruct (Js.truthy (divisionAt p)) eqn:Ht.
  2:{ eexists. split; [reflexivity|]. right; left. done. }
  destruct (divisionAt p) as [d|] eqn:Hd; [|done].
  change (negb true) with false.
  change (default "" (Some d)) with d. cbv iota zeta.
  rewrite (bind_Ok _ _ _ _ _ (isDuplicateInQueue_page _ p)).
  destruct (Nat.ltb_spec 1 (length (entriesFor p d))) as [Hlt|Hle].
  - eexists. split; [reflexivity|]. right; right. by exists d.
  - destruct (Hno d). repeat split; try done. intros ->. done.
Qed.

Lemma pay_rejected_witness :
  exists p',
    payClick (Examples2.checkoutOver [] [] true) = (Ok tt, p') /\
    ((queueOf (Examples2.checkoutOver [] [] true) = [] /\
      p' = with_textError (Some noRegistrations)
             (Examples2.checkoutOver [] [] true)) \/
     (queueOf (Examples2.checkoutOver [] [] true) <> [] /\
      Js.truthy (divisionAt (Examples2.checkoutOver [] [] true)) = false /\
      p' = with_textError (Some noDivision)
             (Examples2.checkoutOver [] [] true)) \/
     (exists d, queueOf (Examples2.checkoutOver [] [] true) <> [] /\
        divisionAt (Examples2.checkoutOver [] [] true) = Some d /\
        1 < length (entriesFor (Examples2.checkoutOver [] [] true) d) /\
        p' = with_textDuplicateWarning (Some alreadyPending)
               (Examples2.checkoutOver [] [] true))).
Proof.
  apply (pay_rejected (Examples2.checkoutOver [] [] true)).
  intros d [Hq _]. by apply Hq.
Defined.

Lemma newest_first o w b :
  Recovery.eligible o w b ->
  (forall h, Recovery.eligible o w h -> h = b \/ (createdAt h < createdAt b)%Z) ->
  exists rest, Recovery.candidates o w = b :: rest.
Proof.
  intros Hb Hnew.
  pose proof (RecoveryProofs.candidates_sorted o w) as Hsorted.
  pose proof (proj2 (RecoveryProofs.candidates_elem o w b) Hb) as Hin.
  destruct (Recovery.candidates o w) as [|h rest] eqn:E.
  { by apply elem_of_nil in Hin. }
  exists rest. f_equal.
  assert (Hh : Recovery.eligible o w h).
  { apply RecoveryProofs.candidates_elem. rewrite E. by left. }
  destruct (Hnew h Hh) as [|Hlt]; [done|].
  apply elem_of_cons in Hin as [|Hin]; [done|].
  apply StronglySorted_inv in Hsorted as [_ Hall].
  rewrite Forall_forall in Hall. specialize (Hall b Hin).
  unfold WixData.newerFirst in Hall. lia.
Qed.

(** X22. What the Pay button backs up, the Thank You page recovers.  When a
    Pay click passes its guards, the user is logged in and the insert does
    not throw, the backup collection gains one record holding the session
    queue, whatever happens to the cart afterwards.  If the buyer's older
    backups are strictly older, then for every order of that buyer that is
    not yet recorded, on a Thank You page that opens within two hours with
    the backups unchanged and the session queue lost, and with no external
    call throwing, [loadRegistrationQueue] returns exactly the queue that
    was checked out, from the backup collection, and marks that record as
    processing. *)
Theorem paid_queue_is_recoverable (p : page) (d : string) :
  payable p d -> identified p = true -> ~ failing p ->
  Forall (fun r => userId r = currentUserId p ->
                   (createdAt r < now (site p))%Z)
         (PendingRegistrations (site p)) ->
  exists p',
    payClick p = (Ok tt, p') /\
    PendingRegistrations (site p') =
      PendingRegistrations (site p) ++ [backupOf p] /\
    forall (o : order) (w : world),
      PendingRegistrations w = PendingRegistrations (site p') ->
      parseQueue (regQueueItem w) = [] ->
      (now w <= now (site p) + ThankYou.twoHours)%Z ->
      Recovery.buyerOf o = Some (currentUserId p) ->
      Recovery.unrecorded o w -> Recovery.calm (replies w) ->
      exists w',
        ThankYou.loadRegistrationQueue o w =
          (Ok (queueOf p, ThankYou.FromCms), w') /\
        PendingRegistrations w' =
          WixData.setStatus (newItemId p) "processing" <$>
            PendingRegistrations w.
Proof.
  intros Hp Hi Hf Hold.
  destruct (pay_backup p d Hp Hi Hf) as (p' & Hpay & Hrec).
  exists p'. split; [done|]. split; [done|].
  intros o w Hw Hq Hnow Hbuyer Hun Hcalm. rewrite Hrec in Hw.
  assert (Hid : currentUserId p <> "").
  { unfold identified in Hi. apply andb_true_iff in Hi as [_ Hi].
    intros E. rewrite E in Hi. done. }
  destruct (newest_first o w (backupOf p)) as [rest Hc].
  - unfold Recovery.eligible. rewrite Hw, Hbuyer. split.
    + apply elem_of_app. right. by apply list_elem_of_singleton.
    + split; [done|]. split; [done|]. simpl. lia.
  - intros h (Hin & Hu & _). rewrite Hw in Hin.
    apply elem_of_app in Hin as [Hin|Hin].
    + right. rewrite Forall_forall in Hold. simpl. apply (Hold h Hin).
      rewrite Hbuyer in Hu. congruence.
    + left. by apply list_elem_of_singleton in Hin.
  - destruct (RecoveryProofs.load_recovers o w (backupOf p) rest)
      as (w' & Hload & Hst); try done.
    + rewrite Hbuyer. by destruct (currentUserId p).
    + by exists w'.
Qed.

Lemma paid_queue_is_recoverable_witness :
  exists p',
    payClick Examples2.checkoutPage = (Ok tt, p') /\
    PendingRegistrations (site p') =
      PendingRegistrations (site Examples2.checkoutPage) ++
      [backupOf Examples2.checkoutPage] /\
    forall (o : order) (w : world),
      PendingRegistrations w = PendingRegistrations (site p') ->
      parseQueue (regQueueItem w) = [] ->
      (now w <= now (site Examples2.checkoutPage) + ThankYou.twoHours)%Z ->
      Recovery.buyerOf o = Some (currentUserId Examples2.checkoutPage) ->
      Recovery.unrecorded o w -> Recovery.calm (replies w) ->
      exists w',
        ThankYou.loadRegistrationQueue o w =
          (Ok (queueOf Examples2.checkoutPage, ThankYou.FromCms), w') /\
        PendingRegistrations w' =
          WixData.setStatus (newItemId Examples2.checkoutPage) "processing"
            <$> PendingRegistrations w.
Proof.
  apply (paid_queue_is_recoverable Examples2.checkoutPage "Majors").
  - repeat split; [done|done|simpl; lia].
  - reflexivity.
  - intros [e He]. discriminate He.
  - constructor.
Defined.

Lemma addItemToCart_added d p body productId :
  d <> "" -> Recovery.calm (replies (site p)) ->
  GetProduct.get_get_product (getProduct p) (Some d) = GetProduct.ok body ->
  GetProduct.found_productId body = Some productId -> productId <> "" ->
  addItemToCart d p =
  (Ok true,
   with_cart (cart p ++ [itemOf productId body])
     (answered (answered (with_textStatus (Some "Adding to cart...") p)))).
Proof.
  intros Hd Hcalm Hresp Hpid Hne.
  unfold addItemToCart, tryCatch, addProduct.
  unfold mbind at 1, M_bind at 1, modify at 1.
  replace (String.eqb d "") with false by (by destruct d).
  unfold mbind at 1, M_bind at 1, mret at 1, M_ret at 1.
  unfold fetchProduct.
  unfold mbind at 1, M_bind at 1. unfold mbind at 1, M_bind at 1.
  rewrite call_calm by done.
  unfold mbind at 1, M_bind at 1, gets at 1.
  unfold mret at 1, M_ret at 1.
  change (getProduct (answered (with_textStatus (Some "Adding to cart...") p)))
    with (getProduct p).
  rewrite Hresp, Hpid. destruct productId as [|c pid]; [done|].
  unfold mbind at 1, M_bind at 1.
  rewrite call_calm by (simpl; by apply calm_tail).
  reflexivity.
Qed.

Lemma addItemToCart_refused d p :
  d <> "" -> ~ failing p ->
  (forall body,
     GetProduct.get_get_product (getProduct p) (Some d) <> GetProduct.ok body) ->
  addItemToCart d p =
  (Ok false,
   with_textStatus None
     (with_textError (Some "Server error")
        (answered (with_textStatus (Some "Adding to cart...") p)))).
Proof.
  intros Hd Hf Hresp.
  unfold addItemToCart, tryCatch, addProduct.
  unfold mbind at 1, M_bind at 1, modify at 1.
  replace (String.eqb d "") with false by (by destruct d).
  unfold mbind at 1, M_bind at 1, mret at 1, M_ret at 1.
  unfold fetchProduct.
  unfold mbind at 1, M_bind at 1. unfold mbind at 1, M_bind at 1.
  rewrite call_run.
  change (head (replies (site (with_textStatus (Some "Adding to cart...") p))))
    with (head (replies (site p))).
  destruct (head (replies (site p))) as [[| |e]|] eqn:Eh;
    try (destruct Hf; by exists e);
    unfold mbind at 1, M_bind at 1, gets at 1;
    unfold mret at 1, M_ret at 1;
    change (getProduct (answered (with_textStatus (Some "Adding to cart...") p)))
      with (getProduct p);
    specialize (Hresp);
    destruct (GetProduct.get_get_product (getProduct p) (Some d)) as [body| |];
    first [by destruct (Hresp body) | reflexivity].
Qed.

(** X23. A Pay click that gets a product puts exactly one item in the
    cart.  When the click passes its guards, no external call throws and
    the product endpoint answers [ok] with a product id, the cart gains one
    item of that product with quantity one (whatever the length of the
    queue), the lightbox is opened and the page goes to the cart.  The
    backup record is written if the user is known; if not, the click goes
    on all the same, with no backup and the warning shown. *)
Theorem pay_adds_one_item (p : page) (d : string) (body : GetProduct.found)
    (productId : string) :
  payable p d -> Recovery.calm (replies (site p)) ->
  GetProduct.get_get_product (getProduct p) (Some d) = GetProduct.ok body ->
  GetProduct.found_productId body = Some productId -> productId <> "" ->
  exists p',
    payClick p = (Ok tt, p') /\
    cart p' = cart p ++ [itemOf productId body] /\
    lightboxOpened p' = true /\
    navigatedTo p' = Some Constants.CART /\
    textStatus p' = None /\
    queueOf p' = queueOf p /\
    (if identified p
     then PendingRegistrations (site p') =
            PendingRegistrations (site p) ++ [backupOf p] /\
          textError p' = textError p
     else PendingRegistrations (site p') = PendingRegistrations (site p) /\
          textError p' = Some backupWarning).
Proof.
  intros Hp Hcalm Hresp Hpid Hne.
  rewrite (payClick_payable _ _ Hp). destruct Hp as (_ & _ & Hd & _).
  assert (Hf : ~ failing p).
  { intros [e He]. by apply (calm_head _ Hcalm e). }
  unfold tryCatch.
  destruct (identified p) eqn:Hi.
  - rewrite (checkout_saved _ _ Hi Hf). unfold toCart.
    unfold mbind at 1, M_bind at 1, modify at 1.
    unfold mbind at 1, M_bind at 1.
    rewrite (addItemToCart_added d _ body productId Hd)
      by (first [done | simpl; by apply calm_tail]).
    change (negb true) with false. cbv iota.
    unfold mbind at 1, M_bind at 1, modify at 1.
    unfold mbind at 1, M_bind at 1.
    rewrite call_calm by (simpl; by do 3 apply calm_tail).
    eexists. split; [reflexivity|]. done.
  - rewrite (checkout_anonymous _ _ Hi). unfold toCart.
    unfold mbind at 1, M_bind at 1, modify at 1.
    unfold mbind at 1, M_bind at 1.
    rewrite (addItemToCart_added d _ body productId Hd) by done.
    change (negb true) with false. cbv iota.
    unfold mbind at 1, M_bind at 1, modify at 1.
    unfold mbind at 1, M_bind at 1.
    rewrite call_calm by (simpl; by do 2 apply calm_tail).
    eexists. split; [reflexivity|]. done.
Qed.

Lemma pay_adds_one_item_witness :
  exists p',
    payClick Examples2.checkoutPage = (Ok tt, p') /\
    cart p' = cart Examples2.checkoutPage ++
              [itemOf "5abbb0c6-dc69-4ada-9600-5c47d063c33e"
                 (GetProduct.bodyOf Examples2.majorsProduct)] /\
    lightboxOpened p' = true /\
    navigatedTo p' = Some Constants.CART /\
    textStatus p' = None /\
    queueOf p' = queueOf Examples2.checkoutPage /\
    (if identified Examples2.checkoutPage
     then PendingRegistrations (site p') =
            PendingRegistrations (site Examples2.checkoutPage) ++
            [backupOf Examples2.checkoutPage] /\
          textError p' = textError Examples2.checkoutPage
     else PendingRegistrations (site p') =
            PendingRegistrations (site Examples2.checkoutPage) /\
          textError p' = Some backupWarning).
Proof.
  apply (pay_adds_one_item Examples2.checkoutPage "Majors").
  - repeat split; [done|done|simpl; lia].
  - constructor.
  - by vm_compute.
  - reflexivity.
  - done.
Defined.

(** X24. A Pay click for a division the product endpoint does not answer
    [ok] for leaves a backup without a cart item.  When the click passes its
    guards, the user is known and neither the insert nor the request
    throws, the backup record is written first; the request then fails, the
    page shows "Server error", nothing is added to the cart, the lightbox
    stays closed and the page does not navigate. *)
Theorem pay_without_product (p : page) (d : string) :
  payable p d -> identified p = true ->
  Recovery.calm (replies (site p)) ->
  (forall body,
     GetProduct.get_get_product (getProduct p) (Some d) <> GetProduct.ok body) ->
  exists p',
    payClick p = (Ok tt, p') /\
    PendingRegistrations (site p') =
      PendingRegistrations (site p) ++ [backupOf p] /\
    cart p' = cart p /\
    textError p' = Some "Server error" /\
    textStatus p' = None /\
    lightboxOpened p' = lightboxOpened p /\
    navigatedTo p' = navigatedTo p /\
    queueOf p' = queueOf p.
Proof.
  intros Hp Hi Hcalm Hresp.
  rewrite (payClick_payable _ _ Hp). destruct Hp as (_ & _ & Hd & _).
  assert (Hf : ~ failing p).
  { intros [e He]. by apply (calm_head _ Hcalm e). }
  unfold tryCatch. rewrite (checkout_saved _ _ Hi Hf). unfold toCart.
  unfold mbind at 1, M_bind at 1, modify at 1.
  unfold mbind at 1, M_bind at 1.
  rewrite (addItemToCart_refused d) ; [| done | | done].
  - eexists. split; [reflexivity|]. done.
  - intros [e He]. simpl in He.
    by apply (calm_head _ (calm_tail _ Hcalm) e).
Qed.

Lemma pay_without_product_witness :
  exists p',
    payClick (Examples2.checkoutOver [Examples.minors] [] true)
      = (Ok tt, p') /\
    PendingRegistrations (site p') =
      PendingRegistrations
        (site (Examples2.checkoutOver [Examples.minors] [] true)) ++
      [backupOf (Examples2.checkoutOver [Examples.minors] [] true)] /\
    cart p' = cart (Examples2.checkoutOver [Examples.minors] [] true) /\
    textError p' = Some "Server error" /\
    textStatus p' = None /\
    lightboxOpened p' =
      lightboxOpened (Examples2.checkoutOver [Examples.minors] [] true) /\
    navigatedTo p' =
      navigatedTo (Examples2.checkoutOver [Examples.minors] [] true) /\
    queueOf p' = queueOf (Examples2.checkoutOver [Examples.minors] [] true).
Proof.
  apply (pay_without_product
           (Examples2.checkoutOver [Examples.minors] [] true) "Minors").
  - repeat split; [done|done|simpl; lia].
  - reflexivity.
  - constructor.
  - intros body. by vm_compute.
Defined.

End CheckoutExtras.
